(** * County employment explorer: the orchestration layer

    A shallow embedding of [src/services/censusApi.ts] (class
    [CensusApiService]), [src/services/naicsApi.ts] (class
    [NAICSApiService]), of the form of [components/ZipCodeSearch.tsx],
    of the ranking and the county lookup of
    [components/EmployerResults.tsx] and of the two handlers of
    [App.tsx].

    Conventions of the model.
    - JavaScript strings are Rocq strings; one [ascii] stands for one code
      unit below 256.  ZIP, FIPS and NAICS codes are ASCII.
    - JavaScript numbers that hold counts are the integers among the
      doubles, written as integers of [Z]: [Num.round] is the rounding of
      an integer to a double.  Infinity is outside the model: the parsing
      functions are those of the code for numerals below 2^1024.
    - [undefined] is [None] of type [option json]; a parsed JSON document
      is a [json].
    - An [async] function is a computation of the monad [js]: it reads and
      extends the log of HTTP requests, reads and extends the taxonomy
      cache, and either returns or throws.
    - [console.log] and [console.error] are left out, except where the
      evaluation of their arguments can throw. *)

From Stdlib Require Import ZArith List Ascii String Bool Lia Permutation Sorted.
From stdpp Require Import base tactics option list strings pretty gmap sorting.

Set Warnings "-register-all".

Local Open Scope string_scope.
Local Open Scope Z_scope.

(** ** Numbers *)

Module Num.

(** [Number.MAX_SAFE_INTEGER] *)
Definition MAX_SAFE_INTEGER : Z := 2 ^ 53 - 1.

(** The double that an integer is converted to, as the integer it is equal
    to: 53 significant bits, rounding to nearest, ties to the even
    significand.  (For magnitudes below 2^1024 - 2^970; above, the double
    is an infinity.) *)
Definition round (x : Z) : Z :=
  let a := Z.abs x in
  let e := Z.log2 a - 52 in
  if e <=? 0 then x
  else
    let q := Z.shiftr a e in
    let r := Z.land a (Z.ones e) in
    let half := Z.shiftl 1 (e - 1) in
    let up := (half <? r) || ((half =? r) && Z.odd q) in
    Z.sgn x * Z.shiftl (if up then q + 1 else q) e.

End Num.

(** ** Strings *)

Module Str.

(** [\d]: without the [u] flag the class is exactly [0-9]. *)
Definition is_digit (c : ascii) : bool :=
  match Ascii.is_nat c with Some _ => true | None => false end.

Definition digit_value (c : ascii) : Z :=
  match Ascii.is_nat c with Some d => Z.of_nat d | None => 0 end.

Fixpoint forallb (p : ascii -> bool) (s : string) : bool :=
  match s with
  | EmptyString => true
  | String c r => p c && forallb p r
  end.

Fixpoint filter (p : ascii -> bool) (s : string) : string :=
  match s with
  | EmptyString => EmptyString
  | String c r => if p c then String c (filter p r) else filter p r
  end.

Definition is_empty (s : string) : bool :=
  match s with EmptyString => true | _ => false end.

(** [/^\d+$/.test(s)] *)
Definition digits_only (s : string) : bool :=
  negb (is_empty s) && forallb is_digit s.

(** [/^\d{2}$/.test(s)] *)
Definition two_digits (s : string) : bool :=
  match s with
  | String a (String b EmptyString) => is_digit a && is_digit b
  | _ => false
  end.

(** [s.startsWith(p)] *)
Definition startsWith (s p : string) : bool := String.prefix p s.

(** [s.substring(a, b)] for [a <= b]. *)
Definition substring (a b : nat) (s : string) : string :=
  String.substring a (b - a) s.

(** [s.slice(0, n)] *)
Definition take (n : nat) (s : string) : string := String.substring 0 n s.

Fixpoint replicate (n : nat) (c : ascii) : string :=
  match n with O => EmptyString | S k => String c (replicate k c) end.

(** [s.padStart(n, "0")] *)
Definition padStart0 (n : nat) (s : string) : string :=
  replicate (n - String.length s) "0"%char ++ s.

(** White space and line terminators, the characters that [trim] and
    [parseInt] skip, among the code units below 256: TAB, LF, VT, FF, CR,
    SP and NBSP. *)
Definition is_space (c : ascii) : bool :=
  let n := N_of_ascii c in
  ((9 <=? n) && (n <=? 13) || (n =? 32) || (n =? 160))%N.

Fixpoint trimStart (s : string) : string :=
  match s with
  | String c r => if is_space c then trimStart r else s
  | EmptyString => EmptyString
  end.

Definition trim (s : string) : string :=
  String.rev (trimStart (String.rev (trimStart s))).

(** The longest prefix of decimal digits, read as a number; [None] when
    there is no digit at all. *)
Fixpoint digits_prefix (acc : option Z) (s : string) : option Z :=
  match s with
  | String c r =>
      if is_digit c
      then digits_prefix (Some (10 * default 0 acc + digit_value c)) r
      else acc
  | EmptyString => acc
  end.

(** The integer that the numeral at the start of [s] denotes: leading
    white space is skipped, one sign is accepted, the digits that follow
    are read and the rest of the string is ignored.  [None] when no digit
    is read. *)
Definition read_int (s : string) : option Z :=
  match trimStart s with
  | String "-" r => Z.opp <$> digits_prefix None r
  | String "+" r => digits_prefix None r
  | t => digits_prefix None t
  end.

(** [parseInt(s, 10)]: the integer read, as a double.  [None] is [NaN]. *)
Definition parseInt (s : string) : option Z := Num.round <$> read_int s.

(** [/^\d/.test(s)] *)
Definition digit_first (s : string) : bool :=
  match s with String c _ => is_digit c | EmptyString => false end.


Definition hex_digit (n : N) : ascii :=
  match n with
  | 0 => "0" | 1 => "1" | 2 => "2" | 3 => "3" | 4 => "4" | 5 => "5"
  | 6 => "6" | 7 => "7" | 8 => "8" | 9 => "9" | 10 => "A" | 11 => "B"
  | 12 => "C" | 13 => "D" | 14 => "E" | _ => "F"
  end%N%char.

Definition is_alnum (c : ascii) : bool :=
  let n := N_of_ascii c in
  ((48 <=? n) && (n <=? 57) || (65 <=? n) && (n <=? 90)
   || (97 <=? n) && (n <=? 122))%N.

(** The [application/x-www-form-urlencoded] serialisation that
    [URLSearchParams] applies to names and values. *)
Fixpoint urlencode (s : string) : string :=
  match s with
  | EmptyString => EmptyString
  | String c r =>
      if is_alnum c || bool_decide (c ∈ ["*"; "-"; "."; "_"]%char)
      then String c (urlencode r)
      else if bool_decide (c = " "%char) then String "+" (urlencode r)
      else String "%" (String (hex_digit (N_of_ascii c / 16))
                        (String (hex_digit (N_of_ascii c mod 16))
                           (urlencode r)))
  end.

(** [new URLSearchParams({...}).toString()] *)
Fixpoint query (params : list (string * string)) : string :=
  match params with
  | [] => ""
  | [(k, v)] => urlencode k ++ "=" ++ urlencode v
  | (k, v) :: rest => urlencode k ++ "=" ++ urlencode v ++ "&" ++ query rest
  end.

End Str.

(** ** JavaScript values and errors *)

(** A parsed JSON document.  The fields of [JObj] are the own properties of
    the object in enumeration order, each key once.  [JNum n] is the number
    [n] for an integer [n] of magnitude at most [Num.MAX_SAFE_INTEGER],
    which JavaScript prints digit by digit; numbers with a fraction and
    larger numbers are outside the model. *)
Inductive json : Type :=
| JNull
| JBool (b : bool)
| JNum (n : Z)
| JStr (s : string)
| JArr (items : list json)
| JObj (fields : list (string * json)).

(** What a [throw] carries.  [Error] is [new Error(message)] of the
    program, [ApiError] its own subclass; the other three are raised by the
    runtime: a property read on [null] or a call of a non-function, a
    failed [JSON.parse], a rejected [fetch]. *)
Inductive exn : Type :=
| Error (message : string)
| ApiError (message : string)
| TypeError
| SyntaxError
| FetchRejected.

Inductive outcome (A : Type) : Type :=
| Returned (a : A)
| Threw (e : exn).
Arguments Returned {A} a.
Arguments Threw {A} e.

Module Js.

Definition bind {A B} (x : outcome A) (k : A -> outcome B) : outcome B :=
  match x with Returned a => k a | Threw e => Threw e end.

(** [Boolean(v)] *)
Definition truthy (v : option json) : bool :=
  match v with
  | None | Some JNull => false
  | Some (JBool b) => b
  | Some (JNum n) => negb (n =? 0)
  | Some (JStr s) => negb (Str.is_empty s)
  | Some (JArr _) | Some (JObj _) => true
  end.

(** [a || b] *)
Definition or (a b : option json) : option json :=
  if truthy a then a else b.

(** [v === "lit"] *)
Definition is_string (v : option json) (lit : string) : bool :=
  match v with Some (JStr s) => bool_decide (s = lit) | _ => false end.

(** [v === n] *)
Definition is_number (v : option json) (n : Z) : bool :=
  match v with Some (JNum m) => m =? n | _ => false end.

Fixpoint assoc (k : string) (fields : list (string * json)) : option json :=
  match fields with
  | [] => None
  | (k', v) :: rest => if bool_decide (k = k') then Some v else assoc k rest
  end.

(** [v.name] for a name that no prototype defines ([data], [result],
    [code], ...): a read on [null] throws, an object answers with its own
    property, every other value with [undefined]. *)
Definition get (v : json) (name : string) : outcome (option json) :=
  match v with
  | JNull => Threw TypeError
  | JObj fields => Returned (assoc name fields)
  | _ => Returned None
  end.

(** [v?.name] *)
Definition get_opt (v : option json) (name : string) : option json :=
  match v with
  | Some (JObj fields) => assoc name fields
  | _ => None
  end.

(** [v[i]] *)
Definition index (v : json) (i : nat) : outcome (option json) :=
  match v with
  | JNull => Threw TypeError
  | JArr items => Returned (items !! i)
  | JStr s => Returned ((fun c => JStr (String c "")) <$> String.get i s)
  | JObj fields => Returned (assoc (pretty i) fields)
  | _ => Returned None
  end.

(** [v?.[i]] *)
Definition index_opt (v : option json) (i : nat) : option json :=
  match v with
  | None | Some JNull => None
  | Some w => match index w i with Returned r => r | Threw _ => None end
  end.

(** [typeof v === 'object' && v !== null] *)
Definition is_object (v : option json) : bool :=
  match v with Some (JArr _) | Some (JObj _) => true | _ => false end.

(** [Array.isArray(v) ? v : Object.values(v)] for an object [v]. *)
Definition values (v : option json) : list json :=
  match v with
  | Some (JArr items) => items
  | Some (JObj fields) => snd <$> fields
  | _ => []
  end.

Definition join (parts : list string) : string :=
  match parts with
  | [] => ""
  | p :: rest => fold_left (fun acc q => acc ++ "," ++ q) rest p
  end.

(** [String(v)], [v.toString()] and the conversion inside a template
    literal.  An object read from JSON has a [toString] of its own only
    as a data property, which cannot be called: the conversion throws.
    An array joins its items, [null] items as empty strings. *)
Fixpoint to_string (v : json) : option string :=
  match v with
  | JNull => Some "null"
  | JBool true => Some "true"
  | JBool false => Some "false"
  | JNum n => Some (pretty n)
  | JStr s => Some s
  | JArr items =>
      join <$> (fix each (l : list json) : option (list string) :=
                  match l with
                  | [] => Some []
                  | x :: r =>
                      match (match x with JNull => Some "" | _ => to_string x end),
                            each r with
                      | Some s, Some ss => Some (s :: ss)
                      | _, _ => None
                      end
                  end) items
  | JObj fields =>
      match assoc "toString" fields with
      | Some _ => None
      | None => Some "[object Object]"
      end
  end.

Definition toString (v : json) : outcome string :=
  match to_string v with Some s => Returned s | None => Threw TypeError end.

(** [`${v}`] *)
Definition interpolate (v : option json) : outcome string :=
  match v with None => Returned "undefined" | Some w => toString w end.

End Js.

(** ** Data of the services *)

(** [interface NAICSCode] *)
Record NAICSCode : Type := mkNAICSCode {
  code : string;
  title : string;
  description : option string
}.

(** [interface ProcessedEmployerData].  The three text fields hold whatever
    truthy cell the census row had, else the string the code substitutes. *)
Inductive ProcessedEmployerData : Type := mkProcessed {
  industry : json;
  employees : Z;
  establishments : Z;
  payroll : Z;
  naicsCode : string;
  location : json;
  geoId : json;
  countyTotalEmployees : option Z;
  countyTotalEstablishments : option Z;
  countyTotalPayroll : option Z;
  subIndustries : option (list ProcessedEmployerData);
  isExpanded : option bool;
  isLoadingSubIndustries : option bool;
  level : option nat
}.

(** The object [{state, county, name}] of a resolved county.  A field holds
    the text that the value interpolates to: the three fields are only ever
    spliced into URLs and log lines. *)
Record County : Type := mkCounty {
  state : string;
  county : string;
  name : string
}.

(** [{employees, establishments, payroll}] of [fetchCountyTotals]. *)
Record Totals : Type := mkTotals {
  total_employees : Z;
  total_establishments : Z;
  total_payroll : Z
}.

(** ** The world: HTTP log and taxonomy cache *)

(** What [fetch(url)] settles to: a rejected promise, or a response with a
    status and a body; [None] is a body whose reading fails. *)
Inductive reply : Type :=
| Rejected
| Response (status : Z) (body : option string).

(** [response.ok] *)
Definition ok (status : Z) : bool := (200 <=? status) && (status <=? 299).

(** [requests] lists the URLs fetched so far, oldest first.  [cache] is the
    static [Map] of [NAICSApiService]. *)
Record World : Type := mkWorld {
  requests : list string;
  cache : gmap string (list NAICSCode)
}.

Definition initial : World := mkWorld [] ∅.

Definition js (A : Type) : Type := World -> outcome A * World.

Definition ret {A} (a : A) : js A := fun w => (Returned a, w).

Definition throw {A} (e : exn) : js A := fun w => (Threw e, w).

Definition bind {A B} (m : js A) (k : A -> js B) : js B :=
  fun w => match m w with
           | (Returned a, w') => k a w'
           | (Threw e, w') => (Threw e, w')
           end.

(** [try { m } catch (e) { h e }] *)
Definition try_catch {A} (m : js A) (h : exn -> js A) : js A :=
  fun w => match m w with
           | (Returned a, w') => (Returned a, w')
           | (Threw e, w') => h e w'
           end.

(** A synchronous step that may throw. *)
Definition lift {A} (x : outcome A) : js A := fun w => (x, w).

Declare Scope js_scope.
Delimit Scope js_scope with js.
Notation "x <- m ;; k" := (bind m (fun x => k))
  (at level 100, m at next level, right associativity) : js_scope.
Local Open Scope js_scope.

(** [cache.has(k)], [cache.get(k)], [cache.set(k, v)].  A lookup hands out
    the cached array itself; no caller writes to it. *)
Definition cache_get (k : string) : js (option (list NAICSCode)) :=
  fun w => (Returned (cache w !! k), w).

Definition cache_set (k : string) (v : list NAICSCode) : js unit :=
  fun w => (Returned tt, mkWorld (requests w) (<[k := v]> (cache w))).

(** ** Sorting and insertion-ordered maps *)

(** [Array.prototype.sort] is stable.  [le a b] says that the comparator
    does not put [b] before [a]. *)
Fixpoint insert_sorted {A} (le : A -> A -> bool) (x : A) (l : list A) : list A :=
  match l with
  | [] => [x]
  | y :: r => if le x y then x :: y :: r else y :: insert_sorted le x r
  end.

Definition stable_sort {A} (le : A -> A -> bool) (l : list A) : list A :=
  foldr (insert_sorted le) [] l.

(** [a.localeCompare(b) <= 0].  Every string that reaches this comparator
    is made of ASCII digits, which collation orders as code units do. *)
Definition localeCompare_le (a b : string) : bool := String.leb a b.

(** A [Map<string, string>] or a [Set<string>] with its insertion order. *)
Definition has {V} (k : string) (m : list (string * V)) : bool :=
  bool_decide (k ∈ m.*1).

(** [if (!m.has(k)) m.set(k, v)] *)
Definition set_if_absent {V} (k : string) (v : V) (m : list (string * V))
  : list (string * V) :=
  if has k m then m else m ++ [(k, v)].

(** [obj[k] = v] on a plain object used as a dictionary. *)
Fixpoint assign {V} (k : string) (v : V) (m : list (string * V))
  : list (string * V) :=
  match m with
  | [] => [(k, v)]
  | (k', v') :: r =>
      if bool_decide (k = k') then (k, v) :: r else (k', v') :: assign k v r
  end.

Fixpoint lookup_key {V} (k : string) (m : list (string * V)) : option V :=
  match m with
  | [] => None
  | (k', v) :: r => if bool_decide (k = k') then Some v else lookup_key k r
  end.

(** [for (const x of l) { acc = f acc x }] with synchronous steps.  The
    accumulator is an object mutated in place: when a step throws, what the
    earlier steps wrote stays, and the loop is left with the exception. *)
Fixpoint scan {A B} (f : A -> B -> outcome A) (l : list B) (acc : A)
  : A * option exn :=
  match l with
  | [] => (acc, None)
  | x :: r =>
      match f acc x with
      | Returned acc' => scan f r acc'
      | Threw e => (acc, Some e)
      end
  end.

(** The same loop with asynchronous steps that do not throw out of it. *)
Fixpoint for_each {A B} (f : A -> B -> js A) (l : list B) (acc : A) : js A :=
  match l with
  | [] => ret acc
  | x :: r => acc' <- f acc x ;; for_each f r acc'
  end.

(** [(v || '').toString().trim()] *)
Definition text_of (v : option json) : outcome string :=
  Js.bind (Js.toString (default (JStr "") (Js.or v (Some (JStr "")))))
          (fun s => Returned (Str.trim s)).

(** [t || `NAICS ${code}`] *)
Definition title_or_default (t code : string) : string :=
  if Str.is_empty t then "NAICS " ++ code else t.

Definition entry_to_code (e : string * string) : NAICSCode :=
  mkNAICSCode e.1 e.2 None.

(** [Array.from(codes.entries()).sort(([a], [b]) => a.localeCompare(b))
      .map(([code, title]) => ({ code, title }))] *)
Definition sorted_entries (codes : list (string * string)) : list NAICSCode :=
  entry_to_code <$> stable_sort (fun a b => localeCompare_le a.1 b.1) codes.

Section Services.

(** The servers: the reply to the [n]-th request (counted from 0) for a
    URL.  All requests of the program are GET requests. *)
Variable server : string -> nat -> reply.

(** [JSON.parse]; [None] when it throws. *)
Variable JSON_parse : string -> option json.

(** The [message] of an error raised by the runtime. *)
Variable engine_message : exn -> string.

(** The census key that [CensusApiService] is constructed with. *)
Variable apiKey : string.

Definition fetch (url : string) : js (Z * option string) :=
  fun w =>
    let w' := mkWorld (requests w ++ [url]) (cache w) in
    match server url (count_occ string_dec (requests w) url) with
    | Rejected => (Threw FetchRejected, w')
    | Response status body => (Returned (status, body), w')
    end.

(** [await response.text()] *)
Definition text (response : Z * option string) : js string :=
  match response.2 with
  | Some t => ret t
  | None => throw TypeError
  end.

Definition parse (t : string) : js json :=
  match JSON_parse t with
  | Some data => ret data
  | None => throw SyntaxError
  end.

(** [await response.json()] *)
Definition json_body (response : Z * option string) : js json :=
  t <- text response ;; parse t.

(** [error.message] *)
Definition message_of (e : exn) : string :=
  match e with
  | Error m | ApiError m => m
  | _ => engine_message e
  end.

(** *** [NAICSApiService] *)

Definition BASE_URL : string :=
  "https://www.census.gov/naics/resources/model/dataHandler.php".

Definition getFallbackNAICSCodes : list NAICSCode :=
  (fun e : string * string => mkNAICSCode e.1 e.2 None) <$>
  [ ("11", "Agriculture, Forestry, Fishing and Hunting");
    ("21", "Mining, Quarrying, and Oil and Gas Extraction");
    ("22", "Utilities");
    ("23", "Construction");
    ("31", "Manufacturing");
    ("32", "Manufacturing");
    ("33", "Manufacturing");
    ("42", "Wholesale Trade");
    ("44", "Retail Trade");
    ("45", "Retail Trade");
    ("48", "Transportation and Warehousing");
    ("49", "Transportation and Warehousing");
    ("51", "Information");
    ("52", "Finance and Insurance");
    ("53", "Real Estate and Rental and Leasing");
    ("54", "Professional, Scientific, and Technical Services");
    ("55", "Management of Companies and Enterprises");
    ("56", "Administrative and Support and Waste Management");
    ("61", "Educational Services");
    ("62", "Health Care and Social Assistance");
    ("71", "Arts, Entertainment, and Recreation");
    ("72", "Accommodation and Food Services");
    ("81", "Other Services (except Public Administration)");
    ("92", "Public Administration");
    ("621", "Ambulatory Health Care Services");
    ("622", "Hospitals");
    ("623", "Nursing and Residential Care Facilities");
    ("624", "Social Assistance");
    ("611", "Educational Services");
    ("541", "Professional, Scientific, and Technical Services");
    ("722", "Food Services and Drinking Places");
    ("721", "Accommodation");
    ("236", "Construction of Buildings");
    ("237", "Heavy and Civil Engineering Construction");
    ("238", "Specialty Trade Contractors");
    ("441", "Motor Vehicle and Parts Dealers");
    ("445", "Food and Beverage Stores");
    ("452", "General Merchandise Stores");
    ("561", "Administrative and Support Services");
    ("562", "Waste Management and Remediation Services");
    ("311", "Food Manufacturing");
    ("332", "Fabricated Metal Product Manufacturing");
    ("333", "Machinery Manufacturing");
    ("334", "Computer and Electronic Product Manufacturing");
    ("484", "Truck Transportation");
    ("493", "Warehousing and Storage");
    ("522", "Credit Intermediation and Related Activities") ].

(** [getFallbackChildCodes]: no static children. *)
Definition getFallbackChildCodes (parentCode : string) : list NAICSCode := [].

(** The body of the [for (const item of iterItems)] loop of
    [tryChartMethod]: [codes] is the [Set], [titles] the dictionary. *)
Definition chart_item (acc : list string * list (string * string)) (item : json)
  : outcome (list string * list (string * string)) :=
  if Js.is_object (Some item) then
    Js.bind (text_of (Js.or (Js.get_opt (Some item) "code")
                            (Js.get_opt (Some item) "naics22")))
      (fun code =>
    Js.bind (text_of (Js.or (Js.get_opt (Some item) "title")
                            (Js.get_opt (Some item) "index_desc")))
      (fun title =>
    if Str.two_digits code then
      Returned (if bool_decide (code ∈@{list string} acc.1)
                then acc.1 else (acc.1 ++ [code])%list,
                if Str.is_empty title then acc.2 else assign code title acc.2)
    else Returned acc))
  else Returned acc.

Definition tryChartMethod (year : string) : js (list NAICSCode) :=
  try_catch
    (response <- fetch (BASE_URL ++ "?" ++
                   Str.query [("search", year); ("input", ""); ("chart", "chart")]) ;;
     if negb (ok response.1) then throw (Error ("HTTP " ++ pretty response.1))
     else
       data <- json_body response ;;
       result <- lift (Js.get data "result") ;;
       let iterItems := if Js.is_object result then Js.values result else [] in
       match scan chart_item iterItems ([], []) with
       | (_, Some e) => throw e
       | ((codes, titles), None) =>
           ret ((fun c => mkNAICSCode c
                   (title_or_default (default "" (lookup_key c titles)) c) None)
                <$> stable_sort String.leb codes)
       end)
    (fun _ => ret []).

(** The body of the [for (const rec of records)] loop of
    [sweepSearchMethod]. *)
Definition sweep_record (codes : list (string * string)) (rec : json)
  : outcome (list (string * string)) :=
  if Js.is_object (Some rec) then
    Js.bind (text_of (Js.get_opt (Some rec) "naics22")) (fun code =>
    Js.bind (text_of (Js.or (Js.get_opt (Some rec) "title")
                            (Js.get_opt (Some rec) "index_desc")))
      (fun title =>
    if Str.two_digits code
    then Returned (set_if_absent code (title_or_default title code) codes)
    else Returned codes))
  else Returned codes.

(** [const result = data.result || {}] and the records read from it. *)
Definition records_of (data : json) : outcome (list json) :=
  Js.bind (Js.get data "result") (fun r =>
    let result := Js.or r (Some (JObj [])) in
    Returned (if Js.is_object result then Js.values result else [])).

(** One round of the [for (const seed of seeds)] loop.  Whatever is thrown
    inside the round is caught and the loop goes on with the map as the
    round left it. *)
Definition sweep_seed (year : string) (codes : list (string * string))
  (seed : string) : js (list (string * string)) :=
  try_catch
    (response <- fetch (BASE_URL ++ "?" ++
                   Str.query [("search", year); ("input", seed)]) ;;
     if negb (ok response.1) then ret codes
     else
       data <- json_body response ;;
       records <- lift (records_of data) ;;
       ret (scan sweep_record records codes).1)
    (fun _ => ret codes).

Definition seeds : list string :=
  (fun c => String c "") <$>
  list_ascii_of_string "0123456789abcdefghijklmnopqrstuvwxyz".

Definition sweepSearchMethod (year : string) : js (list NAICSCode) :=
  codes <- for_each (sweep_seed year) seeds [] ;;
  ret (sorted_entries codes).

Definition fetchNAICSCodes (year : string) : js (list NAICSCode) :=
  let cacheKey := "all-" ++ year in
  cached <- cache_get cacheKey ;;
  match cached with
  | Some codes => ret codes
  | None =>
      try_catch
        (codes <- tryChartMethod year ;;
         codes <- (if bool_decide (length codes = 0%nat)
                   then sweepSearchMethod year else ret codes) ;;
         let codes := if bool_decide (length codes = 0%nat)
                      then getFallbackNAICSCodes else codes in
         _ <- cache_set cacheKey codes ;;
         ret codes)
        (fun _ =>
           _ <- cache_set cacheKey getFallbackNAICSCodes ;;
           ret getFallbackNAICSCodes)
  end.

(** The direct-child test of [searchChildCodes]. *)
Definition is_child_code (parentCode code : string) : bool :=
  bool_decide (String.length code = (String.length parentCode + 1)%nat)
  && Str.startsWith code parentCode
  && Str.digits_only code.

(** The body of the [for (const rec of records)] loop of
    [searchChildCodes]. *)
Definition child_record (parentCode : string) (codes : list (string * string))
  (rec : json) : outcome (list (string * string)) :=
  if Js.is_object (Some rec) then
    Js.bind (text_of (Js.or (Js.get_opt (Some rec) "naics22")
                            (Js.get_opt (Some rec) "code")))
      (fun code =>
    Js.bind (text_of (Js.or (Js.or (Js.get_opt (Some rec) "title")
                                   (Js.get_opt (Some rec) "index_desc"))
                            (Js.get_opt (Some rec) "description")))
      (fun title =>
    if is_child_code parentCode code
    then Returned (set_if_absent code (title_or_default title code) codes)
    else Returned codes))
  else Returned codes.

Definition searchStrategies (parentCode : string) : list string :=
  [ parentCode;
    parentCode ++ "*";
    parentCode ++ "0";
    parentCode ++ "1";
    Str.substring 0 2 parentCode ].

(** One round of the [for (const searchTerm of searchStrategies)] loop.
    The flag is [true] when the round ends in [break]; every other way out
    of the round ([continue], a caught exception) leaves it [false].  The
    map keeps what the round wrote before an exception. *)
Definition search_term (parentCode : string) (codes : list (string * string))
  (searchTerm : string) : js (list (string * string) * bool) :=
  try_catch
    (response <- fetch ("/census-naics-api/naics/resources/model/dataHandler.php?"
                        ++ Str.query [("search", "2022"); ("input", searchTerm)]) ;;
     if negb (ok response.1) then ret (codes, false)
     else
       responseText <- text response ;;
       match JSON_parse responseText with
       | None => ret (codes, false)
       | Some data =>
           records <- lift (records_of data) ;;
           match scan (child_record parentCode) records codes with
           | (codes', Some _) => ret (codes', false)
           | (codes', None) => ret (codes', bool_decide (0 < length codes')%nat)
           end
       end)
    (fun _ => ret (codes, false)).

Fixpoint search_terms (parentCode : string) (codes : list (string * string))
  (terms : list string) : js (list (string * string)) :=
  match terms with
  | [] => ret codes
  | searchTerm :: rest =>
      round <- search_term parentCode codes searchTerm ;;
      if round.2 then ret round.1 else search_terms parentCode round.1 rest
  end.

Definition searchChildCodes (parentCode : string) : js (list NAICSCode) :=
  codes <- search_terms parentCode [] (searchStrategies parentCode) ;;
  if bool_decide (length codes = 0%nat) then ret []
  else ret (sorted_entries codes).

Definition getChildCodes (parentCode : string) : js (list NAICSCode) :=
  let cacheKey := "children-" ++ parentCode in
  cached <- cache_get cacheKey ;;
  match cached with
  | Some children => ret children
  | None =>
      try_catch
        (children <- searchChildCodes parentCode ;;
         _ <- cache_set cacheKey children ;;
         ret children)
        (fun _ => ret (getFallbackChildCodes parentCode))
  end.

(** [getCodeDescription]; the default year of [fetchNAICSCodes] is 2022. *)
Definition getCodeDescription (c : string) : js string :=
  try_catch
    (allCodes <- fetchNAICSCodes "2022" ;;
     match List.find (fun d => bool_decide (code d = c)) allCodes with
     | Some found => ret (title found)
     | None => ret ("NAICS " ++ c)
     end)
    (fun _ => ret ("NAICS " ++ c)).

Definition getFallback2DigitCodes : list (string * string) :=
  [ ("11", "Agriculture, Forestry, Fishing and Hunting");
    ("21", "Mining, Quarrying, and Oil and Gas Extraction");
    ("22", "Utilities");
    ("23", "Construction");
    ("31", "Manufacturing");
    ("32", "Manufacturing");
    ("33", "Manufacturing");
    ("42", "Wholesale Trade");
    ("44", "Retail Trade");
    ("45", "Retail Trade");
    ("48", "Transportation and Warehousing");
    ("49", "Transportation and Warehousing");
    ("51", "Information");
    ("52", "Finance and Insurance");
    ("53", "Real Estate and Rental and Leasing");
    ("54", "Professional, Scientific, and Technical Services");
    ("55", "Management of Companies and Enterprises");
    ("56", "Administrative and Support and Waste Management");
    ("61", "Educational Services");
    ("62", "Health Care and Social Assistance");
    ("71", "Arts, Entertainment, and Recreation");
    ("72", "Accommodation and Food Services");
    ("81", "Other Services (except Public Administration)");
    ("92", "Public Administration") ].

(** [get2DigitCodes]: the dictionary built by [reduce]. *)
Definition get2DigitCodes : js (list (string * string)) :=
  try_catch
    (allCodes <- fetchNAICSCodes "2022" ;;
     ret (fold_left (fun acc d => assign (code d) (title d) acc)
            (List.filter (fun d => bool_decide (String.length (code d) = 2%nat))
               allCodes) []))
    (fun _ => ret getFallback2DigitCodes).

(** *** [CensusApiService] *)

Definition CBP_URL : string := "https://api.census.gov/data/2022/cbp".

Definition naicsCodes : list string :=
  [ "11"; "21"; "22"; "23"; "31"; "32"; "33"; "42"; "44"; "45"; "48"; "49";
    "51"; "52"; "53"; "54"; "55"; "56"; "61"; "62"; "71"; "72"; "81"; "92" ].

(** The guard shared by [parseEmployeeCount] and [parsePayroll]. *)
Definition no_figure (value : option json) : bool :=
  negb (Js.truthy value) || Js.is_string value "null" || Js.is_string value "N"
  || Js.is_string value "D" || Js.is_string value "S".

(** [parseInt(value, 10)] on any value: the value is converted to a string
    first. *)
Definition parseInt10 (value : option json) : outcome (option Z) :=
  Js.bind (Js.interpolate value) (fun s => Returned (Str.parseInt s)).

Definition parseEmployeeCount (value : option json) : outcome Z :=
  if no_figure value then Returned 0
  else Js.bind (parseInt10 value) (fun num =>
         Returned (match num with None => 0 | Some n => n end)).

Definition parsePayroll (value : option json) : outcome Z :=
  if no_figure value then Returned 0
  else Js.bind (parseInt10 value) (fun num =>
         Returned (match num with None => 0 | Some n => Num.round (n * 1000) end)).

Definition zero_totals : Totals := mkTotals 0 0 0.

Definition fetchCountyTotals (state county originalZip : string) : js Totals :=
  let url := CBP_URL ++ "?get=NAME,EMP,ESTAB,PAYANN&for=county:" ++ county
             ++ "&in=state:" ++ state ++ "&NAICS2017=00&key=" ++ apiKey in
  try_catch
    (response <- fetch url ;;
     if negb (ok response.1) then ret zero_totals
     else
       responseText <- text response ;;
       if Str.is_empty (Str.trim responseText) then ret zero_totals
       else
         data <- parse responseText ;;
         match data with
         | JArr (header :: row :: _) =>
             lift (Js.bind (Js.index row 1) (fun emp =>
                   Js.bind (parseEmployeeCount emp) (fun e =>
                   Js.bind (Js.index row 2) (fun estab =>
                   Js.bind (parseEmployeeCount estab) (fun s =>
                   Js.bind (Js.index row 3) (fun payann =>
                   Js.bind (parsePayroll payann) (fun p =>
                   Returned (mkTotals e s p))))))))
         | _ => ret zero_totals
         end)
    (fun _ => ret zero_totals).

Definition has_figure (e s p : Z) : bool := (0 <? e) || (0 <? s) || (0 <? p).

(** The body of the [for (let i = 1; ...)] loop of
    [fetchCountySectorData]. *)
Definition sector_row (naicsCode : string) (results : list ProcessedEmployerData)
  (row : json) : outcome (list ProcessedEmployerData) :=
  Js.bind (Js.index row 2) (fun emp =>
  Js.bind (parseEmployeeCount emp) (fun employees =>
  Js.bind (Js.index row 3) (fun estab =>
  Js.bind (parseEmployeeCount estab) (fun establishments =>
  Js.bind (Js.index row 4) (fun payann =>
  Js.bind (parsePayroll payann) (fun payroll =>
  if has_figure employees establishments payroll then
    Js.bind (Js.index row 1) (fun label =>
    Js.bind (Js.index row 0) (fun name =>
    Js.bind (Js.index row 5) (fun geo =>
    Returned (results ++
      [ mkProcessed
          (default (JStr ("NAICS " ++ naicsCode))
                   (Js.or label (Some (JStr ("NAICS " ++ naicsCode)))))
          employees establishments payroll naicsCode
          (default (JStr "Unknown Location")
                   (Js.or name (Some (JStr "Unknown Location"))))
          (default (JStr "") (Js.or geo (Some (JStr ""))))
          None None None None None None
          (Some (String.length naicsCode)) ])%list)))
  else Returned results)))))).

Definition fetchCountySectorData (state county naicsCode originalZip : string)
  : js (list ProcessedEmployerData) :=
  let url := CBP_URL ++ "?get=NAME,NAICS2017_LABEL,EMP,ESTAB,PAYANN,GEO_ID&for=county:"
             ++ county ++ "&in=state:" ++ state ++ "&NAICS2017=" ++ naicsCode
             ++ "&key=" ++ apiKey in
  try_catch
    (response <- fetch url ;;
     if negb (ok response.1) then ret []
     else
       responseText <- text response ;;
       if Str.is_empty (Str.trim responseText) then ret []
       else
         data <- parse responseText ;;
         match data with
         | JArr (header :: row :: rows) =>
             match scan (sector_row naicsCode) (row :: rows) [] with
             | (_, Some e) => throw e
             | (results, None) => ret results
             end
         | _ => ret []
         end)
    (fun _ => ret []).

(** [item => item.employees > 0 || item.establishments > 0 || item.payroll > 0] *)
Definition has_data (item : ProcessedEmployerData) : bool :=
  has_figure (employees item) (establishments item) (payroll item).

(** [(a, b) => b.employees - a.employees] is not positive. *)
Definition by_employees (a b : ProcessedEmployerData) : bool :=
  employees b <=? employees a.

(** [results.filter(...).sort(...)] *)
Definition rank (results : list ProcessedEmployerData) : list ProcessedEmployerData :=
  stable_sort by_employees (List.filter has_data results).

Definition fetchEmploymentByCounty (state county originalZip : string)
  : js (list ProcessedEmployerData) :=
  results <-
    for_each
      (fun results naicsCode =>
         try_catch
           (sectorData <- fetchCountySectorData state county naicsCode originalZip ;;
            ret (results ++ sectorData)%list)
           (fun _ => ret results))
      naicsCodes [] ;;
  ret (rank results).

(** [{...item, level}] *)
Definition with_level (l : nat) (item : ProcessedEmployerData)
  : ProcessedEmployerData :=
  mkProcessed (industry item) (employees item) (establishments item)
    (payroll item) (naicsCode item) (location item) (geoId item)
    (countyTotalEmployees item) (countyTotalEstablishments item)
    (countyTotalPayroll item) (subIndustries item) (isExpanded item)
    (isLoadingSubIndustries item) (Some l).

Definition fetchSubIndustries (state county parentNaicsCode originalZip : string)
  : js (list ProcessedEmployerData) :=
  try_catch
    (childCodes <- getChildCodes parentNaicsCode ;;
     if bool_decide (length childCodes = 0%nat) then ret []
     else
       results <-
         for_each
           (fun results childCode =>
              try_catch
                (childData <- fetchCountySectorData state county
                                (code childCode) originalZip ;;
                 ret (results ++
                      (with_level (String.length (code childCode)) <$> childData))%list)
                (fun _ => ret results))
           childCodes [] ;;
       ret (rank results))
    (fun _ => ret []).

(** [v.length] of a truthy value read from JSON. *)
Definition length_of (v : option json) : option json :=
  match v with
  | Some (JStr s) => Some (JNum (Z.of_nat (String.length s)))
  | Some (JArr items) => Some (JNum (Z.of_nat (length items)))
  | Some (JObj fields) => Js.assoc "length" fields
  | _ => None
  end.

(** [countyFromZip_viaHUD]; the request carries a fixed bearer token. *)
Definition countyFromZip_viaHUD (zip : string) : js County :=
  let z := Str.take 5 (Str.padStart0 5 (Str.filter Str.is_digit zip)) in
  hudRes <- fetch ("https://www.huduser.gov/hudapi/public/usps?type=2&query=" ++ z) ;;
  hudTxt <- text hudRes ;;
  if negb (ok hudRes.1)
  then throw (Error ("HUD API query failed: " ++ pretty hudRes.1 ++ " "
                     ++ Str.take 200 hudTxt))
  else
    hudData <- parse hudTxt ;;
    let hudResult :=
      Js.index_opt (Js.get_opt (Js.get_opt (Some hudData) "data") "results") 0 in
    if negb (Js.truthy hudResult) then
      (* [Object.keys(hudData)] in the log line throws on [null] *)
      match hudData with
      | JNull => throw TypeError
      | _ => throw (Error ("ZIP code " ++ z ++ " not found in HUD database."))
      end
    else
      let geoid := Js.get_opt hudResult "geoid" in
      let countyName := Js.get_opt hudResult "county_name" in
      let stateName := Js.get_opt hudResult "state_name" in
      if negb (Js.truthy geoid)
         || negb (Js.is_number (length_of geoid) 5)
      then throw (Error ("Could not determine county FIPS codes for ZIP " ++ z))
      else
        match geoid with
        | Some (JStr g) =>
            c <- lift (Js.interpolate countyName) ;;
            s <- lift (Js.interpolate stateName) ;;
            ret (mkCounty (Str.substring 0 2 g) (Str.substring 2 5 g)
                          (c ++ ", " ++ s))
        | _ => throw TypeError  (* [geoid.substring] is not a function *)
        end.

(** The names that every plain object inherits from [Object.prototype]. *)
Definition inherited_names : list string :=
  [ "constructor"; "__defineGetter__"; "__defineSetter__"; "hasOwnProperty";
    "__lookupGetter__"; "__lookupSetter__"; "isPrototypeOf";
    "propertyIsEnumerable"; "toString"; "valueOf"; "__proto__";
    "toLocaleString" ].

(** What [table[key] || fallback] finds when [key] is no own property of
    the literal [table] but an inherited name: a function, or
    [Object.prototype] itself.  It is truthy, it has no [state] and no
    [county], and its [name] is that of the function. *)
Definition inherited_member (key : string) : County :=
  mkCounty "undefined" "undefined"
    (if bool_decide (key = "constructor") then "Object"
     else if bool_decide (key = "__proto__") then "undefined"
     else key).

Definition zipToCounty : list (string * County) :=
  [ ("02459", mkCounty "25" "017" "Middlesex County, MA");
    ("02138", mkCounty "25" "017" "Middlesex County, MA");
    ("02115", mkCounty "25" "025" "Suffolk County, MA");
    ("02101", mkCounty "25" "025" "Suffolk County, MA");
    ("02116", mkCounty "25" "025" "Suffolk County, MA");
    ("02134", mkCounty "25" "025" "Suffolk County, MA");
    ("10001", mkCounty "36" "061" "New York County, NY");
    ("10002", mkCounty "36" "061" "New York County, NY");
    ("10003", mkCounty "36" "061" "New York County, NY");
    ("11201", mkCounty "36" "047" "Kings County, NY");
    ("90210", mkCounty "06" "037" "Los Angeles County, CA");
    ("90211", mkCounty "06" "037" "Los Angeles County, CA");
    ("94102", mkCounty "06" "075" "San Francisco County, CA");
    ("94103", mkCounty "06" "075" "San Francisco County, CA");
    ("60601", mkCounty "17" "031" "Cook County, IL");
    ("60602", mkCounty "17" "031" "Cook County, IL");
    ("60603", mkCounty "17" "031" "Cook County, IL");
    ("77001", mkCounty "48" "201" "Harris County, TX");
    ("75201", mkCounty "48" "113" "Dallas County, TX");
    ("33101", mkCounty "12" "086" "Miami-Dade County, FL");
    ("33102", mkCounty "12" "086" "Miami-Dade County, FL");
    ("98101", mkCounty "53" "033" "King County, WA");
    ("98102", mkCounty "53" "033" "King County, WA");
    ("20810", mkCounty "24" "031" "Montgomery County, MD") ].

(** [table[key]] on an object literal whose values are all objects;
    [inherited] says what an inherited member looks like to the reader. *)
Definition member {V} (inherited : string -> V) (table : list (string * V))
  (key : string) : option V :=
  match lookup_key key table with
  | Some v => Some v
  | None =>
      if bool_decide (key ∈ inherited_names)
      then Some (inherited key) else None
  end.

(** [zipToCounty[zipCode] || null] *)
Definition getCountyFallback (zipCode : string) : option County :=
  member inherited_member zipToCounty zipCode.

Definition getCountyFromZip (zipCode : string) : js (option County) :=
  try_catch
    (c <- countyFromZip_viaHUD zipCode ;; ret (Some c))
    (fun _ => ret (getCountyFallback zipCode)).

(** [{...sector, countyTotalEmployees, countyTotalEstablishments,
      countyTotalPayroll}] *)
Definition with_totals (t : Totals) (sector : ProcessedEmployerData)
  : ProcessedEmployerData :=
  mkProcessed (industry sector) (employees sector) (establishments sector)
    (payroll sector) (naicsCode sector) (location sector) (geoId sector)
    (Some (total_employees t)) (Some (total_establishments t))
    (Some (total_payroll t)) (subIndustries sector) (isExpanded sector)
    (isLoadingSubIndustries sector) (level sector).

(** [fetchEmploymentDataForZip].  The two promises given to [Promise.all]
    fetch different URLs and share no variable, so that the order in which
    their requests interleave does not show in their results; they run here
    in the order of the array. *)
Definition fetchEmploymentDataForZip (zipCode : string)
  : js (list ProcessedEmployerData) :=
  try_catch
    (found <- getCountyFromZip zipCode ;;
     match found with
     | None => throw (Error ("Could not find county for ZIP code " ++ zipCode))
     | Some c =>
         sectorData <- fetchEmploymentByCounty (state c) (county c) zipCode ;;
         countyTotals <- fetchCountyTotals (state c) (county c) zipCode ;;
         ret (with_totals countyTotals <$> sectorData)
     end)
    (fun error =>
       throw (ApiError ("Failed to fetch employment data: " ++ message_of error))).

(** *** The view: which county a drill-down asks for *)

Definition zipToStateCounty : list (string * (string * string)) :=
  [ ("02459", ("25", "017"));
    ("10001", ("36", "061"));
    ("90210", ("06", "037"));
    ("60601", ("17", "031")) ].

(** [getStateCountyFromLocation] of [EmployerResults], a closure over the
    [zipCode] property; its own argument is not read.
    [zipToStateCounty[zipCode] || { state: '25', county: '017' }], of which
    the caller takes [state] and [county]: both are [undefined] on an
    inherited member. *)
Definition getStateCountyFromLocation (zipCode : string) (location : json)
  : string * string :=
  match member (fun _ => ("undefined", "undefined")) zipToStateCounty zipCode with
  | Some sc => sc
  | None => ("25", "017")
  end.

(** The expand button of a row: [onExpandIndustry(employer.naicsCode, state,
    county)] with the pair computed by the view.  [handleExpandIndustry] of
    [App], for an industry that is not expanded yet, hands the pair to
    [fetchSubIndustries] together with [currentZip], the ZIP of the last
    search, which is also the [zipCode] property of the view.  The updates
    of the view state around the call are left out. *)
Definition handleExpandIndustry (currentZip : string)
  (naicsCode state county : string) : js (list ProcessedEmployerData) :=
  fetchSubIndustries state county naicsCode currentZip.

Definition expand (currentZip : string) (firstLocation : json) (naicsCode : string)
  : js (list ProcessedEmployerData) :=
  let sc := getStateCountyFromLocation currentZip firstLocation in
  handleExpandIndustry currentZip naicsCode sc.1 sc.2.

(** ** The vocabulary of the properties *)

(** [m] never throws. *)
Definition total {A} (m : js A) : Prop :=
  forall w, exists a w', m w = (Returned a, w').

(** Every run of [m] moves the world along [R]. *)
Definition moves {A} (R : World -> World -> Prop) (m : js A) : Prop :=
  forall w, R w (m w).2.



(** The request of [fetchCountySectorData]. *)
Definition sector_url (state county naicsCode : string) : string :=
  CBP_URL ++ "?get=NAME,NAICS2017_LABEL,EMP,ESTAB,PAYANN,GEO_ID&for=county:"
  ++ county ++ "&in=state:" ++ state ++ "&NAICS2017=" ++ naicsCode
  ++ "&key=" ++ apiKey.

(** The request of [fetchCountyTotals]. *)
Definition totals_url (state county : string) : string :=
  CBP_URL ++ "?get=NAME,EMP,ESTAB,PAYANN&for=county:" ++ county
  ++ "&in=state:" ++ state ++ "&NAICS2017=00&key=" ++ apiKey.

(** A failed reply: the request is rejected, the status is not a success,
    the body cannot be read or is not JSON. *)
Definition failed (r : reply) : Prop :=
  match r with
  | Rejected => True
  | Response status body =>
      ok status = false
      \/ match body with
         | None => True
         | Some t => JSON_parse t = None
         end
  end.

(** A reply with an empty body.  (For the [JSON.parse] of the runtime an
    empty body is not JSON either.) *)
Definition blank (r : reply) : Prop :=
  match r with
  | Response status (Some t) => Str.trim t = ""
  | _ => False
  end.

(** The reply that the next request for [url] gets in world [w]. *)
Definition next_reply (url : string) (w : World) : reply :=
  server url (count_occ string_dec (requests w) url).

Definition sent (url : string) (w : World) : World :=
  mkWorld (requests w ++ [url]) (cache w).

Definition sent_all (urls : list string) (w : World) : World :=
  mkWorld (requests w ++ urls) (cache w).

(** Reading [row] in the loop of [fetchCountySectorData] throws nothing. *)
Definition row_is_read (naicsCode : string) (row : json) : Prop :=
  exists results, sector_row naicsCode [] row = Returned results.

(** What the fan-out over [codes] collects, sector after sector, each
    request being sent in the world that the earlier ones left. *)
Fixpoint sector_data (st co zip : string) (codes : list string) (w : World)
  : list ProcessedEmployerData :=
  match codes with
  | [] => []
  | nc :: rest =>
      match (fetchCountySectorData st co nc zip w).1 with
      | Returned l => l
      | Threw _ => []
      end ++ sector_data st co zip rest (sent (sector_url st co nc) w)
  end.

(** What the drill-down over [children] collects, child after child, each
    item with the length of the child code as its level. *)
Fixpoint child_data (st co zip : string) (children : list NAICSCode) (w : World)
  : list ProcessedEmployerData :=
  match children with
  | [] => []
  | c :: rest =>
      (with_level (String.length (code c)) <$>
         match (fetchCountySectorData st co (code c) zip w).1 with
         | Returned l => l
         | Threw _ => []
         end)
      ++ child_data st co zip rest (sent (sector_url st co (code c)) w)
  end.

(** The cache is the same before and after. *)
Definition same_cache (w w' : World) : Prop := cache w' = cache w.

(** [c] is a direct child of [parent]: one character longer, starting with
    [parent], made of digits only. *)
Definition direct_child (parent c : string) : Prop :=
  String.length c = (String.length parent + 1)%nat
  /\ String.prefix parent c = true
  /\ Str.forallb Str.is_digit c = true.

(** What C5 asks of a list of children. *)
Definition children_ok (parent : string) (l : list NAICSCode) : Prop :=
  Forall (fun c => direct_child parent (code c)) l
  /\ NoDup (code <$> l)
  /\ StronglySorted (fun a b => String.leb a b = true) (code <$> l).

(** The invariant of the [Map] that [searchChildCodes] fills. *)
Definition map_ok (parent : string) (codes : list (string * string)) : Prop :=
  NoDup codes.*1 /\ Forall (fun e => direct_child parent e.1) codes.

(** The request of one search strategy. *)
Definition search_url (term : string) : string :=
  "/census-naics-api/naics/resources/model/dataHandler.php?"
  ++ Str.query [("search", "2022"); ("input", term)].

(** The list that [fetchNAICSCodes] settles on after a cache miss. *)
Definition first_nonempty (chart sweep : list NAICSCode) : list NAICSCode :=
  match chart, sweep with
  | _ :: _, _ => chart
  | [], _ :: _ => sweep
  | [], [] => getFallbackNAICSCodes
  end.

(** Every entry of the cache is one that the lookups could have stored:
    children of the parent in its key, or a non-empty list of all codes. *)
Definition cache_ok (w : World) : Prop :=
  (forall parent l, cache w !! ("children-" ++ parent) = Some l ->
                    children_ok parent l)
  /\ (forall year l, cache w !! ("all-" ++ year) = Some l -> l <> []).

(** The cache keeps its entries, and stays well-formed if it was. *)
Definition grows (w w' : World) : Prop :=
  cache w ⊆ cache w' /\ (cache_ok w -> cache_ok w').

(** An item of a drill-down under the children [children]. *)
Definition from_children (children : list NAICSCode) (item : ProcessedEmployerData)
  : Prop :=
  exists c, c ∈ children /\ naicsCode item = code c
            /\ level item = Some (String.length (code c)).

(** [result] is [sector] with the three county totals of [t] added and
    nothing else changed. *)
Definition carries_totals (t : Totals) (sector result : ProcessedEmployerData)
  : Prop :=
  industry result = industry sector
  /\ employees result = employees sector
  /\ establishments result = establishments sector
  /\ payroll result = payroll sector
  /\ naicsCode result = naicsCode sector
  /\ location result = location sector
  /\ geoId result = geoId sector
  /\ subIndustries result = subIndustries sector
  /\ isExpanded result = isExpanded sector
  /\ isLoadingSubIndustries result = isLoadingSubIndustries sector
  /\ level result = level sector
  /\ countyTotalEmployees result = Some (total_employees t)
  /\ countyTotalEstablishments result = Some (total_establishments t)
  /\ countyTotalPayroll result = Some (total_payroll t).

(** A call of one of the public methods of the two services. *)
Inductive call : Type :=
| FetchEmploymentDataForZip (zipCode : string)
| FetchSubIndustries (state county parentNaicsCode originalZip : string)
| GetChildCodes (parentCode : string)
| FetchNAICSCodes (year : string)
| Get2DigitCodes
| GetCodeDescription (c : string).

(** The world that a call leaves. *)
Definition after (w : World) (c : call) : World :=
  match c with
  | FetchEmploymentDataForZip zip =>
      (fetchEmploymentDataForZip zip w).2
  | FetchSubIndustries st co parent zip =>
      (fetchSubIndustries st co parent zip w).2
  | GetChildCodes parent => (getChildCodes parent w).2
  | FetchNAICSCodes year => (fetchNAICSCodes year w).2
  | Get2DigitCodes => (get2DigitCodes w).2
  | GetCodeDescription c => (getCodeDescription c w).2
  end.

(** The world after a sequence of calls, each run to its end before the
    next one starts. *)
Definition history (w : World) (calls : list call) : World :=
  foldl after w calls.

(** A world that the program can be in: the page starts with no request
    sent and an empty cache, and only calls change the world. *)
Definition reachable (w : World) : Prop :=
  exists calls : list call, w = history initial calls.

End Services.

(** ** Requests and lists that the properties name *)

(** The ZIP code that [countyFromZip_viaHUD] asks the HUD service for. *)
Definition hud_zip (zip : string) : string :=
  Str.take 5 (Str.padStart0 5 (Str.filter Str.is_digit zip)).

(** The request of [countyFromZip_viaHUD]. *)
Definition hud_url (zip : string) : string :=
  "https://www.huduser.gov/hudapi/public/usps?type=2&query=" ++ hud_zip zip.

(** The request of [tryChartMethod]. *)
Definition chart_url (year : string) : string :=
  BASE_URL ++ "?" ++ Str.query [("search", year); ("input", ""); ("chart", "chart")].

(** The request of [sweepSearchMethod] for one seed. *)
Definition sweep_url (year seed : string) : string :=
  BASE_URL ++ "?" ++ Str.query [("search", year); ("input", seed)].

(** A list of sector codes as the two methods of [fetchNAICSCodes] build
    it: codes of two digits, each once, in ascending order, each with a
    title that is not empty. *)
Definition sector_list (l : list NAICSCode) : Prop :=
  Forall (fun c => Str.two_digits (code c) = true /\ title c <> "") l
  /\ NoDup (code <$> l)
  /\ StronglySorted (fun a b => String.leb a b = true) (code <$> l).

(** ** The page *)

(** *** The form [ZipCodeSearch] *)

(** The [onChange] handler of the input: what is kept of the typed text.
    [e.target.value.replace(/\D/g, '').slice(0, 5)] *)
Definition onChange (value : string) : string :=
  Str.take 5 (Str.filter Str.is_digit value).

(** [zipCode.length === 5 && /^\d{5}$/.test(zipCode)] *)
Definition isValidZip (zipCode : string) : bool :=
  bool_decide (String.length zipCode = 5%nat)
  && (bool_decide (String.length zipCode = 5%nat)
      && Str.forallb Str.is_digit zipCode).

(** [handleSubmit]: the ZIP code handed to [onSearch], if any. *)
Definition handleSubmit (zipCode : string) : option string :=
  if negb (Str.is_empty (Str.trim zipCode))
     && bool_decide (String.length zipCode = 5%nat)
  then Some (Str.trim zipCode)
  else None.

(** *** The list [EmployerResults] *)

(** [type MetricType = 'employees' | 'establishments' | 'payroll'] *)
Inductive MetricType : Type :=
| ByEmployees
| ByEstablishments
| ByPayroll.

Definition getMetricValue (metric : MetricType) (employer : ProcessedEmployerData)
  : Z :=
  match metric with
  | ByEmployees => employees employer
  | ByEstablishments => establishments employer
  | ByPayroll => payroll employer
  end.

(** [(a, b) => getMetricValue(b) - getMetricValue(a)] is not positive. *)
Definition by_metric (metric : MetricType) (a b : ProcessedEmployerData) : bool :=
  getMetricValue metric b <=? getMetricValue metric a.

(** [[...data].sort(...)] *)
Definition sortedData (metric : MetricType) (data : list ProcessedEmployerData)
  : list ProcessedEmployerData :=
  stable_sort (by_metric metric) data.

(** [sortedData.slice(0, 10)] *)
Definition top10Data (metric : MetricType) (data : list ProcessedEmployerData)
  : list ProcessedEmployerData :=
  take 10 (sortedData metric data).

(** [data.reduce((sum, employer) => sum + getMetricValue(employer), 0)] *)
Definition getTotalMetric (metric : MetricType) (data : list ProcessedEmployerData)
  : Z :=
  fold_left (fun sum employer => Num.round (sum + getMetricValue metric employer))
    data 0.

(** [(subIndustry.level || 3) < 4] *)
Definition canExpand (subIndustry : ProcessedEmployerData) : bool :=
  match level subIndustry with
  | None | Some O => true
  | Some l => bool_decide (l < 4)%nat
  end.

(** *** The state of [App] and its handlers *)

(** [{...item, subIndustries, isExpanded, isLoadingSubIndustries}]: a row
    with its three view fields replaced. *)
Definition with_view (item : ProcessedEmployerData)
  (subs : option (list ProcessedEmployerData)) (expanded loading : option bool)
  : ProcessedEmployerData :=
  mkProcessed (industry item) (employees item) (establishments item)
    (payroll item) (naicsCode item) (location item) (geoId item)
    (countyTotalEmployees item) (countyTotalEstablishments item)
    (countyTotalPayroll item) subs expanded loading (level item).

(** The shape shared by the four updates of [employerData] in
    [handleExpandIndustry]: a row with the code is changed by [f]; in any
    other row that has sub-industries, the sub-industries with the code are
    changed by [f]; deeper rows are not visited. *)
Definition update_rows (f : ProcessedEmployerData -> ProcessedEmployerData)
  (clicked : string) (prev : list ProcessedEmployerData)
  : list ProcessedEmployerData :=
  (fun item =>
     if bool_decide (naicsCode item = clicked) then f item
     else match subIndustries item with
          | Some subs =>
              with_view item
                (Some ((fun subItem =>
                          if bool_decide (naicsCode subItem = clicked)
                          then f subItem else subItem) <$> subs))
                (isExpanded item) (isLoadingSubIndustries item)
          | None => item
          end) <$> prev.

(** [{ ...item, subIndustries: [], isExpanded: false }] *)
Definition collapsed (item : ProcessedEmployerData) : ProcessedEmployerData :=
  with_view item (Some []) (Some false) (isLoadingSubIndustries item).

(** [{ ...item, isLoadingSubIndustries: true, isExpanded: true }] *)
Definition loading (item : ProcessedEmployerData) : ProcessedEmployerData :=
  with_view item (subIndustries item) (Some true) (Some true).

(** [{ ...item, subIndustries: enrichedSubIndustries,
       isLoadingSubIndustries: false }] *)
Definition loaded (enriched : list ProcessedEmployerData)
  (item : ProcessedEmployerData) : ProcessedEmployerData :=
  with_view item (Some enriched) (isExpanded item) (Some false).

(** [{ ...item, isLoadingSubIndustries: false, isExpanded: false }] *)
Definition not_loaded (item : ProcessedEmployerData) : ProcessedEmployerData :=
  with_view item (subIndustries item) (Some false) (Some false).

(** [subIndustries.map(sub => ({...sub, countyTotalEmployees:
      firstItem?.countyTotalEmployees, ...}))] with
    [firstItem = employerData.find(item => item.naicsCode === naicsCode)]. *)
Definition enrich (rows : list ProcessedEmployerData) (clicked : string)
  (fetched : list ProcessedEmployerData) : list ProcessedEmployerData :=
  let firstItem :=
    List.find (fun item => bool_decide (naicsCode item = clicked)) rows in
  (fun sub =>
     mkProcessed (industry sub) (employees sub) (establishments sub)
       (payroll sub) (naicsCode sub) (location sub) (geoId sub)
       (firstItem ≫= countyTotalEmployees)
       (firstItem ≫= countyTotalEstablishments)
       (firstItem ≫= countyTotalPayroll)
       (subIndustries sub) (isExpanded sub) (isLoadingSubIndustries sub)
       (level sub)) <$> fetched.

(** The state of [App] that the two handlers read and write.  The key is
    not part of it: [setApiKey] is never called. *)
Record AppState : Type := mkAppState {
  isSearching : bool;
  employerData : list ProcessedEmployerData;
  currentZip : string;
  error : string;
  expandedIndustries : gset string
}.

Section View.

Variable server : string -> nat -> reply.
Variable JSON_parse : string -> option json.
Variable engine_message : exn -> string.
Variable apiKey : string.

(** [handleSearch].  The state is the one after the handler has run to its
    end, with no other event in between. *)
Definition handleSearch (st : AppState) (zipCode : string) (w : World)
  : AppState * World :=
  if Str.is_empty apiKey then (st, w)
  else
    match fetchEmploymentDataForZip server JSON_parse engine_message apiKey
            zipCode w with
    | (Returned data, w') =>
        (mkAppState false data zipCode "" (expandedIndustries st), w')
    | (Threw err, w') =>
        (mkAppState false [] zipCode (message_of engine_message err)
           (expandedIndustries st), w')
    end.

(** [handleExpandIndustry] with its updates of the state, under the same
    proviso.  [employerData.find] reads the rows of the render in which the
    button was pressed. *)
Definition onExpandIndustry (st : AppState) (naicsCode state county : string)
  (w : World) : AppState * World :=
  if Str.is_empty apiKey then (st, w)
  else if bool_decide (naicsCode ∈ expandedIndustries st) then
    (mkAppState (isSearching st)
       (update_rows collapsed naicsCode (employerData st))
       (currentZip st) (error st) (expandedIndustries st ∖ {[naicsCode]}), w)
  else
    let marked := update_rows loading naicsCode (employerData st) in
    match handleExpandIndustry server JSON_parse apiKey (currentZip st)
            naicsCode state county w with
    | (Returned subIndustries, w') =>
        (mkAppState (isSearching st)
           (update_rows (loaded (enrich (employerData st) naicsCode subIndustries))
              naicsCode marked)
           (currentZip st) (error st) (expandedIndustries st ∪ {[naicsCode]}), w')
    | (Threw err, w') =>
        (mkAppState (isSearching st)
           (update_rows not_loaded naicsCode marked)
           (currentZip st)
           ("Failed to fetch sub-industries: " ++ message_of engine_message err)
           ((expandedIndustries st ∪ {[naicsCode]}) ∖ {[naicsCode]}), w')
    end.

End View.

(** [b] shows the same industry with the same figures as [a]: every field
    but the three of the view is the same. *)
Definition same_figures (a b : ProcessedEmployerData) : Prop :=
  industry b = industry a
  /\ employees b = employees a
  /\ establishments b = establishments a
  /\ payroll b = payroll a
  /\ naicsCode b = naicsCode a
  /\ location b = location a
  /\ geoId b = geoId a
  /\ countyTotalEmployees b = countyTotalEmployees a
  /\ countyTotalEstablishments b = countyTotalEstablishments a
  /\ countyTotalPayroll b = countyTotalPayroll a
  /\ level b = level a.

(** ** A worked example *)

(** Servers for a run of the program.  The HUD service answers for 10002
    and is out of reach otherwise; the census answers for Middlesex County
    (25/017) with a table for sectors 23 and 62 and for the child 622, with
    an error for sector 44 and with the county totals; the taxonomy service
    answers the first search for the children of 62.  Bodies are written
    without the quotes of JSON; [parse] gives the document each stands
    for. *)
Module Demo.

Definition apiKey : string := "demo".

Definition message (e : exn) : string := "runtime error".

Definition header : json := JArr [JNum 0; JNum 0; JNum 0; JNum 0; JNum 0; JNum 0].

Definition parse (t : string) : option json :=
  if bool_decide (t = "[[0,0,0,0,0,0],[0,0,120,8,900,0]]") then
    Some (JArr [header; JArr [JNum 0; JNum 0; JNum 120; JNum 8; JNum 900; JNum 0]])
  else if bool_decide (t = "[[0,0,0,0,0,0],[0,0,300,20,0,0],[0,0,0,0,0,0]]") then
    Some (JArr [header; JArr [JNum 0; JNum 0; JNum 300; JNum 20; JNum 0; JNum 0];
                header])
  else if bool_decide (t = "[[0,0,0,0],[0,5000,400,70000]]") then
    Some (JArr [JArr [JNum 0; JNum 0; JNum 0; JNum 0];
                JArr [JNum 0; JNum 5000; JNum 400; JNum 70000]])
  else if bool_decide
            (t = "{result:[{naics22:622,title:Hospitals},{naics22:621},{naics22:62}]}")
  then
    Some (JObj [("result",
                 JArr [JObj [("naics22", JStr "622"); ("title", JStr "Hospitals")];
                       JObj [("naics22", JNum 621)];
                       JObj [("naics22", JStr "62")]])])
  else if bool_decide
            (t = "{data:{results:[{geoid:36061,county_name:New York County,state_name:NY}]}}")
  then
    Some (JObj [("data",
                 JObj [("results",
                        JArr [JObj [("geoid", JStr "36061");
                                    ("county_name", JStr "New York County");
                                    ("state_name", JStr "NY")]])])])
  else None.

Definition server (url : string) (n : nat) : reply :=
  if bool_decide (url = sector_url apiKey "25" "017" "62") then
    Response 200 (Some "[[0,0,0,0,0,0],[0,0,120,8,900,0]]")
  else if bool_decide (url = sector_url apiKey "25" "017" "23") then
    Response 200 (Some "[[0,0,0,0,0,0],[0,0,300,20,0,0],[0,0,0,0,0,0]]")
  else if bool_decide (url = sector_url apiKey "25" "017" "622") then
    Response 200 (Some "[[0,0,0,0,0,0],[0,0,120,8,900,0]]")
  else if bool_decide (url = sector_url apiKey "25" "017" "44") then
    Response 500 (Some "[[0,0,0,0,0,0],[0,0,120,8,900,0]]")
  else if bool_decide (url = totals_url apiKey "25" "017") then
    Response 200 (Some "[[0,0,0,0],[0,5000,400,70000]]")
  else if bool_decide (url = search_url "62") then
    match n with
    | O => Response 200
             (Some "{result:[{naics22:622,title:Hospitals},{naics22:621},{naics22:62}]}")
    | _ => Rejected
    end
  else if bool_decide
            (url = "https://www.huduser.gov/hudapi/public/usps?type=2&query=10002")
  then
    Response 200
      (Some "{data:{results:[{geoid:36061,county_name:New York County,state_name:NY}]}}")
  else Rejected.

Definition middlesex : County := mkCounty "25" "017" "Middlesex County, MA".

Definition hospitals : list NAICSCode :=
  [ mkNAICSCode "621" "NAICS 621" None; mkNAICSCode "622" "Hospitals" None ].

Definition after_search : World :=
  mkWorld [search_url "62"] (<["children-62" := hospitals]> ∅).

End Demo.

(** A page on the servers of [Demo]: a search for 02459 from the empty
    page, then a press on the row of sector 62.  [offline] is a server that
    is out of reach. *)
Module DemoPage.


Definition start : AppState := mkAppState false [] "" "" ∅.

Definition searched : AppState * World :=
  handleSearch Demo.server Demo.parse Demo.message Demo.apiKey start "02459"
    initial.

Definition opened : AppState * World :=
  onExpandIndustry Demo.server Demo.parse Demo.message Demo.apiKey
    searched.1 "62" "25" "017" searched.2.

End DemoPage.

(** A census service whose table has a row with figures and then a row
    that is [null]. *)
Module DemoFaults.

Definition parse (t : string) : option json :=
  if bool_decide (t = "[[0,0,0,0,0,0],[0,0,120,8,900,0],null]") then
    Some (JArr [Demo.header;
                JArr [JNum 0; JNum 0; JNum 120; JNum 8; JNum 900; JNum 0];
                JNull])
  else None.

Definition server (url : string) (n : nat) : reply :=
  Response 200 (Some "[[0,0,0,0,0,0],[0,0,120,8,900,0],null]").

End DemoFaults.

(** * Properties *)

(** ** Reasoning about computations *)

Lemma total_ret {A} (a : A) : total (ret a).
Proof. intros w. by exists a, w. Qed.

Lemma total_bind {A B} (m : js A) (k : A -> js B) :
  total m -> (forall a, total (k a)) -> total (bind m k).
Proof.
  intros Hm Hk w. unfold bind.
  destruct (Hm w) as (a & w1 & ->). apply Hk.
Qed.

Lemma total_try_catch {A} (m : js A) (h : exn -> js A) :
  (forall e, total (h e)) -> total (try_catch m h).
Proof.
  intros Hh w. unfold try_catch.
  destruct (m w) as [[a|e] w1]; [by exists a, w1 | apply Hh].
Qed.

Lemma total_for_each {A B} (f : A -> B -> js A) (l : list B) (acc : A) :
  (forall a x, total (f a x)) -> total (for_each f l acc).
Proof.
  intros Hf. revert acc.
  induction l as [|x r IH]; intros acc; simpl.
  - apply total_ret.
  - apply total_bind; [apply Hf | intros a; apply IH].
Qed.

Lemma total_if {A} (b : bool) (m1 m2 : js A) :
  total m1 -> total m2 -> total (if b then m1 else m2).
Proof. by destruct b. Qed.

Section Moves.

Context (R : World -> World -> Prop) `{!PreOrder R}.

Lemma moves_ret {A} (a : A) : moves R (ret a).
Proof. intros w. simpl. reflexivity. Qed.

Lemma moves_throw {A} (e : exn) : moves R (@throw A e).
Proof. intros w. simpl. reflexivity. Qed.

Lemma moves_lift {A} (x : outcome A) : moves R (lift x).
Proof. intros w. simpl. reflexivity. Qed.

Lemma moves_bind {A B} (m : js A) (k : A -> js B) :
  moves R m -> (forall a, moves R (k a)) -> moves R (bind m k).
Proof.
  intros Hm Hk w. unfold bind.
  specialize (Hm w). destruct (m w) as [[a|e] w1]; simpl in *; [|done].
  etrans; [exact Hm | apply Hk].
Qed.

Lemma moves_try_catch {A} (m : js A) (h : exn -> js A) :
  moves R m -> (forall e, moves R (h e)) -> moves R (try_catch m h).
Proof.
  intros Hm Hh w. unfold try_catch.
  specialize (Hm w). destruct (m w) as [[a|e] w1]; simpl in *; [done|].
  etrans; [exact Hm | apply Hh].
Qed.

Lemma moves_for_each {A B} (f : A -> B -> js A) (l : list B) (acc : A) :
  (forall a x, moves R (f a x)) -> moves R (for_each f l acc).
Proof.
  intros Hf. revert acc.
  induction l as [|x r IH]; intros acc; simpl.
  - apply moves_ret.
  - apply moves_bind; [apply Hf | intros a; apply IH].
Qed.

Lemma moves_if {A} (b : bool) (m1 m2 : js A) :
  moves R m1 -> moves R m2 -> moves R (if b then m1 else m2).
Proof. by destruct b. Qed.

End Moves.

(** ** The stable sort *)

Section Sort.

Context {A : Type} (le : A -> A -> bool).

Lemma insert_sorted_perm x l : insert_sorted le x l ≡ₚ x :: l.
Proof.
  induction l as [|y r IH]; simpl; [done|].
  destruct (le x y); [done|]. rewrite IH. apply Permutation_swap.
Qed.

Lemma stable_sort_perm l : stable_sort le l ≡ₚ l.
Proof.
  induction l as [|x r IH]; simpl; [done|].
  rewrite insert_sorted_perm. by rewrite IH.
Qed.

Hypothesis le_total : forall a b, le a b = true \/ le b a = true.

Lemma insert_sorted_Sorted x l :
  Sorted (fun a b => le a b = true) l ->
  Sorted (fun a b => le a b = true) (insert_sorted le x l).
Proof.
  induction 1 as [|y r Hr IH Hy]; simpl.
  - by repeat constructor.
  - destruct (le x y) eqn:Hxy.
    + constructor; [by constructor | by constructor].
    + constructor; [exact IH|].
      destruct (le_total x y) as [?|Hyx]; [congruence|].
      destruct r as [|z r]; simpl.
      * by constructor.
      * destruct (le x z); constructor; [done|].
        by inversion Hy.
  Qed.

Lemma stable_sort_Sorted l : Sorted (fun a b => le a b = true) (stable_sort le l).
Proof.
  induction l as [|x r IH]; simpl; [constructor|].
  by apply insert_sorted_Sorted.
Qed.

End Sort.

(** ** Parsing the cells of a census row *)


Lemma pretty_N_char_digit (x : N) :
  (x < 10)%N ->
  Str.is_digit (pretty_N_char x) = true
  /\ Str.digit_value (pretty_N_char x) = Z.of_N x.
Proof.
  intros Hx. destruct x as [|p]; [done|].
  assert (Hp : (p < 10)%positive) by lia.
  do 10 (destruct p as [p|p|]; try lia; try done).
Qed.

(** Reading the digits that [pretty] writes for [x] in front of [s]. *)
Lemma digits_prefix_pretty_go (x : N) :
  (0 < x)%N ->
  exists k : Z, 0 <= k /\ forall acc s,
    Str.digits_prefix (Some acc) (pretty_N_go x s)
    = Str.digits_prefix (Some (acc * 10 ^ k + Z.of_N x)) s.
Proof.
  induction (N.lt_wf_0 x) as [x _ IH]. intros Hx.
  assert (Hc : forall acc s,
    Str.digits_prefix (Some acc) (String (pretty_N_char (x `mod` 10)%N) s)
    = Str.digits_prefix (Some (10 * acc + Z.of_N (x `mod` 10)%N)) s).
  { intros acc s. simpl.
    destruct (pretty_N_char_digit (x `mod` 10)%N) as [-> ->]; [|done].
    by apply N.mod_upper_bound. }
  destruct (decide (x `div` 10 = 0)%N) as [Hz|Hnz].
  - exists 1. split; [lia|]. intros acc s.
    rewrite pretty_N_go_step by done. rewrite Hz, pretty_N_go_0, Hc.
    do 2 f_equal. rewrite (N.div_mod x 10) at 2 by done. lia.
  - destruct (IH (x `div` 10)%N) as (k & Hk & IHk).
    { apply N.div_lt; lia. } { by apply N.neq_0_lt_0. }
    exists (k + 1). split; [lia|]. intros acc s.
    rewrite pretty_N_go_step by done. rewrite IHk, Hc.
    do 2 f_equal. rewrite Z.pow_add_r by lia.
    rewrite (N.div_mod x 10) at 3 by done. lia.
Qed.

Lemma pretty_go_starts_with_digit (x : N) (s : string) :
  (0 < x)%N ->
  exists c r, pretty_N_go x s = String c r /\ Str.is_digit c = true.
Proof.
  revert s. induction (N.lt_wf_0 x) as [x _ IH]. intros s Hx.
  rewrite pretty_N_go_step by done.
  destruct (decide (x `div` 10 = 0)%N) as [->|Hnz].
  - rewrite pretty_N_go_0. eexists _, _. split; [done|].
    by apply pretty_N_char_digit, N.mod_upper_bound.
  - apply IH; [apply N.div_lt; lia | by apply N.neq_0_lt_0].
Qed.

Lemma pretty_starts_with_digit (n : N) :
  exists c r, pretty n = String c r /\ Str.is_digit c = true.
Proof.
  destruct n as [|p]; [by exists "0"%char, ""|].
  apply (pretty_go_starts_with_digit (N.pos p) ""). lia.
Qed.

Lemma string_app_cons c s t : String c s ++ t = String c (s ++ t).
Proof. reflexivity. Qed.

Lemma string_app_empty s : s ++ "" = s.
Proof. induction s as [|c s IH]; [done|]. rewrite string_app_cons. by rewrite IH. Qed.

Lemma string_app_assoc (s t u : string) : (s ++ t) ++ u = s ++ t ++ u.
Proof. induction s as [|c s IH]; [done|]. rewrite !string_app_cons. by rewrite IH. Qed.

Lemma string_forallb_app p s t :
  Str.forallb p (s ++ t) = Str.forallb p s && Str.forallb p t.
Proof.
  induction s as [|c s IH]; [done|]. rewrite string_app_cons. simpl.
  rewrite IH. by rewrite andb_assoc.
Qed.

Lemma digit_not_space c : Str.is_digit c = true -> Str.is_space c = false.
Proof. by destruct c as [[] [] [] [] [] [] [] []]. Qed.

Lemma digit_not_sign c r :
  Str.is_digit c = true ->
  Str.read_int (String c r) = Str.digits_prefix None (String c r).
Proof.
  intros Hc. unfold Str.read_int. cbn [Str.trimStart].
  rewrite (digit_not_space c Hc).
  by destruct c as [[] [] [] [] [] [] [] []].
Qed.

Lemma trimStart_spaces ws t :
  Str.forallb Str.is_space ws = true -> Str.trimStart (ws ++ t) = Str.trimStart t.
Proof.
  induction ws as [|c ws IH]; [done|]. rewrite string_app_cons.
  cbn [Str.forallb Str.trimStart]. intros [-> Hws]%andb_prop. by apply IH.
Qed.

Lemma read_int_spaces ws t :
  Str.forallb Str.is_space ws = true -> Str.read_int (ws ++ t) = Str.read_int t.
Proof. intros Hws. unfold Str.read_int. by rewrite trimStart_spaces. Qed.

Lemma pretty_N_go_app (x : N) (s : string) :
  pretty_N_go x s = pretty_N_go x "" ++ s.
Proof.
  revert s. induction (N.lt_wf_0 x) as [x _ IH]. intros s.
  destruct (decide (x = 0)%N) as [->|Hx]; [by rewrite !pretty_N_go_0|].
  assert (0 < x)%N by lia.
  rewrite (pretty_N_go_step x s), (pretty_N_go_step x "") by done.
  assert (Hlt : (x `div` 10 < x)%N) by (apply N.div_lt; lia).
  rewrite (IH _ Hlt (String _ s)), (IH _ Hlt (String _ "")).
  by rewrite string_app_assoc.
Qed.

Lemma digits_prefix_stop acc t :
  Str.digit_first t = false -> Str.digits_prefix acc t = acc.
Proof. destruct t as [|c r]; [done|]. simpl. by intros ->. Qed.

(** The digits that [pretty] writes for [n] are read back as [n], whatever
    follows them that is not a digit. *)
Lemma digits_prefix_numeral (n : N) tail :
  Str.digit_first tail = false ->
  Str.digits_prefix None (pretty n ++ tail) = Some (Z.of_N n)
  /\ Str.digits_prefix (Some 0) (pretty n ++ tail) = Some (Z.of_N n).
Proof.
  intros Htail. destruct n as [|p].
  { change (pretty 0%N ++ tail) with (String "0" tail).
    change (Str.digits_prefix None (String "0" tail))
      with (Str.digits_prefix (Some 0) tail).
    change (Str.digits_prefix (Some 0) (String "0" tail))
      with (Str.digits_prefix (Some 0) tail).
    by rewrite digits_prefix_stop. }
  change (pretty (N.pos p)) with (pretty_N_go (N.pos p) "").
  rewrite <- pretty_N_go_app.
  destruct (pretty_go_starts_with_digit (N.pos p) tail) as (c & r & Hcr & Hc); [lia|].
  destruct (digits_prefix_pretty_go (N.pos p)) as (k & Hk & Hgo); [lia|].
  specialize (Hgo 0 tail). rewrite Hcr in Hgo |- *.
  assert (Hn0 : Str.digits_prefix None (String c r)
                = Str.digits_prefix (Some 0) (String c r)).
  { simpl. by rewrite Hc. }
  rewrite Hn0, Hgo, digits_prefix_stop by done. split; f_equal; lia.
Qed.

Lemma digits_prefix_zeros k (n : N) tail :
  Str.digit_first tail = false ->
  Str.digits_prefix None (Str.replicate k "0" ++ pretty n ++ tail)
  = Some (Z.of_N n).
Proof.
  intros Htail. destruct (digits_prefix_numeral n tail Htail) as [Hnone Hzero].
  destruct k as [|k]; [exact Hnone|].
  change (Str.replicate (S k) "0" ++ pretty n ++ tail)
    with (String "0" (Str.replicate k "0" ++ pretty n ++ tail)).
  change (Str.digits_prefix None (String "0" ?t))
    with (Str.digits_prefix (Some 0) t).
  induction k as [|k IH]; [exact Hzero|].
  change (Str.replicate (S k) "0" ++ pretty n ++ tail)
    with (String "0" (Str.replicate k "0" ++ pretty n ++ tail)).
  change (Str.digits_prefix (Some 0) (String "0" ?t))
    with (Str.digits_prefix (Some 0) t).
  exact IH.
Qed.

Lemma zeros_start_with_digit k (n : N) tail :
  exists c r, Str.replicate k "0" ++ pretty n ++ tail = String c r
              /\ Str.is_digit c = true.
Proof.
  destruct k as [|k]; [|by eexists _, _].
  destruct (pretty_starts_with_digit n) as (c & r & -> & Hc). by eexists _, _.
Qed.

(** The integer read from a numeral: white space, an optional sign, zeros,
    the decimal notation of [n], and a rest that does not go on with a
    digit. *)
Lemma read_int_numeral ws sign k (n : N) tail :
  Str.forallb Str.is_space ws = true ->
  sign ∈ [""; "+"; "-"] ->
  Str.digit_first tail = false ->
  Str.read_int (ws ++ sign ++ Str.replicate k "0" ++ pretty n ++ tail)
  = Some (if bool_decide (sign = "-") then - Z.of_N n else Z.of_N n).
Proof.
  intros Hws Hsign Htail. rewrite read_int_spaces by done.
  pose proof (digits_prefix_zeros k n tail Htail) as Hread.
  set (digits := Str.replicate k "0" ++ pretty n ++ tail) in *.
  apply elem_of_cons in Hsign as [->|Hsign].
  { destruct (zeros_start_with_digit k n tail) as (c & r & Hcr & Hc).
    change ("" ++ digits) with digits. fold digits in Hcr.
    rewrite Hcr in Hread |- *. by rewrite digit_not_sign. }
  apply elem_of_cons in Hsign as [->|Hsign].
  { change ("+" ++ digits) with (String "+" digits).
    unfold Str.read_int. cbn [Str.trimStart].
    change (Str.is_space "+") with false. cbv iota. by rewrite Hread. }
  apply list_elem_of_singleton in Hsign as ->.
  change ("-" ++ digits) with (String "-" digits).
  unfold Str.read_int. cbn [Str.trimStart].
  change (Str.is_space "-") with false. cbv iota. by rewrite Hread.
Qed.

Lemma read_int_pretty (n : N) : Str.read_int (pretty n) = Some (Z.of_N n).
Proof.
  pose proof (read_int_numeral "" "" 0 n "" eq_refl) as H.
  rewrite bool_decide_eq_false_2 in H by done.
  change ("" ++ "" ++ Str.replicate 0 "0" ++ pretty n ++ "")
    with (pretty n ++ "") in H.
  rewrite string_app_empty in H. apply H; [apply list_elem_of_here | done].
Qed.





(** Every string is of one of the two kinds. *)









(** Integers up to 2^53 are doubles. *)
Lemma round_safe (x : Z) : Z.abs x <= 2 ^ 53 -> Num.round x = x.
Proof.
  intros Hx. unfold Num.round.
  destruct (decide (Z.abs x = 2 ^ 53)) as [Heq|Hne].
  - destruct (Z.abs_eq_or_opp x) as [Habs|Habs]; rewrite Habs in Heq.
    + by subst x.
    + assert (x = - 2 ^ 53) as -> by lia. done.
  - assert (Hlt : Z.abs x < 2 ^ 53) by lia.
    destruct (decide (Z.abs x = 0)) as [H0|H0].
    + rewrite H0. done.
    + assert (Z.log2 (Z.abs x) < 53) by (apply Z.log2_lt_pow2; lia).
      by rewrite (proj2 (Z.leb_le _ _)) by lia.
Qed.


Example parseEmployeeCount_decimal :
  parseEmployeeCount (Some (JStr "12345")) = Returned 12345
  /\ parsePayroll (Some (JStr "12345")) = Returned 12345000
  /\ parseEmployeeCount (Some (JStr "12abc")) = Returned 12
  /\ parseEmployeeCount (Some (JStr "abc")) = Returned 0
  /\ parseEmployeeCount (Some (JStr "-7")) = Returned (-7)
  /\ parseEmployeeCount (Some (JStr (String "160" " 0042 jobs"))) = Returned 42
  /\ parsePayroll (Some (JStr "9007199254740993")) = Returned 9007199254740992000.
Proof. repeat split. Qed.

(** ** The census fetchers *)

Lemma scan_inv {A B} (P : A -> Prop) (f : A -> B -> outcome A) l acc :
  (forall a x a', P a -> f a x = Returned a' -> P a') ->
  P acc -> P (scan f l acc).1.
Proof.
  intros Hf. revert acc.
  induction l as [|x r IH]; intros acc Hacc; simpl; [done|].
  destruct (f acc x) as [a'|e] eqn:Hfx; [|done].
  apply IH. by eapply Hf.
Qed.

Lemma for_each_inv {A B} (P : A -> Prop) (f : A -> B -> js A) l acc :
  (forall a x w, x ∈ l -> P a ->
     exists a' w', f a x w = (Returned a', w') /\ P a') ->
  P acc ->
  forall w, exists a' w', for_each f l acc w = (Returned a', w') /\ P a'.
Proof.
  revert acc.
  induction l as [|x r IH]; intros acc Hf Hacc w; simpl.
  - by exists acc, w.
  - unfold bind.
    destruct (Hf acc x w) as (a1 & w1 & -> & Ha1); [left | done |].
    apply IH; [|done].
    intros a y w2 Hy. apply Hf. by right.
Qed.

Lemma rank_perm l : rank l ≡ₚ List.filter has_data l.
Proof. apply stable_sort_perm. Qed.

Lemma rank_Forall (P : ProcessedEmployerData -> Prop) l :
  Forall P l -> Forall P (rank l).
Proof.
  intros Hl. rewrite rank_perm.
  apply Forall_forall. intros x [Hx _]%list_elem_of_In%filter_In.
  rewrite Forall_forall in Hl. by apply Hl, list_elem_of_In.
Qed.

Lemma rank_has_data l :
  Forall (fun item => 0 < employees item \/ 0 < establishments item
                      \/ 0 < payroll item) (rank l).
Proof.
  rewrite rank_perm.
  apply Forall_forall. intros x [_ Hx]%list_elem_of_In%filter_In.
  unfold has_data, has_figure in Hx.
  apply orb_prop in Hx as [Hx|Hx]; [apply orb_prop in Hx as [Hx|Hx]|];
    apply Z.ltb_lt in Hx; auto.
Qed.

Lemma rank_sorted l :
  Sorted (fun a b => employees a >= employees b) (rank l).
Proof.
  unfold rank.
  assert (Htotal : forall a b, by_employees a b = true \/ by_employees b a = true).
  { intros a b. unfold by_employees.
    destruct (Z.leb_spec (employees b) (employees a)); [by left|].
    right. apply Z.leb_le. lia. }
  assert (Hs := stable_sort_Sorted by_employees Htotal (List.filter has_data l)).
  induction Hs as [|x r _ IH Hx]; constructor; [done|].
  destruct Hx as [|y r Hxy]; constructor.
  unfold by_employees in Hxy. apply Z.leb_le in Hxy. lia.
Qed.

Section Facts.

Variable server : string -> nat -> reply.
Variable JSON_parse : string -> option json.
Variable engine_message : exn -> string.
Variable apiKey : string.

Lemma fetch_run url w :
  fetch server url w
  = (match next_reply server url w with
     | Rejected => Threw FetchRejected
     | Response status body => Returned (status, body)
     end, sent url w).
Proof. unfold fetch, next_reply, sent. by destruct (server _ _). Qed.

Lemma is_empty_true s : Str.is_empty s = true <-> s = "".
Proof. by destruct s. Qed.

Lemma sector_row_inv nc results row results' :
  sector_row nc results row = Returned results' ->
  Forall (fun item => naicsCode item = nc
                      /\ level item = Some (String.length nc)) results ->
  Forall (fun item => naicsCode item = nc
                      /\ level item = Some (String.length nc)) results'.
Proof.
  unfold sector_row, Js.bind. intros Hrow Hres.
  repeat match type of Hrow with
         | match ?x with _ => _ end = _ => destruct x; try discriminate
         end;
    injection Hrow as <-; try done.
  apply Forall_app. split; [done|]. by repeat constructor.
Qed.

(** [fetchCountySectorData] always returns; it sends one request and leaves
    the cache alone; it returns the empty list when the reply has failed;
    each item it returns carries the code asked for. *)
Lemma fetchCountySectorData_spec st co nc zip w :
  exists l,
    fetchCountySectorData server JSON_parse apiKey st co nc zip w
    = (Returned l, sent (sector_url apiKey st co nc) w)
    /\ (failed JSON_parse (next_reply server (sector_url apiKey st co nc) w)
        \/ blank (next_reply server (sector_url apiKey st co nc) w) -> l = [])
    /\ Forall (fun item => naicsCode item = nc
                           /\ level item = Some (String.length nc)) l.
Proof.
  unfold fetchCountySectorData, try_catch, bind. fold (sector_url apiKey st co nc).
  rewrite fetch_run.
  assert (Hscan : forall rows,
    Forall (fun item => naicsCode item = nc
                        /\ level item = Some (String.length nc))
           (scan (sector_row nc) rows []).1).
  { intros rows. apply scan_inv; [|constructor].
    intros a x a' Ha Hx. by eapply sector_row_inv. }
  set (sc := scan (sector_row nc)) in *.
  destruct (next_reply server _ w) as [|status body]; simpl.
  { by exists []. }
  destruct (ok status) eqn:Hok; simpl; [|by exists []].
  unfold text. destruct body as [t|]; simpl; [|by exists []].
  destruct (Str.is_empty (Str.trim t)) eqn:Hblank; simpl.
  { by exists []. }
  unfold parse. destruct (JSON_parse t) as [data|] eqn:Hparse; simpl.
  2:{ by exists []. }
  destruct data as [| | | |[|header [|row rows]]|]; simpl;
    try (exists []; by repeat split).
  specialize (Hscan (row :: rows)).
  destruct (sc (row :: rows) []) as [results [e|]]; simpl.
  - exists []. by repeat split.
  - exists results. split; [done|]. split; [|done].
    intros [[?|?]|Ht]; try done.
    apply is_empty_true in Ht. congruence.
Qed.

Lemma sector_row_has_data nc results row results' :
  sector_row nc results row = Returned results' ->
  Forall (fun item => has_data item = true) results ->
  Forall (fun item => has_data item = true) results'.
Proof.
  unfold sector_row, Js.bind. intros Hrow Hres.
  repeat match type of Hrow with
         | match ?x with _ => _ end = _ => destruct x eqn:?; try discriminate
         | (if ?x then _ else _) = _ => destruct x eqn:?; try discriminate
         end;
    injection Hrow as <-; try done.
  apply Forall_app. split; [done|]. by repeat constructor.
Qed.

Lemma fetchCountySectorData_has_data st co nc zip w l w' :
  fetchCountySectorData server JSON_parse apiKey st co nc zip w = (Returned l, w') ->
  Forall (fun item => has_data item = true) l.
Proof.
  unfold fetchCountySectorData, try_catch, bind. rewrite fetch_run.
  assert (Hscan : forall rows,
    Forall (fun item => has_data item = true) (scan (sector_row nc) rows []).1).
  { intros rows. apply scan_inv; [|constructor].
    intros a x a' Ha Hx. by eapply sector_row_has_data. }
  set (sc := scan (sector_row nc)) in *.
  destruct (next_reply server _ w) as [|status body]; simpl.
  { by intros [= <- _]. }
  destruct (ok status); simpl; [|by intros [= <- _]].
  unfold text. destruct body as [t|]; simpl; [|by intros [= <- _]].
  destruct (Str.is_empty (Str.trim t)); simpl; [by intros [= <- _]|].
  unfold parse. destruct (JSON_parse t) as [data|]; simpl; [|by intros [= <- _]].
  destruct data as [| | | |[|header [|row rows]]|]; simpl;
    try by intros [= <- _].
  specialize (Hscan (row :: rows)).
  destruct (sc (row :: rows) []) as [results [e|]]; simpl; by intros [= <- _].
Qed.

(** [fetchCountyTotals] always returns, with zeros when the reply has
    failed. *)
Lemma fetchCountyTotals_spec st co zip w :
  exists t,
    fetchCountyTotals server JSON_parse apiKey st co zip w
    = (Returned t, sent (totals_url apiKey st co) w)
    /\ (failed JSON_parse (next_reply server (totals_url apiKey st co) w)
        \/ blank (next_reply server (totals_url apiKey st co) w) -> t = zero_totals).
Proof.
  unfold fetchCountyTotals, try_catch, bind. fold (totals_url apiKey st co).
  rewrite fetch_run.
  destruct (next_reply server _ w) as [|status body]; simpl.
  { by exists zero_totals. }
  destruct (ok status) eqn:Hok; simpl; [|by exists zero_totals].
  unfold text. destruct body as [t|]; simpl; [|by exists zero_totals].
  destruct (Str.is_empty (Str.trim t)) eqn:Hblank; simpl.
  { by exists zero_totals. }
  unfold parse. destruct (JSON_parse t) as [data|] eqn:Hparse; simpl.
  2:{ by exists zero_totals. }
  assert (Hfine : (true = false \/ Some data = None) \/ Str.trim t = "" ->
                  forall x : Totals, x = zero_totals).
  { intros [[?|?]|Ht]; try done. apply is_empty_true in Ht. congruence. }
  destruct data as [| | | |[|header [|row rows]]|]; simpl;
    try (exists zero_totals; by repeat split).
  unfold lift.
  match goal with |- context [Js.bind ?x ?k] => destruct (Js.bind x k) as [tot|e] end.
  - exists tot. split; [done|]. intros Hf. by apply Hfine.
  - by exists zero_totals.
Qed.

Lemma sent_all_nil w : sent_all [] w = w.
Proof. destruct w. unfold sent_all. simpl. by rewrite app_nil_r. Qed.

Lemma sent_all_cons url urls w : sent_all urls (sent url w) = sent_all (url :: urls) w.
Proof. unfold sent_all, sent. simpl. by rewrite <- app_assoc. Qed.

Lemma fan_out st co zip codes acc w :
  for_each
    (fun results nc =>
       try_catch
         (sectorData <- fetchCountySectorData server JSON_parse apiKey st co nc zip ;;
          ret (results ++ sectorData)%list)
         (fun _ => ret results))
    codes acc w
  = (Returned (acc ++ sector_data server JSON_parse apiKey st co zip codes w)%list,
     sent_all (sector_url apiKey st co <$> codes) w).
Proof.
  revert acc w.
  induction codes as [|nc rest IH]; intros acc w; simpl.
  - unfold ret. by rewrite app_nil_r, sent_all_nil.
  - unfold bind at 1, try_catch, bind.
    destruct (fetchCountySectorData_spec st co nc zip w) as (l & -> & _).
    simpl. rewrite IH, sent_all_cons. by rewrite <- app_assoc.
Qed.

Lemma fetchEmploymentByCounty_run st co zip w :
  fetchEmploymentByCounty server JSON_parse apiKey st co zip w
  = (Returned (rank (sector_data server JSON_parse apiKey st co zip naicsCodes w)),
     sent_all (sector_url apiKey st co <$> naicsCodes) w).
Proof.
  unfold fetchEmploymentByCounty. unfold bind at 1. by rewrite fan_out.
Qed.

(** C6, first half, and the shape of the result for C2. *)
Lemma fetchEmploymentByCounty_ranked st co zip w :
  exists l w',
    fetchEmploymentByCounty server JSON_parse apiKey st co zip w = (Returned l, w')
    /\ Forall (fun item => 0 < employees item \/ 0 < establishments item
                           \/ 0 < payroll item) l
    /\ Sorted (fun a b => employees a >= employees b) l.
Proof.
  rewrite fetchEmploymentByCounty_run. eexists _, _. split; [done|].
  split; [apply rank_has_data | apply rank_sorted].
Qed.

(** ** The taxonomy lookups *)

#[local] Instance same_cache_preorder : PreOrder same_cache.
Proof.
  split; [by intros w | intros w1 w2 w3 H12 H23].
  unfold same_cache in *. congruence.
Qed.

Lemma fetch_same_cache url : moves same_cache (fetch server url).
Proof. intros w. by rewrite fetch_run. Qed.

Lemma text_same_cache r : moves same_cache (text r).
Proof. unfold text. destruct r.2; [apply moves_ret | apply moves_throw]; apply _. Qed.

Lemma parse_same_cache t : moves same_cache (parse JSON_parse t).
Proof.
  unfold parse. destruct (JSON_parse t); [apply moves_ret | apply moves_throw];
    apply _.
Qed.

Create HintDb moves.
#[local] Hint Resolve fetch_same_cache text_same_cache parse_same_cache : moves.
#[local] Hint Extern 1 (PreOrder same_cache) => apply same_cache_preorder : moves.
#[local] Hint Extern 2 (moves _ (ret _)) => apply moves_ret : moves.
#[local] Hint Extern 2 (moves _ (throw _)) => apply moves_throw : moves.
#[local] Hint Extern 2 (moves _ (lift _)) => apply moves_lift : moves.
#[local] Hint Extern 3 (moves _ (bind _ _)) => apply moves_bind; [| |intros ?] : moves.
#[local] Hint Extern 3 (moves _ (try_catch _ _)) =>
  apply moves_try_catch; [| |intros ?] : moves.
#[local] Hint Extern 3 (moves _ (for_each _ _ _)) =>
  apply moves_for_each; [|intros ? ?] : moves.
#[local] Hint Extern 4 (moves _ (if ?b then _ else _)) => destruct b : moves.
#[local] Hint Extern 4 (moves _ (match ?x with _ => _ end)) => destruct x : moves.

Ltac solve_moves := cbn beta; auto 30 with moves.

Lemma tryChartMethod_total year : total (tryChartMethod server JSON_parse year).
Proof. apply total_try_catch. intros _. apply total_ret. Qed.

Lemma tryChartMethod_same_cache year :
  moves same_cache (tryChartMethod server JSON_parse year).
Proof. unfold tryChartMethod, json_body. solve_moves. Qed.

Lemma sweep_seed_total year codes seed :
  total (sweep_seed server JSON_parse year codes seed).
Proof. apply total_try_catch. intros _. apply total_ret. Qed.

Lemma sweepSearchMethod_total year : total (sweepSearchMethod server JSON_parse year).
Proof.
  apply total_bind; [|intros; apply total_ret].
  apply total_for_each. intros. apply sweep_seed_total.
Qed.

Lemma sweepSearchMethod_same_cache year :
  moves same_cache (sweepSearchMethod server JSON_parse year).
Proof.
  unfold sweepSearchMethod. apply moves_bind; [apply _ | | intros; solve_moves].
  apply moves_for_each; [apply _|]. intros codes seed.
  unfold sweep_seed, json_body. solve_moves.
Qed.

Lemma search_term_total parent codes term :
  total (search_term server JSON_parse parent codes term).
Proof. apply total_try_catch. intros _. apply total_ret. Qed.

Lemma search_terms_total parent codes terms :
  total (search_terms server JSON_parse parent codes terms).
Proof.
  revert codes. induction terms as [|t r IH]; intros codes; simpl.
  - apply total_ret.
  - apply total_bind; [apply search_term_total|].
    intros [codes' b]. simpl. destruct b; [apply total_ret | apply IH].
Qed.

Lemma searchChildCodes_total parent : total (searchChildCodes server JSON_parse parent).
Proof.
  apply total_bind; [apply search_terms_total|].
  intros codes. apply total_if; apply total_ret.
Qed.

Lemma search_terms_same_cache parent codes terms :
  moves same_cache (search_terms server JSON_parse parent codes terms).
Proof.
  revert codes. induction terms as [|t r IH]; intros codes; simpl.
  - solve_moves.
  - apply moves_bind; [apply _| |].
    + unfold search_term. solve_moves.
    + intros [codes' b]. simpl. destruct b; [solve_moves | apply IH].
Qed.

Lemma searchChildCodes_same_cache parent :
  moves same_cache (searchChildCodes server JSON_parse parent).
Proof.
  unfold searchChildCodes.
  apply moves_bind; [apply _ | apply search_terms_same_cache |].
  intros codes. solve_moves.
Qed.

Lemma children_ok_nil parent : children_ok parent [].
Proof. repeat split; constructor. Qed.

Lemma is_child_code_direct parent c :
  is_child_code parent c = true -> direct_child parent c.
Proof.
  unfold is_child_code, direct_child, Str.startsWith, Str.digits_only.
  intros [[Hlen Hpre]%andb_prop [_ Hdig]%andb_prop]%andb_prop.
  by apply bool_decide_eq_true in Hlen.
Qed.

Lemma set_if_absent_ok parent k v codes :
  direct_child parent k -> map_ok parent codes ->
  map_ok parent (set_if_absent k v codes).
Proof.
  intros Hk [Hnd Hall]. unfold set_if_absent, has.
  case_bool_decide as Hin; [done|]. split.
  - rewrite fmap_app. apply NoDup_app. split; [done|]. split.
    + intros x Hx [->|[]%elem_of_nil]%elem_of_cons. done.
    + apply NoDup_singleton.
  - apply Forall_app. split; [done|]. constructor; [done|constructor].
Qed.

Lemma child_record_ok parent codes rec codes' :
  map_ok parent codes ->
  child_record parent codes rec = Returned codes' ->
  map_ok parent codes'.
Proof.
  unfold child_record, Js.bind. intros Hok Hrec.
  destruct (Js.is_object _); [|by injection Hrec as <-].
  destruct (text_of _) as [c|]; [|done].
  destruct (text_of _) as [t|]; [|done].
  destruct (is_child_code parent c) eqn:Hc; injection Hrec as <-; [|done].
  apply set_if_absent_ok; [by apply is_child_code_direct | done].
Qed.

Lemma search_term_spec parent codes term w :
  map_ok parent codes ->
  exists codes' b,
    search_term server JSON_parse parent codes term w
    = (Returned (codes', b), sent (search_url term) w)
    /\ map_ok parent codes'
    /\ (failed JSON_parse (next_reply server (search_url term) w) ->
        codes' = codes /\ b = false).
Proof.
  intros Hok0.
  unfold search_term, try_catch, bind. fold (search_url term).
  rewrite fetch_run.
  assert (Hscan : forall records,
            map_ok parent (scan (child_record parent) records codes).1).
  { intros records. apply scan_inv; [|done].
    intros a x a' Ha Hx. by eapply child_record_ok. }
  set (sc := scan (child_record parent)) in *.
  destruct (next_reply server _ w) as [|status body]; simpl.
  { by exists codes, false. }
  destruct (ok status) eqn:Hok; simpl; [|by exists codes, false].
  unfold text. destruct body as [t|]; simpl; [|by exists codes, false].
  destruct (JSON_parse t) as [data|] eqn:Hparse; simpl.
  2:{ by exists codes, false. }
  unfold lift. destruct (records_of data) as [records|e]; simpl.
  2:{ exists codes, false. split; [done|]. split; [done|]. by intros _. }
  specialize (Hscan records).
  destruct (sc records codes) as [codes' [e|]]; simpl.
  - exists codes', false. split; [done|]. split; [done|]. by intros [?|?].
  - eexists codes', _. split; [done|]. split; [done|]. by intros [?|?].
Qed.

Lemma search_terms_spec parent terms codes w :
  map_ok parent codes ->
  exists codes' w',
    search_terms server JSON_parse parent codes terms w = (Returned codes', w')
    /\ map_ok parent codes'
    /\ ((forall url n, failed JSON_parse (server url n)) -> codes' = codes).
Proof.
  revert codes w.
  induction terms as [|t r IH]; intros codes w Hok0; simpl.
  - by exists codes, w.
  - unfold bind.
    destruct (search_term_spec parent codes t w Hok0) as (c1 & b & -> & Hc1 & Hf).
    simpl. destruct b.
    + exists c1, (sent (search_url t) w). split; [done|]. split; [done|].
      intros Hall. by destruct (Hf (Hall _ _)).
    + destruct (IH c1 (sent (search_url t) w) Hc1) as (c2 & w2 & -> & Hc2 & Hf2).
      exists c2, w2. split; [done|]. split; [done|].
      intros Hall. rewrite (Hf2 Hall). by destruct (Hf (Hall _ _)).
Qed.

Lemma leb_total a b : String.leb a b = true \/ String.leb b a = true.
Proof. apply String.leb_total. Qed.

Lemma leb_trans a b c :
  String.leb a b = true -> String.leb b c = true -> String.leb a c = true.
Proof.
  intros Hab Hbc. apply Is_true_true.
  apply Is_true_true in Hab, Hbc.
  exact (transitivity (R := String.le) Hab Hbc).
Qed.

Lemma sorted_entries_codes codes :
  code <$> sorted_entries codes
  = (stable_sort (fun a b => localeCompare_le a.1 b.1) codes).*1.
Proof. unfold sorted_entries. by rewrite <- list_fmap_compose. Qed.

Lemma sorted_entries_ok parent codes :
  map_ok parent codes -> children_ok parent (sorted_entries codes).
Proof.
  intros [Hnd Hall]. split; [|split].
  - unfold sorted_entries. apply Forall_fmap.
    eapply Forall_impl; [|by intros e He; exact He].
    by rewrite stable_sort_perm.
  - rewrite sorted_entries_codes. by rewrite stable_sort_perm.
  - rewrite sorted_entries_codes.
    apply Sorted_StronglySorted.
    { intros a b c. apply leb_trans. }
    assert (Hs := stable_sort_Sorted (fun a b => localeCompare_le a.1 b.1)
                    (fun a b => leb_total a.1 b.1) codes).
    induction Hs as [|x r _ IH Hx]; simpl; constructor; [done|].
    destruct Hx; simpl; by constructor.
Qed.

(** [searchChildCodes] always returns, leaves the cache alone, and returns
    direct children only, each once, in ascending order. *)
Lemma searchChildCodes_spec parent w :
  exists l w',
    searchChildCodes server JSON_parse parent w = (Returned l, w')
    /\ cache w' = cache w
    /\ children_ok parent l
    /\ ((forall url n, failed JSON_parse (server url n)) -> l = []).
Proof.
  pose proof (searchChildCodes_same_cache parent w) as Hcache.
  unfold searchChildCodes, bind in *.
  destruct (search_terms_spec parent (searchStrategies parent) [] w)
    as (codes & w' & Hrun & Hok' & Hf).
  { split; constructor. }
  rewrite Hrun in *. case_bool_decide as Hlen; simpl in *.
  - exists [], w'. split; [done|]. split; [done|].
    split; [apply children_ok_nil | done].
  - exists (sorted_entries codes), w'. split; [done|]. split; [done|].
    split; [by apply sorted_entries_ok|].
    intros Hall. rewrite (Hf Hall) in Hlen. done.
Qed.

Lemma getChildCodes_hit parent w l :
  cache w !! ("children-" ++ parent) = Some l ->
  getChildCodes server JSON_parse parent w = (Returned l, w).
Proof.
  intros Hhit. unfold getChildCodes, bind, cache_get. by rewrite Hhit.
Qed.

Lemma getChildCodes_miss parent w :
  cache w !! ("children-" ++ parent) = None ->
  exists l w1,
    searchChildCodes server JSON_parse parent w = (Returned l, w1)
    /\ getChildCodes server JSON_parse parent w
       = (Returned l, mkWorld (requests w1) (<["children-" ++ parent := l]> (cache w)))
    /\ children_ok parent l
    /\ ((forall url n, failed JSON_parse (server url n)) -> l = []).
Proof.
  intros Hmiss. unfold getChildCodes, bind, cache_get, try_catch. rewrite Hmiss.
  destruct (searchChildCodes_spec parent w) as (l & w1 & -> & Hc & Hok' & Hf).
  exists l, w1. unfold cache_set. simpl. by rewrite Hc.
Qed.

Lemma fetchNAICSCodes_hit year w l :
  cache w !! ("all-" ++ year) = Some l ->
  fetchNAICSCodes server JSON_parse year w = (Returned l, w).
Proof.
  intros Hhit. unfold fetchNAICSCodes, bind, cache_get. by rewrite Hhit.
Qed.

Lemma fetchNAICSCodes_miss year w :
  cache w !! ("all-" ++ year) = None ->
  exists chart w1 w2 l,
    tryChartMethod server JSON_parse year w = (Returned chart, w1)
    /\ match chart with
       | [] => exists sweep,
                 sweepSearchMethod server JSON_parse year w1 = (Returned sweep, w2)
                 /\ l = first_nonempty [] sweep
       | _ :: _ => w2 = w1 /\ l = chart
       end
    /\ l <> []
    /\ fetchNAICSCodes server JSON_parse year w
       = (Returned l, mkWorld (requests w2) (<["all-" ++ year := l]> (cache w))).
Proof.
  intros Hmiss. unfold fetchNAICSCodes, bind, cache_get, try_catch. rewrite Hmiss.
  pose proof (tryChartMethod_same_cache year w) as Hc1.
  destruct (tryChartMethod_total year w) as (chart & w1 & Hchart).
  rewrite Hchart in *. unfold same_cache in Hc1. simpl in Hc1.
  destruct chart as [|c chart]; simpl.
  - pose proof (sweepSearchMethod_same_cache year w1) as Hc2.
    destruct (sweepSearchMethod_total year w1) as (sweep & w2 & Hsweep).
    rewrite Hsweep in *. unfold same_cache in Hc2. simpl in Hc2.
    exists [], w1, w2, (first_nonempty [] sweep).
    split; [done|]. split; [by exists sweep|].
    destruct sweep as [|s sweep]; simpl;
      (split; [done|]); unfold cache_set; simpl; by rewrite Hc2, Hc1.
  - exists (c :: chart), w1, w1, (c :: chart).
    repeat split; try done. unfold cache_set; simpl. by rewrite Hc1.
Qed.

(** ** The cache only grows *)

Lemma cache_ok_initial : cache_ok initial.
Proof. split; intros ? ? Hl; simpl in Hl; by rewrite lookup_empty in Hl. Qed.

Lemma keys_differ year parent : "all-" ++ year <> "children-" ++ parent.
Proof. cbv [String.append]. discriminate. Qed.

#[local] Instance grows_preorder : PreOrder grows.
Proof.
  split.
  - by intros w.
  - intros w1 w2 w3 [H12 K12] [H23 K23]. split; [by etrans | auto].
Qed.

Lemma same_cache_grows {A} (m : js A) : moves same_cache m -> moves grows m.
Proof.
  intros Hm w. specialize (Hm w). unfold same_cache in Hm.
  split; [by rewrite Hm|]. unfold cache_ok. by rewrite Hm.
Qed.

Lemma getChildCodes_grows parent : moves grows (getChildCodes server JSON_parse parent).
Proof.
  intros w. destruct (cache w !! ("children-" ++ parent)) as [l|] eqn:Hk.
  - rewrite (getChildCodes_hit _ _ _ Hk). reflexivity.
  - destruct (getChildCodes_miss _ _ Hk) as (l & w1 & _ & -> & Hl & _). simpl.
    split; [by apply insert_subseteq|].
    intros [Hch Hall]. split; simpl.
    + intros p l' Hl'. apply lookup_insert_Some in Hl' as [[Hp <-]|[_ Hl']].
      * by apply (inj _) in Hp as <-.
      * by eapply Hch.
    + intros y l' Hl'. rewrite lookup_insert_ne in Hl'; [by eapply Hall|].
      intros Heq. by eapply keys_differ.
Qed.

Lemma fetchNAICSCodes_grows year : moves grows (fetchNAICSCodes server JSON_parse year).
Proof.
  intros w. destruct (cache w !! ("all-" ++ year)) as [l|] eqn:Hk.
  - rewrite (fetchNAICSCodes_hit _ _ _ Hk). reflexivity.
  - destruct (fetchNAICSCodes_miss _ _ Hk) as (ch & w1 & w2 & l & _ & _ & Hl & ->).
    simpl. split; [by apply insert_subseteq|].
    intros [Hch Hall]. split; simpl.
    + intros p l' Hl'. rewrite lookup_insert_ne in Hl'; [by eapply Hch|].
      apply keys_differ.
    + intros y l' Hl'. apply lookup_insert_Some in Hl' as [[_ <-]|[_ Hl']];
        [done | by eapply Hall].
Qed.

Lemma fetchCountySectorData_same_cache st co nc zip :
  moves same_cache (fetchCountySectorData server JSON_parse apiKey st co nc zip).
Proof.
  intros w. by destruct (fetchCountySectorData_spec st co nc zip w) as (l & -> & _).
Qed.

Lemma fetchCountyTotals_same_cache st co zip :
  moves same_cache (fetchCountyTotals server JSON_parse apiKey st co zip).
Proof.
  intros w. by destruct (fetchCountyTotals_spec st co zip w) as (l & -> & _).
Qed.

Lemma fetchEmploymentByCounty_same_cache st co zip :
  moves same_cache (fetchEmploymentByCounty server JSON_parse apiKey st co zip).
Proof. intros w. by rewrite fetchEmploymentByCounty_run. Qed.

Lemma countyFromZip_viaHUD_same_cache zip :
  moves same_cache (countyFromZip_viaHUD server JSON_parse zip).
Proof. unfold countyFromZip_viaHUD. solve_moves. Qed.

Lemma fetchEmploymentDataForZip_same_cache zip :
  moves same_cache
    (fetchEmploymentDataForZip server JSON_parse engine_message apiKey zip).
Proof.
  unfold fetchEmploymentDataForZip, getCountyFromZip.
  pose proof countyFromZip_viaHUD_same_cache.
  pose proof fetchEmploymentByCounty_same_cache.
  pose proof fetchCountyTotals_same_cache.
  solve_moves.
Qed.

Lemma fetchSubIndustries_grows st co parent zip :
  moves grows (fetchSubIndustries server JSON_parse apiKey st co parent zip).
Proof.
  unfold fetchSubIndustries.
  pose proof (getChildCodes_grows parent).
  assert (forall nc, moves grows
            (fetchCountySectorData server JSON_parse apiKey st co nc zip)).
  { intros nc. apply same_cache_grows, fetchCountySectorData_same_cache. }
  assert (PreOrder grows) by apply _.
  solve_moves.
Qed.

Lemma getCodeDescription_grows c :
  moves grows (getCodeDescription server JSON_parse c).
Proof.
  unfold getCodeDescription.
  pose proof (fetchNAICSCodes_grows "2022").
  assert (PreOrder grows) by apply _.
  solve_moves.
Qed.

Lemma get2DigitCodes_grows : moves grows (get2DigitCodes server JSON_parse).
Proof.
  unfold get2DigitCodes.
  pose proof (fetchNAICSCodes_grows "2022").
  assert (PreOrder grows) by apply _.
  solve_moves.
Qed.

(** ** Histories *)

Lemma after_grows w c : grows w (after server JSON_parse engine_message apiKey w c).
Proof.
  destruct c; simpl.
  - apply same_cache_grows, fetchEmploymentDataForZip_same_cache.
  - apply fetchSubIndustries_grows.
  - apply getChildCodes_grows.
  - apply fetchNAICSCodes_grows.
  - apply get2DigitCodes_grows.
  - apply getCodeDescription_grows.
Qed.

Lemma history_grows calls w :
  grows w (history server JSON_parse engine_message apiKey w calls).
Proof.
  revert w. induction calls as [|c r IH]; intros w; simpl; [reflexivity|].
  etrans; [apply after_grows | apply IH].
Qed.

Lemma reachable_cache_ok w :
  reachable server JSON_parse engine_message apiKey w -> cache_ok w.
Proof.
  intros [calls ->]. by apply (history_grows calls initial), cache_ok_initial.
Qed.

Lemma reachable_initial : reachable server JSON_parse engine_message apiKey initial.
Proof. by exists []. Qed.

(** ** The drill-down *)

Lemma getChildCodes_spec parent w :
  exists l w',
    getChildCodes server JSON_parse parent w = (Returned l, w')
    /\ cache w' !! ("children-" ++ parent) = Some l
    /\ (cache_ok w -> children_ok parent l)
    /\ (cache w !! ("children-" ++ parent) = None ->
        (forall url n, failed JSON_parse (server url n)) -> l = []).
Proof.
  destruct (cache w !! ("children-" ++ parent)) as [l|] eqn:Hk.
  - exists l, w. rewrite (getChildCodes_hit _ _ _ Hk).
    split; [done|]. split; [done|]. split; [|done].
    intros [Hch _]. by eapply Hch.
  - destruct (getChildCodes_miss _ _ Hk) as (l & w1 & _ & -> & Hl & Hf).
    eexists _, _. split; [done|]. simpl.
    split; [apply lookup_insert_eq|]. split; [done|]. by intros _.
Qed.

Lemma rank_nil : rank [] = [].
Proof. done. Qed.

Lemma fetchSubIndustries_spec st co parent zip w :
  exists children w1 results w',
    getChildCodes server JSON_parse parent w = (Returned children, w1)
    /\ fetchSubIndustries server JSON_parse apiKey st co parent zip w
       = (Returned (rank results), w')
    /\ Forall (from_children children) results
    /\ ((forall url n, failed JSON_parse (server url n)) -> results = []).
Proof.
  destruct (getChildCodes_spec parent w) as (children & w1 & Hget & _).
  exists children, w1.
  unfold fetchSubIndustries. unfold try_catch at 1. unfold bind at 1.
  rewrite Hget. case_bool_decide as Hlen.
  { exists [], w1. by repeat split. }
  unfold bind at 1.
  destruct (for_each_inv
    (fun results => Forall (from_children children) results
                    /\ ((forall url n, failed JSON_parse (server url n)) ->
                        results = []))
    (fun results childCode =>
       try_catch
         (childData <- fetchCountySectorData server JSON_parse apiKey st co
                         (code childCode) zip ;;
          ret (results ++
               (with_level (String.length (code childCode)) <$> childData))%list)
         (fun _ => ret results))
    children []) with (w := w1) as (results & w' & Hrun & Hres & Hfail).
  - intros acc c w2 Hc [Hacc Hf]. unfold try_catch, bind.
    destruct (fetchCountySectorData_spec st co (code c) zip w2)
      as (l & -> & Hempty & Hl).
    eexists _, _. split; [done|]. split.
    + apply Forall_app. split; [done|]. apply Forall_fmap.
      eapply Forall_impl; [exact Hl|].
      intros item [Hnc _]. by exists c.
    + intros Hall. rewrite (Hf Hall), Hempty; [done|]. left. apply Hall.
  - by split.
  - rewrite Hrun. by exists results, w'.
Qed.

(** ** The claims about the services *)

(** C2.  When the county of a ZIP code is resolved,
    [fetchEmploymentDataForZip] returns the list of [fetchEmploymentByCounty]
    for that county, element by element, each with the three county totals
    that [fetchCountyTotals] returns for that county and every other field
    unchanged. *)
Theorem C2_sectors_carry_county_totals zip w c w1 :
  getCountyFromZip server JSON_parse zip w = (Returned (Some c), w1) ->
  exists sectors w2 totals w3 result,
    fetchEmploymentByCounty server JSON_parse apiKey (state c) (county c) zip w1
    = (Returned sectors, w2)
    /\ fetchCountyTotals server JSON_parse apiKey (state c) (county c) zip w2
       = (Returned totals, w3)
    /\ fetchEmploymentDataForZip server JSON_parse engine_message apiKey zip w
       = (Returned result, w3)
    /\ Forall2 (carries_totals totals) sectors result.
Proof.
  intros Hcounty.
  unfold fetchEmploymentDataForZip. unfold try_catch at 1. unfold bind at 1.
  rewrite Hcounty. unfold bind.
  rewrite fetchEmploymentByCounty_run.
  destruct (fetchCountyTotals_spec (state c) (county c) zip
              (sent_all (sector_url apiKey (state c) (county c) <$> naicsCodes) w1))
    as (totals & Htot & _).
  rewrite Htot. eexists _, _, totals, _, _.
  split; [done|]. split; [done|]. split; [done|].
  apply Forall2_fmap_r, Forall_Forall2_diag, Forall_forall.
  intros sector _. by repeat split.
Qed.

(** C3.  When the HUD lookup returns a county, [getCountyFromZip] returns
    it.  When the HUD lookup throws, [getCountyFromZip] returns what the
    static table holds for the ZIP code, [zipToCounty[zipCode]], or [null]
    when it holds nothing; in that last case [fetchEmploymentDataForZip]
    throws an [ApiError].  What the table holds for a ZIP code is its entry
    in the literal; this is so for every string but the twelve names that
    objects inherit, hence for every string of digits. *)
Theorem C3_county_resolution_order zip w :
  match countyFromZip_viaHUD server JSON_parse zip w with
  | (Returned c, w') =>
      getCountyFromZip server JSON_parse zip w = (Returned (Some c), w')
  | (Threw _, w') =>
      getCountyFromZip server JSON_parse zip w
      = (Returned (getCountyFallback zip), w')
      /\ (getCountyFallback zip = None ->
          fetchEmploymentDataForZip server JSON_parse engine_message apiKey zip w
          = (Threw (ApiError ("Failed to fetch employment data: "
                              ++ "Could not find county for ZIP code " ++ zip)),
             w'))
  end
  /\ (zip ∉ inherited_names ->
      getCountyFallback zip = lookup_key zip zipToCounty)
  /\ (Str.forallb Str.is_digit zip = true -> zip ∉ inherited_names).
Proof.
  split; [|split].
  - unfold fetchEmploymentDataForZip, getCountyFromZip, try_catch, bind.
    set (found := getCountyFallback zip).
    destruct (countyFromZip_viaHUD server JSON_parse zip w) as [[c|e] w'];
      [done|].
    simpl. split; [done|]. by intros ->.
  - intros Hzip. unfold getCountyFallback, member.
    destruct (lookup_key zip zipToCounty); [done|].
    by rewrite bool_decide_eq_false_2.
  - intros Hd Hin. unfold inherited_names in Hin.
    repeat (apply elem_of_cons in Hin as [->|Hin]; [done|]).
    by apply elem_of_nil in Hin.
Qed.

(** C4.  In a reachable world [fetchNAICSCodes] returns, without throwing,
    a list that is not empty.  When the cache has no entry for the year, the
    list is that of the chart method if it is not empty, else that of the
    sweep method if it is not empty, else the static list, which is not
    empty. *)
Theorem C4_all_codes_never_empty year w :
  reachable server JSON_parse engine_message apiKey w ->
  exists l w',
    fetchNAICSCodes server JSON_parse year w = (Returned l, w')
    /\ l <> []
    /\ getFallbackNAICSCodes <> []
    /\ (cache w !! ("all-" ++ year) = None ->
        exists chart w1,
          tryChartMethod server JSON_parse year w = (Returned chart, w1)
          /\ match chart with
             | _ :: _ => l = chart
             | [] =>
                 exists sweep w2,
                   sweepSearchMethod server JSON_parse year w1 = (Returned sweep, w2)
                   /\ match sweep with
                      | _ :: _ => l = sweep
                      | [] => l = getFallbackNAICSCodes
                      end
             end).
Proof.
  intros [_ Hall]%reachable_cache_ok.
  destruct (cache w !! ("all-" ++ year)) as [l|] eqn:Hk.
  - exists l, w. rewrite (fetchNAICSCodes_hit _ _ _ Hk).
    split; [done|]. split; [by eapply Hall|]. by split.
  - destruct (fetchNAICSCodes_miss _ _ Hk)
      as (chart & w1 & w2 & l & Hchart & Hsel & Hl & ->).
    eexists l, _. split; [done|]. split; [done|]. split; [done|].
    intros _. exists chart, w1. split; [done|].
    destruct chart as [|c chart]; [|by destruct Hsel].
    destruct Hsel as (sweep & Hsweep & ->). exists sweep, w2.
    split; [done|]. by destruct sweep.
Qed.

(** C5.  In a reachable world [getChildCodes] returns a list in which each
    code is one character longer than the parent code, starts with it and
    is made of digits only, no code occurs twice and the codes ascend in
    lexicographic order. *)
Theorem C5_children_are_direct parent w :
  reachable server JSON_parse engine_message apiKey w ->
  exists l w',
    getChildCodes server JSON_parse parent w = (Returned l, w')
    /\ Forall (fun c =>
                 String.length (code c) = (String.length parent + 1)%nat
                 /\ String.prefix parent (code c) = true
                 /\ Str.forallb Str.is_digit (code c) = true) l
    /\ NoDup (code <$> l)
    /\ StronglySorted (fun a b => String.leb a b = true) (code <$> l).
Proof.
  intros Hw%reachable_cache_ok.
  destruct (getChildCodes_spec parent w) as (l & w' & Hrun & _ & Hl & _).
  exists l, w'. split; [done|]. by apply Hl.
Qed.

(** C6.  The lists that [fetchEmploymentByCounty] and [fetchSubIndustries]
    return hold only items with a positive count of employees, of
    establishments or of payroll, in non-increasing order of employees. *)
Theorem C6_results_ranked st co parent zip w :
  (exists l w',
     fetchEmploymentByCounty server JSON_parse apiKey st co zip w = (Returned l, w')
     /\ Forall (fun item => 0 < employees item \/ 0 < establishments item
                            \/ 0 < payroll item) l
     /\ Sorted (fun a b => employees a >= employees b) l)
  /\ (exists l w',
        fetchSubIndustries server JSON_parse apiKey st co parent zip w
        = (Returned l, w')
        /\ Forall (fun item => 0 < employees item \/ 0 < establishments item
                               \/ 0 < payroll item) l
        /\ Sorted (fun a b => employees a >= employees b) l).
Proof.
  split; [apply fetchEmploymentByCounty_ranked|].
  destruct (fetchSubIndustries_spec st co parent zip w)
    as (children & w1 & results & w' & _ & -> & _).
  eexists _, _. split; [done|].
  split; [apply rank_has_data | apply rank_sorted].
Qed.

(** C7.  In a reachable world every item that [fetchSubIndustries] returns
    has the code of one of the children that [getChildCodes] returns for
    the parent, hence a code one character longer than the parent code,
    and its [level] is the length of the parent code plus one. *)
Theorem C7_drill_down_one_level st co parent zip w :
  reachable server JSON_parse engine_message apiKey w ->
  exists children w1 l w',
    getChildCodes server JSON_parse parent w = (Returned children, w1)
    /\ fetchSubIndustries server JSON_parse apiKey st co parent zip w
       = (Returned l, w')
    /\ Forall (fun item =>
                 naicsCode item ∈ code <$> children
                 /\ String.length (naicsCode item) = (String.length parent + 1)%nat
                 /\ level item = Some (String.length parent + 1)%nat) l.
Proof.
  intros Hw%reachable_cache_ok.
  destruct (fetchSubIndustries_spec st co parent zip w)
    as (children & w1 & results & w' & Hget & Hrun & Hres & _).
  exists children, w1, (rank results), w'. split; [done|]. split; [done|].
  destruct (getChildCodes_spec parent w) as (l' & w1' & Hget' & _ & Hok' & _).
  rewrite Hget in Hget'. injection Hget' as <- <-.
  destruct (Hok' Hw) as [Hdirect _]. rewrite Forall_forall in Hdirect.
  apply rank_Forall. eapply Forall_impl; [exact Hres|].
  intros item (c & Hc & -> & ->).
  destruct (Hdirect c Hc) as (Hlen & _).
  split; [by apply list_elem_of_fmap_2|]. by rewrite Hlen.
Qed.

Lemma fetchNAICSCodes_spec year w :
  exists l w',
    fetchNAICSCodes server JSON_parse year w = (Returned l, w')
    /\ cache w' !! ("all-" ++ year) = Some l.
Proof.
  destruct (cache w !! ("all-" ++ year)) as [l|] eqn:Hk.
  - exists l, w. by rewrite (fetchNAICSCodes_hit _ _ _ Hk).
  - destruct (fetchNAICSCodes_miss _ _ Hk) as (ch & w1 & w2 & l & _ & _ & _ & ->).
    eexists _, _. split; [done|]. simpl. apply lookup_insert_eq.
Qed.

(** C8.  The cache never loses an entry.  Once [getChildCodes] has
    returned for a parent code, after any further calls of the services it
    returns the same list again and leaves the world as it finds it: no
    request is sent.  The same holds of [fetchNAICSCodes] and a year. *)
Theorem C8_lookups_are_cached (calls : list call) :
  (forall parent w l w1,
     getChildCodes server JSON_parse parent w = (Returned l, w1) ->
     let later := history server JSON_parse engine_message apiKey w1 calls in
     getChildCodes server JSON_parse parent later = (Returned l, later))
  /\ (forall year w l w1,
        fetchNAICSCodes server JSON_parse year w = (Returned l, w1) ->
        let later := history server JSON_parse engine_message apiKey w1 calls in
        fetchNAICSCodes server JSON_parse year later = (Returned l, later))
  /\ (forall w,
        cache w ⊆ cache (history server JSON_parse engine_message apiKey w calls)).
Proof.
  split; [|split].
  - intros parent w l w1 Hrun.
    destruct (getChildCodes_spec parent w) as (l' & w' & Hrun' & Hk & _).
    rewrite Hrun in Hrun'. injection Hrun' as <- <-.
    apply getChildCodes_hit.
    destruct (history_grows calls w1) as [Hsub _].
    by eapply lookup_weaken.
  - intros year w l w1 Hrun.
    destruct (fetchNAICSCodes_spec year w) as (l' & w' & Hrun' & Hk).
    rewrite Hrun in Hrun'. injection Hrun' as <- <-.
    apply fetchNAICSCodes_hit.
    destruct (history_grows calls w1) as [Hsub _].
    by eapply lookup_weaken.
  - intros w. apply history_grows.
Qed.

Lemma sector_data_collects st co zip codes w k nc items wk :
  codes !! k = Some nc ->
  fetchCountySectorData server JSON_parse apiKey st co nc zip
    (sent_all (sector_url apiKey st co <$> take k codes) w) = (Returned items, wk) ->
  items ⊆ sector_data server JSON_parse apiKey st co zip codes w.
Proof.
  revert w k.
  induction codes as [|c rest IH]; intros w k Hk Hrun; [done|].
  destruct k as [|k]; simpl in *.
  - injection Hk as ->. rewrite sent_all_nil in Hrun. rewrite Hrun. simpl.
    intros x Hx. apply elem_of_app. by left.
  - rewrite <- sent_all_cons in Hrun.
    intros x Hx. apply elem_of_app. right. by eapply IH.
Qed.

Lemma sector_row_reads nc acc row acc' :
  sector_row nc acc row = Returned acc' -> row_is_read nc row.
Proof.
  unfold row_is_read, sector_row, Js.bind. intros Hrow.
  repeat match type of Hrow with
         | match ?x with _ => _ end = _ => destruct x; try discriminate
         end; by eexists.
Qed.

Lemma null_row_not_read nc : ~ row_is_read nc JNull.
Proof. by intros [results Hrow]. Qed.

Lemma scan_reads nc rows acc results :
  scan (sector_row nc) rows acc = (results, None) ->
  Forall (row_is_read nc) rows.
Proof.
  revert acc. induction rows as [|row rows IH]; intros acc; simpl; [done|].
  destruct (sector_row nc acc row) as [acc'|e] eqn:Hrow; [|done].
  intros Hscan. constructor; [by eapply sector_row_reads | by eapply IH].
Qed.

(** [fetchCountySectorData] returns items only when everything went well:
    the reply is a success with a body that is not blank and is the JSON of
    an array, and every row after the header was read without an
    exception. *)
Lemma fetchCountySectorData_success st co nc zip w l w' :
  fetchCountySectorData server JSON_parse apiKey st co nc zip w = (Returned l, w') ->
  l <> [] ->
  exists status t header rows,
    next_reply server (sector_url apiKey st co nc) w = Response status (Some t)
    /\ ok status = true
    /\ Str.trim t <> ""
    /\ JSON_parse t = Some (JArr (header :: rows))
    /\ Forall (row_is_read nc) rows.
Proof.
  unfold fetchCountySectorData, try_catch, bind. fold (sector_url apiKey st co nc).
  rewrite fetch_run.
  pose proof (scan_reads nc) as Hreads.
  set (sc := scan (sector_row nc)) in *.
  destruct (next_reply server _ w) as [|status body]; simpl.
  { by intros [= <- _]. }
  destruct (ok status) eqn:Hok; simpl; [|by intros [= <- _]].
  unfold text. destruct body as [t|]; simpl; [|by intros [= <- _]].
  destruct (Str.is_empty (Str.trim t)) eqn:Hblank; simpl.
  { by intros [= <- _]. }
  unfold parse. destruct (JSON_parse t) as [data|] eqn:Hparse; simpl.
  2:{ by intros [= <- _]. }
  destruct data as [| | | |[|header [|row rows]]|]; simpl;
    try by intros [= <- _].
  specialize (Hreads (row :: rows) []).
  destruct (sc (row :: rows) []) as [results [e|]]; simpl.
  { by intros [= <- _]. }
  intros [= <- _] _. exists status, t, header, (row :: rows).
  split; [done|]. split; [done|]. split.
  - intros Ht. apply is_empty_true in Ht. congruence.
  - split; [done|]. by eapply Hreads.
Qed.

(** [fetchCountyTotals] returns totals other than the three zeros only
    when everything went well. *)
Lemma fetchCountyTotals_success st co zip w t w' :
  fetchCountyTotals server JSON_parse apiKey st co zip w = (Returned t, w') ->
  t <> zero_totals ->
  exists status text header row rest emp estab payann,
    next_reply server (totals_url apiKey st co) w = Response status (Some text)
    /\ ok status = true
    /\ Str.trim text <> ""
    /\ JSON_parse text = Some (JArr (header :: row :: rest))
    /\ Js.index row 1 = Returned emp
    /\ Js.index row 2 = Returned estab
    /\ Js.index row 3 = Returned payann
    /\ parseEmployeeCount emp = Returned (total_employees t)
    /\ parseEmployeeCount estab = Returned (total_establishments t)
    /\ parsePayroll payann = Returned (total_payroll t).
Proof.
  unfold fetchCountyTotals, try_catch, bind. fold (totals_url apiKey st co).
  rewrite fetch_run.
  destruct (next_reply server _ w) as [|status body]; simpl.
  { by intros [= <- _]. }
  destruct (ok status) eqn:Hok; simpl; [|by intros [= <- _]].
  unfold text. destruct body as [txt|]; simpl; [|by intros [= <- _]].
  destruct (Str.is_empty (Str.trim txt)) eqn:Hblank; simpl.
  { by intros [= <- _]. }
  unfold parse. destruct (JSON_parse txt) as [data|] eqn:Hparse; simpl.
  2:{ by intros [= <- _]. }
  destruct data as [| | | |[|header [|row rows]]|]; simpl;
    try by intros [= <- _].
  unfold lift, Js.bind.
  destruct (Js.index row 1) as [emp|] eqn:H1; [|by intros [= <- _]].
  destruct (parseEmployeeCount emp) as [e|] eqn:He; [|by intros [= <- _]].
  destruct (Js.index row 2) as [estab|] eqn:H2; [|by intros [= <- _]].
  destruct (parseEmployeeCount estab) as [es|] eqn:Hes; [|by intros [= <- _]].
  destruct (Js.index row 3) as [payann|] eqn:H3; [|by intros [= <- _]].
  destruct (parsePayroll payann) as [pa|] eqn:Hpa; [|by intros [= <- _]].
  intros [= <- _] _.
  exists status, txt, header, row, rows, emp, estab, payann.
  repeat split; try done.
  intros Ht. apply is_empty_true in Ht. congruence.
Qed.

Lemma drill_collects st co zip (children : list NAICSCode) acc w :
  for_each
    (fun results childCode =>
       try_catch
         (childData <- fetchCountySectorData server JSON_parse apiKey st co
                         (code childCode) zip ;;
          ret (results ++
               (with_level (String.length (code childCode)) <$> childData))%list)
         (fun _ => ret results))
    children acc w
  = (Returned (acc ++ child_data server JSON_parse apiKey st co zip children w)%list,
     sent_all (sector_url apiKey st co <$> (code <$> children)) w).
Proof.
  revert acc w.
  induction children as [|c rest IH]; intros acc w; simpl.
  - unfold ret. by rewrite app_nil_r, sent_all_nil.
  - unfold bind at 1, try_catch, bind.
    destruct (fetchCountySectorData_spec st co (code c) zip w) as (l & -> & _).
    simpl. rewrite IH, sent_all_cons. by rewrite <- app_assoc.
Qed.

Lemma fetchSubIndustries_run st co parent zip w :
  exists children w1,
    getChildCodes server JSON_parse parent w = (Returned children, w1)
    /\ fetchSubIndustries server JSON_parse apiKey st co parent zip w
       = (Returned (rank (child_data server JSON_parse apiKey st co zip children w1)),
          sent_all (sector_url apiKey st co <$> (code <$> children)) w1).
Proof.
  destruct (getChildCodes_spec parent w) as (children & w1 & Hget & _).
  exists children, w1. split; [done|].
  unfold fetchSubIndustries. unfold try_catch at 1. unfold bind at 1.
  rewrite Hget. case_bool_decide as Hlen.
  - destruct children; [|done]. simpl. by rewrite sent_all_nil.
  - unfold bind at 1. by rewrite drill_collects.
Qed.

Lemma child_data_collects st co zip (children : list NAICSCode) w k c items wk :
  children !! k = Some c ->
  fetchCountySectorData server JSON_parse apiKey st co (code c) zip
    (sent_all (sector_url apiKey st co <$> (code <$> take k children)) w)
  = (Returned items, wk) ->
  with_level (String.length (code c)) <$> items
  ⊆ child_data server JSON_parse apiKey st co zip children w.
Proof.
  revert w k.
  induction children as [|d rest IH]; intros w k Hk Hrun; [done|].
  destruct k as [|k]; simpl in *.
  - injection Hk as ->. rewrite sent_all_nil in Hrun. rewrite Hrun. simpl.
    intros x Hx. apply elem_of_app. by left.
  - rewrite <- sent_all_cons in Hrun.
    intros x Hx. apply elem_of_app. right. by eapply IH.
Qed.

Lemma child_data_failed st co zip (children : list NAICSCode) w :
  (forall k c, children !! k = Some c ->
     let wk := sent_all (sector_url apiKey st co <$> (code <$> take k children)) w in
     failed JSON_parse (next_reply server (sector_url apiKey st co (code c)) wk)
     \/ blank (next_reply server (sector_url apiKey st co (code c)) wk)) ->
  child_data server JSON_parse apiKey st co zip children w = [].
Proof.
  revert w. induction children as [|d rest IH]; intros w Hall; [done|].
  simpl.
  destruct (fetchCountySectorData_spec st co (code d) zip w) as (l & -> & Hl & _).
  simpl. rewrite Hl.
  - simpl. apply IH. intros k c Hk. specialize (Hall (S k) c Hk).
    simpl in Hall. by rewrite <- sent_all_cons in Hall.
  - specialize (Hall 0%nat d eq_refl). simpl in Hall.
    by rewrite sent_all_nil in Hall.
Qed.

Lemma has_data_with_level n item : has_data (with_level n item) = has_data item.
Proof. done. Qed.

(** C10.  [fetchCountySectorData], [fetchCountyTotals] and
    [fetchSubIndustries] never throw.  The first returns the empty list and
    the second three zeros when the reply to their request has failed
    (rejected request, status that is not a success, unreadable body,
    malformed JSON) or is blank, and when reading a row of the table throws,
    as reading a row that is [null] does, whatever the rows before it hold:
    the first returns items, and the second totals other than zeros, only
    when every step went well.  [fetchSubIndustries] keeps, with its level,
    whatever [fetchCountySectorData] returns for each child, whichever
    other children failed, and returns the empty list when the reply for
    each child fails.  [fetchEmploymentByCounty] does not throw either: it
    sends the request of each of the 24 sectors, and whatever
    [fetchCountySectorData] returns for a sector is part of its result,
    whichever other sectors failed. *)
Theorem C10_fetchers_never_throw st co nc zip w :
  (exists l w',
     fetchCountySectorData server JSON_parse apiKey st co nc zip w = (Returned l, w')
     /\ (failed JSON_parse (next_reply server (sector_url apiKey st co nc) w)
         \/ blank (next_reply server (sector_url apiKey st co nc) w) -> l = [])
     /\ (forall status t header rows row,
           next_reply server (sector_url apiKey st co nc) w
           = Response status (Some t) ->
           JSON_parse t = Some (JArr (header :: rows)) ->
           row ∈ rows -> ~ row_is_read nc row -> l = [])
     /\ (l <> [] ->
         exists status t header rows,
           next_reply server (sector_url apiKey st co nc) w
           = Response status (Some t)
           /\ ok status = true
           /\ Str.trim t <> ""
           /\ JSON_parse t = Some (JArr (header :: rows))
           /\ Forall (row_is_read nc) rows))
  /\ ~ row_is_read nc JNull
  /\ (exists t w',
        fetchCountyTotals server JSON_parse apiKey st co zip w = (Returned t, w')
        /\ (failed JSON_parse (next_reply server (totals_url apiKey st co) w)
            \/ blank (next_reply server (totals_url apiKey st co) w) ->
            t = mkTotals 0 0 0)
        /\ (forall status text header rest,
              next_reply server (totals_url apiKey st co) w
              = Response status (Some text) ->
              JSON_parse text = Some (JArr (header :: JNull :: rest)) ->
              t = mkTotals 0 0 0)
        /\ (t <> mkTotals 0 0 0 ->
            exists status text header row rest emp estab payann,
              next_reply server (totals_url apiKey st co) w
              = Response status (Some text)
              /\ ok status = true
              /\ Str.trim text <> ""
              /\ JSON_parse text = Some (JArr (header :: row :: rest))
              /\ Js.index row 1 = Returned emp
              /\ Js.index row 2 = Returned estab
              /\ Js.index row 3 = Returned payann
              /\ parseEmployeeCount emp = Returned (total_employees t)
              /\ parseEmployeeCount estab = Returned (total_establishments t)
              /\ parsePayroll payann = Returned (total_payroll t)))
  /\ (exists children w1 l w',
        getChildCodes server JSON_parse nc w = (Returned children, w1)
        /\ fetchSubIndustries server JSON_parse apiKey st co nc zip w = (Returned l, w')
        /\ ((forall k c, children !! k = Some c ->
               let wk := sent_all (sector_url apiKey st co
                                     <$> (code <$> take k children)) w1 in
               failed JSON_parse
                 (next_reply server (sector_url apiKey st co (code c)) wk)
               \/ blank (next_reply server (sector_url apiKey st co (code c)) wk)) ->
            l = [])
        /\ (forall k c items wk,
              children !! k = Some c ->
              fetchCountySectorData server JSON_parse apiKey st co (code c) zip
                (sent_all (sector_url apiKey st co <$> (code <$> take k children)) w1)
              = (Returned items, wk) ->
              with_level (String.length (code c)) <$> items ⊆ l))
  /\ (exists l w',
        fetchEmploymentByCounty server JSON_parse apiKey st co zip w = (Returned l, w')
        /\ requests w' = (requests w ++ (sector_url apiKey st co <$> naicsCodes))%list
        /\ forall k sector items wk,
             naicsCodes !! k = Some sector ->
             fetchCountySectorData server JSON_parse apiKey st co sector zip
               (sent_all (sector_url apiKey st co <$> take k naicsCodes) w)
             = (Returned items, wk) ->
             items ⊆ l).
Proof.
  split; [|split; [apply null_row_not_read|split; [|split]]].
  - destruct (fetchCountySectorData_spec st co nc zip w) as (l & Hrun & Hf & _).
    exists l, (sent (sector_url apiKey st co nc) w).
    split; [done|]. split; [done|].
    pose proof (fetchCountySectorData_success _ _ _ _ _ _ _ Hrun) as Hok.
    split; [|exact Hok].
    intros status t header rows row Hreply Hparse Hrow Hthrows.
    destruct l as [|item l]; [done|]. exfalso.
    destruct Hok as (status' & t' & header' & rows' & Hreply' & _ & _ & Hparse' & Hall);
      [done|].
    rewrite Hreply in Hreply'. injection Hreply' as <- <-.
    rewrite Hparse in Hparse'. injection Hparse' as <- <-.
    rewrite Forall_forall in Hall. by apply Hthrows, Hall.
  - destruct (fetchCountyTotals_spec st co zip w) as (t & Hrun & Hf).
    exists t, (sent (totals_url apiKey st co) w).
    split; [done|]. split; [done|].
    pose proof (fetchCountyTotals_success _ _ _ _ _ _ Hrun) as Hok.
    split; [|exact Hok].
    intros status text header rest Hreply Hparse.
    assert (Hdec : t = mkTotals 0 0 0 \/ t <> mkTotals 0 0 0).
    { destruct t as [e es pa].
      destruct (decide (e = 0 /\ es = 0 /\ pa = 0)) as [(-> & -> & ->)|Hne];
        [by left | right].
      intros [= -> -> ->]. by apply Hne. }
    destruct Hdec as [|Hne]; [done|]. exfalso.
    destruct (Hok Hne)
      as (status' & text' & header' & row & rest' & emp & _ & _ & Hreply' & _ & _
          & Hparse' & Hrow & _).
    rewrite Hreply in Hreply'. injection Hreply' as <- <-.
    rewrite Hparse in Hparse'. by injection Hparse' as <- <- <-.
  - destruct (fetchSubIndustries_run st co nc zip w) as (children & w1 & Hget & Hrun).
    eexists children, w1, _, _. split; [done|]. split; [exact Hrun|]. split.
    + intros Hall. by rewrite child_data_failed.
    + intros k c items wk Hk Hitems item Hitem.
      rewrite rank_perm. apply list_elem_of_In, filter_In. split.
      * apply list_elem_of_In. by eapply child_data_collects.
      * apply list_elem_of_fmap in Hitem as (it & -> & Hit).
        rewrite has_data_with_level.
        pose proof (fetchCountySectorData_has_data _ _ _ _ _ _ _ Hitems) as Hd.
        rewrite Forall_forall in Hd. by apply Hd.
  - rewrite fetchEmploymentByCounty_run. eexists _, _.
    split; [done|]. split; [done|].
    intros k sector items wk Hk Hrun item Hitem.
    rewrite rank_perm. apply list_elem_of_In, filter_In. split.
    + apply list_elem_of_In. by eapply sector_data_collects.
    + pose proof (fetchCountySectorData_has_data _ _ _ _ _ _ _ Hrun) as Hd.
      rewrite Forall_forall in Hd. by apply Hd.
Qed.

End Facts.

(** ** The county of a drill-down *)

Lemma getStateCountyFromLocation_default zipCode location :
  lookup_key zipCode zipToStateCounty = None ->
  zipCode ∉ inherited_names ->
  getStateCountyFromLocation zipCode location = ("25", "017").
Proof.
  intros Hnone Hzip. unfold getStateCountyFromLocation, member.
  rewrite Hnone. by rewrite bool_decide_eq_false_2.
Qed.

Example demo_search :
  (fetchEmploymentDataForZip Demo.server Demo.parse Demo.message Demo.apiKey
     "02459" initial).1
  = Returned
      [ mkProcessed (JStr "NAICS 23") 300 20 0 "23" (JStr "Unknown Location")
          (JStr "") (Some 5000) (Some 400) (Some 70000000) None None None
          (Some 2%nat);
        mkProcessed (JStr "NAICS 62") 120 8 900000 "62" (JStr "Unknown Location")
          (JStr "") (Some 5000) (Some 400) (Some 70000000) None None None
          (Some 2%nat) ].
Proof. vm_compute. reflexivity. Qed.

Example demo_drill_down :
  (fetchSubIndustries Demo.server Demo.parse Demo.apiKey "25" "017" "62" "02459"
     initial).1
  = Returned
      [ mkProcessed (JStr "NAICS 622") 120 8 900000 "622"
          (JStr "Unknown Location") (JStr "") None None None None None None
          (Some 3%nat) ].
Proof. vm_compute. reflexivity. Qed.

(** C1.  The claim fails on the code.  For ZIP 10002 the search resolves
    New York County (36/061), through the HUD service and through the
    static table alike, and the drill-down of the same page asks
    [fetchSubIndustries] for Middlesex County (25/017): the view looks the
    ZIP up in a table of four ZIP codes and falls back on 25/017. *)
Theorem C1_drill_down_asks_for_default_county :
  (getCountyFromZip Demo.server Demo.parse "10002" initial).1
  = Returned (Some (mkCounty "36" "061" "New York County, NY"))
  /\ getCountyFallback "10002" = Some (mkCounty "36" "061" "New York County, NY")
  /\ forall server JSON_parse apiKey location naicsCode,
       expand server JSON_parse apiKey "10002" location naicsCode
       = fetchSubIndustries server JSON_parse apiKey "25" "017" naicsCode "10002".
Proof. split; [by vm_compute|]. split; [by vm_compute | done]. Qed.

(** ** The claims on the worked example *)



Lemma C2_witness :
  getCountyFromZip Demo.server Demo.parse "02459" initial
  = (Returned (Some Demo.middlesex),
     mkWorld ["https://www.huduser.gov/hudapi/public/usps?type=2&query=02459"] ∅)
  /\ exists result w3,
       fetchEmploymentDataForZip Demo.server Demo.parse Demo.message Demo.apiKey
         "02459" initial = (Returned result, w3)
       /\ length result = 2%nat.
Proof.
  assert (H : getCountyFromZip Demo.server Demo.parse "02459" initial
    = (Returned (Some Demo.middlesex),
       mkWorld ["https://www.huduser.gov/hudapi/public/usps?type=2&query=02459"] ∅)).
  { vm_compute. reflexivity. }
  split; [exact H|].
  destruct (C2_sectors_carry_county_totals Demo.server Demo.parse Demo.message
              Demo.apiKey "02459" initial _ _ H)
    as (sectors & w2 & totals & w3 & result & Hs & _ & Hrun & Hall).
  exists result, w3. split; [exact Hrun|].
  rewrite <- (Forall2_length _ _ _ Hall).
  vm_compute in Hs. injection Hs as <- _. reflexivity.
Defined.

Lemma C3_witness :
  getCountyFallback "99999" = None
  /\ fetchEmploymentDataForZip Demo.server Demo.parse Demo.message Demo.apiKey
       "99999" initial
     = (Threw (ApiError ("Failed to fetch employment data: "
                         ++ "Could not find county for ZIP code 99999")),
        mkWorld ["https://www.huduser.gov/hudapi/public/usps?type=2&query=99999"] ∅).
Proof.
  assert (H : getCountyFallback "99999" = None) by reflexivity.
  split; [exact H|].
  pose proof (proj1 (C3_county_resolution_order Demo.server Demo.parse
                       Demo.message Demo.apiKey "99999" initial)) as K.
  vm_compute in K. destruct K as [_ K].
  vm_compute. apply K. reflexivity.
Defined.

Lemma C4_witness :
  reachable Demo.server Demo.parse Demo.message Demo.apiKey initial
  /\ exists l w',
       fetchNAICSCodes Demo.server Demo.parse "2022" initial = (Returned l, w')
       /\ l <> [].
Proof.
  split; [apply reachable_initial|].
  destruct (C4_all_codes_never_empty Demo.server Demo.parse Demo.message
              Demo.apiKey "2022" initial (reachable_initial _ _ _ _))
    as (l & w' & Hrun & Hl & _).
  exists l, w'. split; [exact Hrun | exact Hl].
Defined.

Lemma C5_witness :
  reachable Demo.server Demo.parse Demo.message Demo.apiKey Demo.after_search
  /\ exists l w',
       getChildCodes Demo.server Demo.parse "62" Demo.after_search = (Returned l, w')
       /\ NoDup (code <$> l).
Proof.
  assert (H : reachable Demo.server Demo.parse Demo.message Demo.apiKey
                Demo.after_search).
  { exists [GetChildCodes "62"]. vm_compute. reflexivity. }
  split; [exact H|].
  destruct (C5_children_are_direct Demo.server Demo.parse Demo.message
              Demo.apiKey "62" Demo.after_search H)
    as (l & w' & Hrun & _ & Hnd & _).
  exists l, w'. split; [exact Hrun | exact Hnd].
Defined.

Lemma C7_witness :
  reachable Demo.server Demo.parse Demo.message Demo.apiKey initial
  /\ exists l w',
       fetchSubIndustries Demo.server Demo.parse Demo.apiKey "25" "017" "62"
         "02459" initial = (Returned l, w')
       /\ Forall (fun item => level item = Some 3%nat) l.
Proof.
  split; [apply reachable_initial|].
  destruct (C7_drill_down_one_level Demo.server Demo.parse Demo.message
              Demo.apiKey "25" "017" "62" "02459" initial
              (reachable_initial _ _ _ _))
    as (children & w1 & l & w' & _ & Hrun & Hall).
  exists l, w'. split; [exact Hrun|].
  eapply Forall_impl; [exact Hall|]. by intros item (_ & _ & ->).
Defined.

Lemma C8_witness :
  getChildCodes Demo.server Demo.parse "62" initial
  = (Returned Demo.hospitals, Demo.after_search)
  /\ let later :=
       history Demo.server Demo.parse Demo.message Demo.apiKey
         Demo.after_search [FetchNAICSCodes "2022"; GetChildCodes "23"] in
     getChildCodes Demo.server Demo.parse "62" later
     = (Returned Demo.hospitals, later).
Proof.
  assert (H : getChildCodes Demo.server Demo.parse "62" initial
              = (Returned Demo.hospitals, Demo.after_search)).
  { vm_compute. reflexivity. }
  split; [exact H|].
  exact (proj1 (C8_lookups_are_cached Demo.server Demo.parse Demo.message
                  Demo.apiKey [FetchNAICSCodes "2022"; GetChildCodes "23"])
           "62" initial Demo.hospitals Demo.after_search H).
Defined.

Lemma C10_witness :
  failed Demo.parse
    (next_reply Demo.server (sector_url Demo.apiKey "25" "017" "44") initial)
  /\ (fetchCountySectorData Demo.server Demo.parse Demo.apiKey "25" "017" "44"
        "02459" initial).1 = Returned []
  /\ DemoFaults.parse "[[0,0,0,0,0,0],[0,0,120,8,900,0],null]"
     = Some (JArr [Demo.header;
                   JArr [JNum 0; JNum 0; JNum 120; JNum 8; JNum 900; JNum 0];
                   JNull])
  /\ (fetchCountySectorData DemoFaults.server DemoFaults.parse Demo.apiKey
        "25" "017" "62" "02459" initial).1 = Returned [].
Proof.
  assert (H : failed Demo.parse
    (next_reply Demo.server (sector_url Demo.apiKey "25" "017" "44") initial)).
  { left. reflexivity. }
  split; [exact H|]. split.
  { destruct (C10_fetchers_never_throw Demo.server Demo.parse Demo.apiKey
                "25" "017" "44" "02459" initial)
      as [(l & w' & Hrun & Hfail & _) _].
    rewrite Hrun. simpl. f_equal. apply Hfail. by left. }
  split; [reflexivity|].
  destruct (C10_fetchers_never_throw DemoFaults.server DemoFaults.parse Demo.apiKey
              "25" "017" "62" "02459" initial)
    as [(l & w' & Hrun & _ & Hrow & _) [Hnull _]].
  rewrite Hrun. simpl. f_equal.
  eapply (Hrow 200 _ _ _ JNull); [reflexivity | reflexivity | | exact Hnull].
  apply list_elem_of_further, list_elem_of_here.
Defined.

(** * Further properties of the code *)

(** ** Cells that are not strings *)

Lemma read_int_pretty_Z (n : Z) : Str.read_int (pretty n) = Some n.
Proof.
  destruct n as [|p|p].
  - done.
  - apply (read_int_pretty (N.pos p)).
  - pose proof (read_int_numeral "" "-" 0 (N.pos p) "" eq_refl) as H.
    rewrite string_app_empty in H.
    change (pretty (Z.neg p))
      with ("" ++ "-" ++ Str.replicate 0 "0" ++ pretty (N.pos p)).
    rewrite H; [done | | done].
    apply list_elem_of_further, list_elem_of_further, list_elem_of_here.
Qed.

(** X12.  A cell that is a number, an integer of magnitude at most
    [Number.MAX_SAFE_INTEGER], counts as its value and, as payroll, as the
    double product of its value and 1000, which is 1000 times the value
    when that is at most 2^53; a cell that is missing, [null], [false] or
    [true] counts as 0.  None of these throws. *)
Theorem cells_that_are_not_strings (n : Z) :
  Z.abs n <= Num.MAX_SAFE_INTEGER ->
  parseEmployeeCount (Some (JNum n)) = Returned n
  /\ parsePayroll (Some (JNum n)) = Returned (Num.round (n * 1000))
  /\ (Z.abs (n * 1000) <= 2 ^ 53 ->
      parsePayroll (Some (JNum n)) = Returned (n * 1000))
  /\ Forall (fun cell => parseEmployeeCount cell = Returned 0
                         /\ parsePayroll cell = Returned 0)
       [None; Some JNull; Some (JBool false); Some (JBool true)].
Proof.
  intros Hn. unfold Num.MAX_SAFE_INTEGER in Hn.
  assert (Hr : Num.round n = n) by (apply round_safe; lia).
  assert (Hp : parsePayroll (Some (JNum n)) = Returned (Num.round (n * 1000))).
  { unfold parsePayroll, no_figure. cbn.
    destruct (Z.eqb_spec n 0) as [->|Hn0]; [done|]. cbn.
    unfold Str.parseInt. rewrite read_int_pretty_Z. cbn. by rewrite Hr. }
  split; [|split; [exact Hp|split; [|by repeat constructor]]].
  - unfold parseEmployeeCount, no_figure. cbn.
    destruct (Z.eqb_spec n 0) as [->|Hn0]; [done|]. cbn.
    unfold Str.parseInt. rewrite read_int_pretty_Z. cbn. by rewrite Hr.
  - intros Hk. rewrite Hp. by rewrite round_safe.
Qed.

(** ** Strings *)

Lemma string_length_app s t :
  String.length (s ++ t) = (String.length s + String.length t)%nat.
Proof. induction s as [|c s IH]; [done|]. rewrite string_app_cons. simpl. by rewrite IH. Qed.

Lemma string_length_replicate n c : String.length (Str.replicate n c) = n.
Proof. induction n as [|n IH]; simpl; by rewrite ?IH. Qed.

Lemma forallb_replicate p n c : p c = true -> Str.forallb p (Str.replicate n c) = true.
Proof. intros Hc. induction n as [|n IH]; simpl; by rewrite ?Hc, ?IH. Qed.

Lemma forallb_filter p s : Str.forallb p (Str.filter p s) = true.
Proof.
  induction s as [|c s IH]; [done|]. simpl.
  destruct (p c) eqn:Hc; simpl; by rewrite ?Hc.
Qed.

Lemma filter_id p s : Str.forallb p s = true -> Str.filter p s = s.
Proof.
  induction s as [|c s IH]; [done|]. simpl.
  intros [-> Hs]%andb_prop. by rewrite IH.
Qed.

Lemma string_length_take n s : String.length (Str.take n s) = (n `min` String.length s)%nat.
Proof.
  unfold Str.take. revert s.
  induction n as [|n IH]; intros [|c s]; simpl; try done. by rewrite IH.
Qed.

Lemma forallb_take p n s : Str.forallb p s = true -> Str.forallb p (Str.take n s) = true.
Proof.
  unfold Str.take. revert s.
  induction n as [|n IH]; intros [|c s]; simpl; try done.
  intros [-> Hs]%andb_prop. by apply IH.
Qed.

Lemma take_all n s : (String.length s <= n)%nat -> Str.take n s = s.
Proof.
  unfold Str.take. revert s.
  induction n as [|n IH]; intros [|c s]; simpl; try done; [lia|].
  intros Hn. rewrite IH; [done | lia].
Qed.

Lemma hud_zip_five_digits zip :
  String.length (hud_zip zip) = 5%nat
  /\ Str.forallb Str.is_digit (hud_zip zip) = true.
Proof.
  unfold hud_zip, Str.padStart0. split.
  - rewrite string_length_take, string_length_app, string_length_replicate. lia.
  - apply forallb_take. rewrite string_forallb_app, forallb_filter.
    by rewrite forallb_replicate.
Qed.

Lemma hud_zip_id zip :
  String.length zip = 5%nat -> Str.forallb Str.is_digit zip = true ->
  hud_zip zip = zip.
Proof.
  intros Hlen Hdig. unfold hud_zip, Str.padStart0.
  rewrite (filter_id _ _ Hdig), Hlen. simpl. apply take_all. lia.
Qed.

Section MoreFacts.

Variable server : string -> nat -> reply.
Variable JSON_parse : string -> option json.
Variable engine_message : exn -> string.
Variable apiKey : string.

(** ** The HUD lookup *)

Lemma text_moves (R : World -> World -> Prop) `{!PreOrder R} r : moves R (text r).
Proof. unfold text. destruct r.2; [by apply moves_ret | by apply moves_throw]. Qed.

Lemma parse_moves (R : World -> World -> Prop) `{!PreOrder R} t :
  moves R (parse JSON_parse t).
Proof.
  unfold parse. destruct (JSON_parse t); [by apply moves_ret | by apply moves_throw].
Qed.

(** Steps that neither fetch nor touch the cache leave the world as it
    is. *)
Ltac still :=
  repeat first
    [ apply moves_ret; apply _
    | apply moves_throw; apply _
    | apply moves_lift; apply _
    | apply text_moves; apply _
    | apply parse_moves; apply _
    | apply moves_bind; [apply _ | | intros ?]
    | apply moves_try_catch; [apply _ | | intros ?]
    | match goal with
      | |- moves _ (if ?b then _ else _) => destruct b
      | |- moves _ (match ?x with _ => _ end) => destruct x
      end ].

Lemma fetch_then {A} (url : string) (k : Z * option string -> js A) w :
  (forall r, moves eq (k r)) ->
  (bind (fetch server url) k w).2 = sent url w.
Proof.
  intros Hk. unfold bind. rewrite fetch_run.
  destruct (next_reply server url w) as [|status body]; [done|].
  symmetry. apply Hk.
Qed.

Lemma countyFromZip_viaHUD_world zip w :
  (countyFromZip_viaHUD server JSON_parse zip w).2 = sent (hud_url zip) w.
Proof.
  unfold countyFromZip_viaHUD. fold (hud_zip zip). fold (hud_url zip).
  apply fetch_then. intros r. still.
Qed.

Lemma getCountyFromZip_world zip w :
  (getCountyFromZip server JSON_parse zip w).2 = sent (hud_url zip) w.
Proof.
  unfold getCountyFromZip, try_catch, bind.
  pose proof (countyFromZip_viaHUD_world zip w) as Hw.
  by destruct (countyFromZip_viaHUD server JSON_parse zip w) as [[c|e] w'].
Qed.

Lemma substring_split g :
  String.length g = 5%nat ->
  String.length (Str.substring 0 2 g) = 2%nat
  /\ String.length (Str.substring 2 5 g) = 3%nat
  /\ Str.substring 0 2 g ++ Str.substring 2 5 g = g.
Proof.
  intros Hg. do 5 (destruct g as [|? g]; [done|]).
  by destruct g.
Qed.

(** X1.  Whatever string it is given, [countyFromZip_viaHUD] sends one
    request, for a ZIP code of exactly five digits: the digits of the
    input, padded on the left with zeros and cut after the fifth.  A
    five-digit input is asked for as it is. *)
Theorem hud_lookup_asks_for_five_digits zip w :
  requests (countyFromZip_viaHUD server JSON_parse zip w).2
  = (requests w ++ [hud_url zip])%list
  /\ String.length (hud_zip zip) = 5%nat
  /\ Str.forallb Str.is_digit (hud_zip zip) = true
  /\ (String.length zip = 5%nat -> Str.forallb Str.is_digit zip = true ->
      hud_zip zip = zip).
Proof.
  rewrite countyFromZip_viaHUD_world.
  split; [done|]. split; [apply hud_zip_five_digits|].
  split; [apply hud_zip_five_digits | apply hud_zip_id].
Qed.

(** X2.  A county that the HUD lookup returns has a state code of two
    characters and a county code of three, the two halves of a [geoid] of
    five characters in the first result of a reply with a success status. *)
Theorem hud_county_splits_geoid zip w c w' :
  countyFromZip_viaHUD server JSON_parse zip w = (Returned c, w') ->
  String.length (state c) = 2%nat
  /\ String.length (county c) = 3%nat
  /\ exists status t data result,
       next_reply server (hud_url zip) w = Response status (Some t)
       /\ ok status = true
       /\ JSON_parse t = Some data
       /\ Js.index_opt (Js.get_opt (Js.get_opt (Some data) "data") "results") 0
          = Some result
       /\ Js.get_opt (Some result) "geoid" = Some (JStr (state c ++ county c)).
Proof.
  unfold countyFromZip_viaHUD. fold (hud_zip zip). fold (hud_url zip).
  unfold bind. rewrite fetch_run.
  destruct (next_reply server (hud_url zip) w) as [|status body]; [done|].
  unfold text. destruct body as [t|]; [|done]. cbn [snd fst ret].
  destruct (ok status) eqn:Hok; [|done]. cbn [negb].
  unfold parse. destruct (JSON_parse t) as [data|] eqn:Hparse; [|done].
  cbn [ret]. cbv zeta.
  destruct (Js.index_opt _ 0) as [result|] eqn:Hres.
  2:{ by destruct data. }
  destruct (Js.truthy (Some result)) eqn:Htr; cbn [negb].
  2:{ by destruct data. }
  destruct (Js.get_opt (Some result) "geoid") as [geoid|] eqn:Hgeo; [|done].
  destruct (Js.truthy (Some geoid)) eqn:Htg; [|done]. cbn [negb orb].
  destruct (Js.is_number (length_of (Some geoid)) 5) eqn:Hlen; [|done].
  cbn [negb].
  destruct geoid as [| | |g| |]; try done.
  simpl in Hlen. apply Z.eqb_eq in Hlen.
  unfold lift.
  destruct (Js.interpolate _) as [cn|]; [|done].
  destruct (Js.interpolate _) as [sn|]; [|done].
  intros [= <- _]. cbn [state county].
  destruct (substring_split g) as (H2 & H3 & Hg); [lia|].
  split; [done|]. split; [done|].
  exists status, t, data, result. by rewrite Hg.
Qed.

(** ** The search *)

Lemma getCountyFromZip_returns zip w :
  exists found,
    getCountyFromZip server JSON_parse zip w = (Returned found, sent (hud_url zip) w).
Proof.
  pose proof (getCountyFromZip_world zip w) as Hw.
  unfold getCountyFromZip, try_catch, bind in *.
  destruct (countyFromZip_viaHUD server JSON_parse zip w) as [[c|e] w'];
    simpl in *; subst; by eexists.
Qed.

Lemma fetchEmploymentDataForZip_found zip w c :
  (getCountyFromZip server JSON_parse zip w).1 = Returned (Some c) ->
  exists totals,
    fetchEmploymentDataForZip server JSON_parse engine_message apiKey zip w
    = (Returned (with_totals totals <$>
                 rank (sector_data server JSON_parse apiKey (state c) (county c) zip
                         naicsCodes (sent (hud_url zip) w))),
       sent (totals_url apiKey (state c) (county c))
         (sent_all (sector_url apiKey (state c) (county c) <$> naicsCodes)
            (sent (hud_url zip) w))).
Proof.
  destruct (getCountyFromZip_returns zip w) as (found & Hfound).
  rewrite Hfound. intros [= ->].
  unfold fetchEmploymentDataForZip. unfold try_catch at 1. unfold bind at 1.
  rewrite Hfound. unfold bind.
  rewrite fetchEmploymentByCounty_run.
  destruct (fetchCountyTotals_spec server JSON_parse apiKey (state c) (county c) zip
              (sent_all (sector_url apiKey (state c) (county c) <$> naicsCodes)
                 (sent (hud_url zip) w)))
    as (totals & -> & _).
  by exists totals.
Qed.

Lemma fetchEmploymentDataForZip_outcome zip w :
  match fetchEmploymentDataForZip server JSON_parse engine_message apiKey zip w with
  | (Returned _, _) =>
      exists c, (getCountyFromZip server JSON_parse zip w).1 = Returned (Some c)
  | (Threw e, w') =>
      e = ApiError ("Failed to fetch employment data: "
                    ++ "Could not find county for ZIP code " ++ zip)
      /\ (getCountyFromZip server JSON_parse zip w).1 = Returned None
      /\ requests w' = (requests w ++ [hud_url zip])%list
  end.
Proof.
  destruct (getCountyFromZip_returns zip w) as ([c|] & Hfound).
  - destruct (fetchEmploymentDataForZip_found zip w c) as (totals & ->).
    { by rewrite Hfound. }
    rewrite Hfound. by exists c.
  - unfold fetchEmploymentDataForZip, try_catch, bind. by rewrite Hfound.
Qed.

(** X3.  [fetchEmploymentDataForZip] throws in one case only: no county
    was found for the ZIP code.  The error is then an [ApiError] whose
    message names the ZIP code, and the HUD request is the only one sent;
    failures of the census requests never surface.  When it returns, a
    county was found. *)
Theorem search_fails_only_without_county zip w :
  match fetchEmploymentDataForZip server JSON_parse engine_message apiKey zip w with
  | (Returned _, _) =>
      exists c, (getCountyFromZip server JSON_parse zip w).1 = Returned (Some c)
  | (Threw e, w') =>
      e = ApiError ("Failed to fetch employment data: "
                    ++ "Could not find county for ZIP code " ++ zip)
      /\ (getCountyFromZip server JSON_parse zip w).1 = Returned None
      /\ requests w' = (requests w ++ [hud_url zip])%list
  end.
Proof. apply fetchEmploymentDataForZip_outcome. Qed.

(** X4.  A search whose county is found sends 26 requests: one to the HUD
    service, one for each of the 24 sectors and one for the county totals,
    the last 25 for the state and county found. *)
Theorem search_sends_26_requests zip w c :
  (getCountyFromZip server JSON_parse zip w).1 = Returned (Some c) ->
  requests
    (fetchEmploymentDataForZip server JSON_parse engine_message apiKey zip w).2
  ≡ₚ requests w
     ++ hud_url zip
        :: totals_url apiKey (state c) (county c)
        :: (sector_url apiKey (state c) (county c) <$> naicsCodes)
  /\ length
       (requests
          (fetchEmploymentDataForZip server JSON_parse engine_message apiKey
             zip w).2)
     = (length (requests w) + 26)%nat.
Proof.
  intros Hfound.
  destruct (fetchEmploymentDataForZip_found zip w c Hfound) as (totals & ->).
  cbn [snd sent sent_all requests].
  split.
  - rewrite <- !app_assoc. apply Permutation_app_head. cbn [app].
    apply Permutation_cons; [done|].
    by rewrite Permutation_app_comm.
  - rewrite !length_app. simpl. lia.
Qed.

(** ** The drill-down and the search for children *)

Lemma drill_fan_out st co zip (children : list NAICSCode) acc w :
  exists results,
    for_each
      (fun results childCode =>
         try_catch
           (childData <- fetchCountySectorData server JSON_parse apiKey st co
                           (code childCode) zip ;;
            ret (results ++
                 (with_level (String.length (code childCode)) <$> childData))%list)
           (fun _ => ret results))
      children acc w
    = (Returned results,
       sent_all (sector_url apiKey st co <$> (code <$> children)) w).
Proof.
  set (f := fun results childCode => try_catch _ _).
  revert acc w.
  induction children as [|c rest IH]; intros acc w; simpl.
  - exists acc. unfold ret. by rewrite sent_all_nil.
  - assert (Hstep : exists l, f acc c w
              = (Returned (acc ++ l)%list, sent (sector_url apiKey st co (code c)) w)).
    { unfold f, try_catch, bind.
      destruct (fetchCountySectorData_spec server JSON_parse apiKey st co
                  (code c) zip w) as (l & -> & _).
      by eexists. }
    destruct Hstep as (l & Hstep). unfold bind. rewrite Hstep.
    destruct (IH (acc ++ l)%list (sent (sector_url apiKey st co (code c)) w))
      as (results & ->).
    exists results. by rewrite sent_all_cons.
Qed.

(** X5.  After the lookup of the children, [fetchSubIndustries] sends one
    census request for each child, in the order of the children, for the
    state and county it was given; for a parent without children it sends
    none and returns the empty list. *)
Theorem drill_down_asks_once_per_child st co parent zip w :
  exists children w1 l,
    getChildCodes server JSON_parse parent w = (Returned children, w1)
    /\ fetchSubIndustries server JSON_parse apiKey st co parent zip w
       = (Returned l, sent_all (sector_url apiKey st co <$> (code <$> children)) w1)
    /\ (children = [] -> l = []).
Proof.
  destruct (getChildCodes_spec server JSON_parse parent w)
    as (children & w1 & Hget & _).
  exists children, w1.
  unfold fetchSubIndustries. unfold try_catch at 1. unfold bind at 1.
  rewrite Hget. case_bool_decide as Hlen.
  - destruct children; [|done]. exists []. by rewrite sent_all_nil.
  - unfold bind at 1.
    destruct (drill_fan_out st co zip children [] w1) as (results & ->).
    exists (rank results). split; [done|]. split; [done|].
    by intros ->.
Qed.

Lemma search_term_break parent codes term w codes' w' :
  search_term server JSON_parse parent codes term w = (Returned (codes', true), w') ->
  codes' <> [].
Proof.
  unfold search_term, try_catch, bind. rewrite fetch_run.
  set (sc := scan (child_record parent)).
  destruct (next_reply _ _ w) as [|status body]; [done|]. cbn [fst snd].
  destruct (negb (ok status)); [done|].
  unfold text. destruct body as [t|]; [|done]. cbn [snd ret].
  destruct (JSON_parse t) as [data|]; [|done].
  unfold lift. destruct (records_of data) as [records|e]; [|done].
  destruct (sc records codes) as [found [e|]]; [done|].
  cbn [ret]. intros [= <- Hflag _].
  apply bool_decide_eq_true in Hflag. destruct found; simpl in *; [lia|done].
Qed.

Lemma search_terms_requests parent terms codes w :
  map_ok parent codes ->
  exists k found,
    search_terms server JSON_parse parent codes terms w
    = (Returned found, sent_all (search_url <$> take k terms) w)
    /\ (k <= length terms)%nat
    /\ (terms <> [] -> 0 < k)%nat
    /\ (k < length terms -> found <> [])%nat.
Proof.
  revert codes w.
  induction terms as [|t rest IH]; intros codes w Hok; simpl.
  - exists 0%nat, codes. unfold ret. rewrite sent_all_nil.
    split; [done|]. split; [done|]. split; [done | lia].
  - unfold bind.
    destruct (search_term_spec server JSON_parse parent codes t w Hok)
      as (c1 & b & Hrun & Hc1 & _).
    rewrite Hrun. cbn [fst snd]. destruct b.
    + exists 1%nat, c1.
      split; [reflexivity|]. split; [simpl; lia|]. split; [lia|].
      intros _. by eapply search_term_break.
    + destruct (IH c1 (sent (search_url t) w) Hc1) as (k & found & -> & Hk & _ & Hnz).
      exists (S k), found. rewrite sent_all_cons.
      split; [done|]. split; [simpl; lia|]. split; [lia|].
      simpl. intros ?. apply Hnz. lia.
Qed.

(** X6.  A search for the children of a code sends between one and five
    requests, for the first search terms of the list in their order
    (the code, the code followed by a star, by 0, by 1, and its first two
    characters), and stops before the fifth only when it has found
    children. *)
Theorem child_search_tries_terms_in_order parent w :
  exists k l,
    searchChildCodes server JSON_parse parent w
    = (Returned l,
       sent_all (search_url <$> take k [ parent; parent ++ "*"; parent ++ "0";
                                         parent ++ "1"; Str.substring 0 2 parent ])
         w)
    /\ (1 <= k <= 5)%nat
    /\ (k < 5 -> l <> [])%nat.
Proof.
  unfold searchChildCodes, bind.
  destruct (search_terms_requests parent (searchStrategies parent) [] w)
    as (k & found & Hrun & Hk & Hpos & Hnz).
  { split; constructor. }
  rewrite Hrun. exists k.
  case_bool_decide as Hlen.
  - exists []. split; [done|]. split.
    + split; [by apply Hpos | exact Hk].
    + intros Hlt. destruct (Hnz Hlt). by destruct found.
  - exists (sorted_entries found). split; [done|]. split.
    + split; [by apply Hpos | exact Hk].
    + intros _ Hnil. apply Hlen. apply (f_equal length) in Hnil.
      unfold sorted_entries in Hnil.
      by rewrite length_fmap, stable_sort_perm in Hnil.
Qed.

(** ** The two methods of [fetchNAICSCodes] *)

Lemma title_or_default_nonempty t c : title_or_default t c <> "".
Proof. unfold title_or_default. by destruct t. Qed.

Lemma stable_sort_strongly_sorted (l : list string) :
  StronglySorted (fun a b => String.leb a b = true) (stable_sort String.leb l).
Proof.
  apply Sorted_StronglySorted; [intros a b c; apply leb_trans|].
  apply stable_sort_Sorted, leb_total.
Qed.

Lemma sorted_entries_sorted codes :
  StronglySorted (fun a b => String.leb a b = true) (code <$> sorted_entries codes).
Proof.
  rewrite sorted_entries_codes.
  apply Sorted_StronglySorted; [intros a b c; apply leb_trans|].
  assert (Hs := stable_sort_Sorted (fun a b => localeCompare_le a.1 b.1)
                  (fun a b => leb_total a.1 b.1) codes).
  induction Hs as [|x r _ IH Hx]; simpl; constructor; [done|].
  destruct Hx; simpl; by constructor.
Qed.

Lemma sorted_entries_sector_list codes :
  NoDup codes.*1 ->
  Forall (fun e => Str.two_digits e.1 = true /\ e.2 <> "") codes ->
  sector_list (sorted_entries codes).
Proof.
  intros Hnd Hall. split; [|split].
  - unfold sorted_entries. apply Forall_fmap.
    eapply Forall_impl; [|by intros e He; exact He].
    by rewrite stable_sort_perm.
  - rewrite sorted_entries_codes. by rewrite stable_sort_perm.
  - apply sorted_entries_sorted.
Qed.

Lemma chart_item_inv acc item acc' :
  chart_item acc item = Returned acc' ->
  NoDup acc.1 /\ Forall (fun c => Str.two_digits c = true) acc.1 ->
  NoDup acc'.1 /\ Forall (fun c => Str.two_digits c = true) acc'.1.
Proof.
  unfold chart_item, Js.bind. intros Hitem [Hnd Hall].
  destruct (Js.is_object _); [|by injection Hitem as <-].
  destruct (text_of _) as [c|]; [|done].
  destruct (text_of _) as [t|]; [|done].
  destruct (Str.two_digits c) eqn:Hc; injection Hitem as <-; [|done].
  cbn [fst]. case_bool_decide as Hin; [done|]. split.
  - apply NoDup_app. split; [done|]. split; [|apply NoDup_singleton].
    intros x Hx [->|[]%elem_of_nil]%elem_of_cons. done.
  - apply Forall_app. split; [done|]. by constructor.
Qed.

Lemma try_fetch_then {A} (url : string) (k : Z * option string -> js A)
  (h : exn -> js A) w :
  (forall r, moves eq (k r)) -> (forall e, moves eq (h e)) ->
  (try_catch (bind (fetch server url) k) h w).2 = sent url w.
Proof.
  intros Hk Hh. unfold try_catch.
  pose proof (fetch_then url k w Hk) as Hw.
  destruct (bind (fetch server url) k w) as [[a|e] w']; simpl in *; [done|].
  subst. symmetry. apply Hh.
Qed.

Lemma tryChartMethod_world year w :
  (tryChartMethod server JSON_parse year w).2 = sent (chart_url year) w.
Proof.
  unfold tryChartMethod, json_body. fold (chart_url year).
  apply try_fetch_then; [intros r | intros e]; still.
Qed.

(** X7.  [tryChartMethod] sends one request and never throws.  The codes
    it returns have two digits each, none occurs twice, they ascend, and
    no title is empty. *)
Theorem chart_method_lists_sectors year w :
  exists l,
    tryChartMethod server JSON_parse year w = (Returned l, sent (chart_url year) w)
    /\ sector_list l.
Proof.
  pose proof (tryChartMethod_world year w) as Hw.
  destruct (tryChartMethod_total server JSON_parse year w) as (l & w' & Hrun).
  rewrite Hrun in Hw. simpl in Hw. subst w'. exists l. split; [done|].
  revert Hrun. unfold tryChartMethod, try_catch, bind, json_body, bind.
  rewrite fetch_run.
  assert (Hnil : sector_list []) by (repeat split; constructor).
  assert (Hscan : forall items,
    NoDup (scan chart_item items ([], [])).1.1
    /\ Forall (fun c => Str.two_digits c = true) (scan chart_item items ([], [])).1.1).
  { intros items. apply (scan_inv (fun acc => NoDup acc.1 /\ Forall _ acc.1)).
    - intros a x a' Ha Hx. by eapply chart_item_inv.
    - split; constructor. }
  set (sc := scan chart_item) in *.
  destruct (next_reply _ _ w) as [|status body]; [by intros [= <-]|].
  cbn [fst snd]. destruct (negb (ok status)); [by intros [= <-]|].
  unfold text. destruct body as [t|]; [|by intros [= <-]]. cbn [snd ret].
  unfold parse. destruct (JSON_parse t) as [data|]; [|by intros [= <-]].
  cbn [ret]. unfold lift. destruct (Js.get data "result") as [result|];
    [|by intros [= <-]].
  cbv zeta. set (items := if Js.is_object result then _ else _).
  specialize (Hscan items).
  destruct (sc items ([], [])) as [[codes titles] [e|]]; [by intros [= <-]|].
  cbn [fst] in Hscan. destruct Hscan as [Hnd Hall]. intros [= <-].
  split; [|split].
  - apply Forall_fmap, Forall_forall. intros c Hc. cbn [code title]. split.
    + rewrite Forall_forall in Hall. apply Hall.
      by rewrite (stable_sort_perm String.leb codes) in Hc.
    + apply title_or_default_nonempty.
  - rewrite <- list_fmap_compose. cbn [compose code].
    rewrite list_fmap_id. by rewrite stable_sort_perm.
  - rewrite <- list_fmap_compose. cbn [compose code].
    rewrite list_fmap_id. apply stable_sort_strongly_sorted.
Qed.

Lemma sweep_record_inv codes rec codes' :
  sweep_record codes rec = Returned codes' ->
  NoDup codes.*1 /\ Forall (fun e => Str.two_digits e.1 = true /\ e.2 <> "") codes ->
  NoDup codes'.*1 /\ Forall (fun e => Str.two_digits e.1 = true /\ e.2 <> "") codes'.
Proof.
  unfold sweep_record, Js.bind. intros Hrec [Hnd Hall].
  destruct (Js.is_object _); [|by injection Hrec as <-].
  destruct (text_of _) as [c|]; [|done].
  destruct (text_of _) as [t|]; [|done].
  destruct (Str.two_digits c) eqn:Hc; injection Hrec as <-; [|done].
  unfold set_if_absent, has. case_bool_decide as Hin; [done|]. split.
  - rewrite fmap_app. apply NoDup_app. split; [done|].
    split; [|apply NoDup_singleton].
    intros x Hx [->|[]%elem_of_nil]%elem_of_cons. done.
  - apply Forall_app. split; [done|]. constructor; [|constructor].
    split; [done | apply title_or_default_nonempty].
Qed.

Lemma sweep_seed_spec year codes seed w :
  NoDup codes.*1 /\ Forall (fun e => Str.two_digits e.1 = true /\ e.2 <> "") codes ->
  exists codes',
    sweep_seed server JSON_parse year codes seed w
    = (Returned codes', sent (sweep_url year seed) w)
    /\ NoDup codes'.*1
    /\ Forall (fun e => Str.two_digits e.1 = true /\ e.2 <> "") codes'.
Proof.
  intros Hinv.
  assert (Hw : (sweep_seed server JSON_parse year codes seed w).2
               = sent (sweep_url year seed) w).
  { unfold sweep_seed, json_body. fold (sweep_url year seed).
    apply try_fetch_then; [intros r | intros e]; still. }
  destruct (sweep_seed_total server JSON_parse year codes seed w)
    as (codes' & w' & Hrun).
  rewrite Hrun in Hw. simpl in Hw. subst w'. exists codes'. split; [done|].
  revert Hrun. unfold sweep_seed, try_catch, bind, json_body, bind.
  rewrite fetch_run.
  assert (Hscan : forall records,
    NoDup (scan sweep_record records codes).1.*1
    /\ Forall (fun e => Str.two_digits e.1 = true /\ e.2 <> "")
         (scan sweep_record records codes).1).
  { intros records.
    apply (scan_inv (fun acc => NoDup acc.*1 /\ Forall _ acc)); [|done].
    intros a x a' Ha Hx. by eapply sweep_record_inv. }
  set (sc := scan sweep_record) in *.
  destruct (next_reply _ _ w) as [|status body]; [by intros [= <-]|].
  cbn [fst snd]. destruct (negb (ok status)); [by intros [= <-]|].
  unfold text. destruct body as [t|]; [|by intros [= <-]]. cbn [snd ret].
  unfold parse. destruct (JSON_parse t) as [data|]; [|by intros [= <-]].
  cbn [ret]. unfold lift. destruct (records_of data) as [records|];
    [|by intros [= <-]].
  cbn [ret]. intros [= <-]. apply Hscan.
Qed.

Lemma sweep_all year (terms : list string) codes w :
  NoDup codes.*1 /\ Forall (fun e => Str.two_digits e.1 = true /\ e.2 <> "") codes ->
  exists codes',
    for_each (sweep_seed server JSON_parse year) terms codes w
    = (Returned codes', sent_all (sweep_url year <$> terms) w)
    /\ NoDup codes'.*1
    /\ Forall (fun e => Str.two_digits e.1 = true /\ e.2 <> "") codes'.
Proof.
  revert codes w.
  induction terms as [|t rest IH]; intros codes w Hinv; simpl.
  - exists codes. unfold ret. by rewrite sent_all_nil.
  - unfold bind.
    destruct (sweep_seed_spec year codes t w Hinv) as (c1 & -> & Hc1).
    destruct (IH c1 (sent (sweep_url year t) w) Hc1) as (c2 & -> & Hc2).
    exists c2. by rewrite sent_all_cons.
Qed.


(** X8.  [sweepSearchMethod] never throws and sends 36 requests, one for
    each digit and letter, in that order, whatever the replies.  The codes
    it returns have two digits each, none occurs twice, they ascend, and
    no title is empty. *)
Theorem sweep_method_lists_sectors year w :
  exists l,
    sweepSearchMethod server JSON_parse year w
    = (Returned l, sent_all (sweep_url year <$> seeds) w)
    /\ length (sweep_url year <$> seeds) = 36%nat
    /\ sector_list l.
Proof.
  unfold sweepSearchMethod, bind.
  destruct (sweep_all year seeds [] w) as (codes & -> & Hnd & Hall).
  { split; constructor. }
  exists (sorted_entries codes). split; [done|]. split; [done|].
  by apply sorted_entries_sector_list.
Qed.

(** ** The taxonomy service out of reach *)






(** ** The dictionary of sectors and the description of a code *)

Lemma assign_keys {V} (k : string) (v : V) m :
  NoDup m.*1 ->
  NoDup (assign k v m).*1
  /\ forall x, x ∈ (assign k v m).*1 <-> x = k \/ x ∈ m.*1.
Proof.
  induction m as [|[k' v'] m IH]; simpl; intros Hnd.
  - split; [apply NoDup_singleton|]. intros x. rewrite list_elem_of_singleton.
    split; [by left | by intros [?|?%elem_of_nil]].
  - apply NoDup_cons in Hnd as [Hk' Hnd]. case_bool_decide as Hk; simpl.
    + subst k'. split; [by apply NoDup_cons|].
      intros x. rewrite elem_of_cons. tauto.
    + destruct (IH Hnd) as [IHnd IHin]. split.
      * apply NoDup_cons. split; [|done]. rewrite IHin. by intros [?|?].
      * intros x. rewrite !elem_of_cons, IHin. tauto.
Qed.

Lemma reduce_keys (codes : list NAICSCode) acc :
  NoDup acc.*1 ->
  let d := fold_left (fun acc d => assign (code d) (title d) acc) codes acc in
  NoDup d.*1
  /\ forall x, x ∈ d.*1 <-> x ∈ code <$> codes \/ x ∈ acc.*1.
Proof.
  revert acc. induction codes as [|c rest IH]; intros acc Hnd; simpl.
  - split; [done|]. intros x. rewrite elem_of_nil. tauto.
  - destruct (assign_keys (code c) (title c) acc Hnd) as [Hnd' Hin'].
    destruct (IH _ Hnd') as [IHnd IHin]. split; [done|].
    intros x. rewrite IHin, Hin', elem_of_cons. tauto.
Qed.

(** X10.  [get2DigitCodes] never throws.  The dictionary it returns has
    each key once, and its keys are the codes of two characters of the
    list that [fetchNAICSCodes] returns for 2022, all of them and no
    other. *)
Theorem two_digit_dictionary w :
  exists allCodes w' d,
    fetchNAICSCodes server JSON_parse "2022" w = (Returned allCodes, w')
    /\ get2DigitCodes server JSON_parse w = (Returned d, w')
    /\ NoDup d.*1
    /\ forall key, key ∈ d.*1 <->
                   String.length key = 2%nat /\ key ∈ code <$> allCodes.
Proof.
  destruct (fetchNAICSCodes_spec server JSON_parse "2022" w)
    as (allCodes & w' & Hrun & _).
  exists allCodes, w'. unfold get2DigitCodes, try_catch, bind. rewrite Hrun.
  eexists. split; [done|]. split; [done|].
  assert (Hnil : NoDup ([] : list (string * string)).*1) by constructor.
  destruct (reduce_keys
    (List.filter (fun d => bool_decide (String.length (code d) = 2%nat)) allCodes)
    [] Hnil) as [Hnd Hin].
  split; [exact Hnd|]. intros key. rewrite Hin.
  rewrite !list_elem_of_fmap. split.
  - intros [(c & -> & Hc)|(x & _ & []%elem_of_nil)].
    apply list_elem_of_In, filter_In in Hc as [Hc Hlen].
    apply bool_decide_eq_true in Hlen. split; [done|].
    exists c. split; [done|]. by apply list_elem_of_In.
  - intros [Hlen (c & -> & Hc)]. left. exists c. split; [done|].
    apply list_elem_of_In, filter_In. split; [by apply list_elem_of_In|].
    by apply bool_decide_eq_true.
Qed.


(** ** The rows of a sector *)

Lemma or_default_truthy v d :
  Js.truthy (Some d) = true ->
  Js.truthy (Some (default d (Js.or v (Some d)))) = true.
Proof.
  intros Hd. unfold Js.or. destruct (Js.truthy v) eqn:Hv; [|done].
  by destruct v.
Qed.

Lemma sector_row_labelled nc results row results' :
  sector_row nc results row = Returned results' ->
  Forall (fun item => Js.truthy (Some (industry item)) = true
                      /\ Js.truthy (Some (location item)) = true
                      /\ countyTotalEmployees item = None
                      /\ subIndustries item = None) results ->
  Forall (fun item => Js.truthy (Some (industry item)) = true
                      /\ Js.truthy (Some (location item)) = true
                      /\ countyTotalEmployees item = None
                      /\ subIndustries item = None) results'.
Proof.
  unfold sector_row, Js.bind. intros Hrow Hres.
  repeat match type of Hrow with
         | match ?x with _ => _ end = _ => destruct x eqn:?; try discriminate
         | (if ?x then _ else _) = _ => destruct x eqn:?; try discriminate
         end;
    injection Hrow as <-; try done.
  apply Forall_app. split; [done|]. constructor; [|constructor].
  cbn [industry location countyTotalEmployees subIndustries].
  split; [by apply or_default_truthy|]. split; [by apply or_default_truthy|].
  done.
Qed.

(** X13.  Every item that [fetchCountySectorData] returns has a label and
    a location that are not blank: the cell of its row, or [NAICS] with the
    code and [Unknown Location] where the cell is missing or empty.  It
    has a positive figure, and neither county totals nor sub-industries. *)
Theorem sector_items_are_labelled st co nc zip w :
  exists l w',
    fetchCountySectorData server JSON_parse apiKey st co nc zip w = (Returned l, w')
    /\ Forall (fun item =>
                 Js.truthy (Some (industry item)) = true
                 /\ Js.truthy (Some (location item)) = true
                 /\ (0 < employees item \/ 0 < establishments item
                     \/ 0 < payroll item)
                 /\ countyTotalEmployees item = None
                 /\ subIndustries item = None) l.
Proof.
  destruct (fetchCountySectorData_spec server JSON_parse apiKey st co nc zip w)
    as (l & Hrun & _).
  exists l, (sent (sector_url apiKey st co nc) w). split; [done|].
  pose proof (fetchCountySectorData_has_data _ _ _ _ _ _ _ _ _ _ Hrun) as Hdata.
  assert (Hlab : Forall (fun item =>
                   Js.truthy (Some (industry item)) = true
                   /\ Js.truthy (Some (location item)) = true
                   /\ countyTotalEmployees item = None
                   /\ subIndustries item = None) l).
  { revert Hrun. unfold fetchCountySectorData, try_catch, bind.
    rewrite fetch_run.
    assert (Hscan : forall rows,
      Forall (fun item => Js.truthy (Some (industry item)) = true
                          /\ Js.truthy (Some (location item)) = true
                          /\ countyTotalEmployees item = None
                          /\ subIndustries item = None)
             (scan (sector_row nc) rows []).1).
    { intros rows. apply scan_inv; [|constructor].
      intros a x a' Ha Hx. by eapply sector_row_labelled. }
    set (sc := scan (sector_row nc)) in *.
    destruct (next_reply _ _ w) as [|status body]; [by intros [= <-]|].
    cbn [fst snd]. destruct (negb (ok status)); [by intros [= <-]|].
    unfold text. destruct body as [t|]; [|by intros [= <-]]. cbn [snd ret].
    destruct (Str.is_empty (Str.trim t)); [by intros [= <-]|].
    unfold parse. destruct (JSON_parse t) as [data|]; [|by intros [= <-]].
    cbn [ret].
    destruct data as [| | | |[|header [|row rows]]|]; try by intros [= <-].
    specialize (Hscan (row :: rows)).
    destruct (sc (row :: rows) []) as [results [e|]]; by intros [= <-]. }
  rewrite Forall_forall in Hdata, Hlab. apply Forall_forall. intros item Hitem.
  destruct (Hlab item Hitem) as (Hi & Hl & Ht & Hs).
  specialize (Hdata item Hitem). unfold has_data, has_figure in Hdata.
  repeat split; try done.
  apply orb_prop in Hdata as [Hd|Hd]; [apply orb_prop in Hd as [Hd|Hd]|];
    apply Z.ltb_lt in Hd; auto.
Qed.

(** ** The form *)

Lemma trimStart_digits s : Str.forallb Str.is_digit s = true -> Str.trimStart s = s.
Proof.
  destruct s as [|c s]; [done|]. simpl. intros [Hc _]%andb_prop.
  by rewrite (digit_not_space c Hc).
Qed.

Lemma rev_app_rev_app s1 s2 s3 :
  String.rev_app (String.rev_app s1 s2) s3 = String.rev_app s2 (s1 ++ s3).
Proof.
  revert s2 s3. induction s1 as [|c s1 IH]; intros s2 s3; [done|].
  simpl. rewrite IH. simpl. by rewrite string_app_cons.
Qed.

Lemma rev_rev s : String.rev (String.rev s) = s.
Proof. unfold String.rev. rewrite rev_app_rev_app. simpl. apply string_app_empty. Qed.

Lemma forallb_rev_app p s1 s2 :
  Str.forallb p (String.rev_app s1 s2) = Str.forallb p s1 && Str.forallb p s2.
Proof.
  revert s2. induction s1 as [|c s1 IH]; intros s2; [done|]. simpl.
  rewrite IH. simpl. by destruct (p c), (Str.forallb p s1).
Qed.

Lemma trim_digits s : Str.forallb Str.is_digit s = true -> Str.trim s = s.
Proof.
  intros Hs. unfold Str.trim. rewrite (trimStart_digits s Hs).
  rewrite trimStart_digits; [apply rev_rev|].
  unfold String.rev. rewrite forallb_rev_app, Hs. done.
Qed.

Lemma digits_are_not_inherited z :
  Str.forallb Str.is_digit z = true -> z ∉ inherited_names.
Proof.
  intros Hd Hin. unfold inherited_names in Hin.
  repeat (apply elem_of_cons in Hin as [->|Hin]; [done|]).
  by apply elem_of_nil in Hin.
Qed.

(** X14.  Whatever is typed into the form, a ZIP code that it submits is
    the text kept by the input, a string of exactly five digits.  The HUD
    lookup asks for that very ZIP code, and the static table is read at one
    of its own keys or not at all. *)
Theorem form_submits_five_digits value z :
  handleSubmit (onChange value) = Some z ->
  z = onChange value
  /\ String.length z = 5%nat
  /\ Str.forallb Str.is_digit z = true
  /\ isValidZip z = true
  /\ hud_zip z = z
  /\ getCountyFallback z = lookup_key z zipToCounty.
Proof.
  assert (Hdig : Str.forallb Str.is_digit (onChange value) = true).
  { unfold onChange. apply forallb_take, forallb_filter. }
  unfold handleSubmit. rewrite (trim_digits _ Hdig).
  destruct (negb _); cbn [andb]; [|done].
  case_bool_decide as Hlen; [|done]. intros [= <-].
  split; [done|]. split; [done|]. split; [done|]. split.
  - unfold isValidZip. rewrite Hdig. by rewrite !bool_decide_eq_true_2.
  - split; [by apply hud_zip_id|].
    pose proof (digits_are_not_inherited _ Hdig) as Hnot.
    unfold getCountyFallback, member.
    destruct (lookup_key _ zipToCounty); [done|].
    by rewrite bool_decide_eq_false_2.
Qed.

(** ** The ten rows shown *)

Lemma by_metric_total metric a b :
  by_metric metric a b = true \/ by_metric metric b a = true.
Proof.
  unfold by_metric.
  destruct (Z.leb_spec (getMetricValue metric b) (getMetricValue metric a));
    [by left|].
  right. apply Z.leb_le. lia.
Qed.

Lemma sortedData_sorted metric data :
  StronglySorted
    (fun a b => getMetricValue metric b <= getMetricValue metric a)
    (sortedData metric data).
Proof.
  apply Sorted_StronglySorted; [intros a b c; lia|].
  assert (Hs := stable_sort_Sorted (by_metric metric) (by_metric_total metric) data).
  fold (sortedData metric data) in Hs.
  induction Hs as [|x r _ IH Hx]; constructor; [done|].
  destruct Hx as [|y r Hxy]; constructor.
  by apply Z.leb_le in Hxy.
Qed.

(** X15.  The rows shown are at most ten rows of the data, in
    non-increasing order of the selected metric; together with the rows left
    out they are the data, and no row left out has a larger value of the
    metric than a row shown. *)
Theorem top_ten_rows metric data :
  length (top10Data metric data) = (10 `min` length data)%nat
  /\ StronglySorted
       (fun a b => getMetricValue metric b <= getMetricValue metric a)
       (top10Data metric data)
  /\ exists rest,
       top10Data metric data ++ rest ≡ₚ data
       /\ forall shown left_out,
            shown ∈ top10Data metric data -> left_out ∈ rest ->
            getMetricValue metric left_out <= getMetricValue metric shown.
Proof.
  pose proof (sortedData_sorted metric data) as Hs.
  pose proof (stable_sort_perm (by_metric metric) data) as Hp.
  fold (sortedData metric data) in Hp.
  unfold top10Data. rewrite <- (take_drop 10 (sortedData metric data)) in Hs.
  split; [by rewrite length_take, Hp|].
  split; [by apply StronglySorted_app_1_l in Hs|].
  exists (drop 10 (sortedData metric data)). split; [by rewrite take_drop|].
  intros shown left_out Hshown Hleft.
  by apply (StronglySorted_app_1_elem_of _ _ _ shown left_out Hs).
Qed.

(** ** Expanding and collapsing rows *)

Lemma same_figures_refl a : same_figures a a.
Proof. by repeat split. Qed.

Lemma with_view_same_figures a subs e l : same_figures a (with_view a subs e l).
Proof. by repeat split. Qed.

Lemma update_rows_same_figures f clicked prev :
  (forall x, same_figures x (f x)) ->
  Forall2 same_figures prev (update_rows f clicked prev).
Proof.
  intros Hf. unfold update_rows.
  apply Forall2_fmap_r, Forall_Forall2_diag, Forall_forall. intros item _.
  unfold compose. cbv beta. case_bool_decide; [apply Hf|].
  destruct (subIndustries item); [apply with_view_same_figures|].
  apply same_figures_refl.
Qed.

Lemma same_figures_trans a b c :
  same_figures a b -> same_figures b c -> same_figures a c.
Proof. unfold same_figures. intros Hab Hbc. repeat split; by etrans; [apply Hbc|apply Hab]. Qed.

Lemma Forall2_same_figures_trans l1 l2 l3 :
  Forall2 same_figures l1 l2 -> Forall2 same_figures l2 l3 ->
  Forall2 same_figures l1 l3.
Proof.
  intros H12. revert l3. induction H12; intros l3 H23; inversion H23; subst;
    constructor; [by eapply same_figures_trans | auto].
Qed.

(** X16.  Pressing the button of a row, whatever comes of it, leaves the
    top-level rows in place: as many rows, in the same order, each with the
    same industry, code, figures, county totals and level.  It changes
    neither the ZIP code of the search nor the search flag. *)
Theorem expand_keeps_the_rows st clicked state county w :
  let st' := (onExpandIndustry server JSON_parse engine_message apiKey
                st clicked state county w).1 in
  Forall2 same_figures (employerData st) (employerData st')
  /\ currentZip st' = currentZip st
  /\ isSearching st' = isSearching st.
Proof.
  unfold onExpandIndustry.
  destruct (Str.is_empty apiKey).
  { cbn. split; [|done]. apply Forall_Forall2_diag, Forall_forall.
    intros; apply same_figures_refl. }
  case_bool_decide.
  { cbn. split; [|done]. apply update_rows_same_figures.
    intros x. apply with_view_same_figures. }
  destruct (handleExpandIndustry _ _ _ _ _ _ _ w) as [[l|e] w']; cbn.
  - split; [|done].
    eapply Forall2_same_figures_trans; apply update_rows_same_figures;
      intros x; apply with_view_same_figures.
  - split; [|done].
    eapply Forall2_same_figures_trans; apply update_rows_same_figures;
      intros x; apply with_view_same_figures.
Qed.

Lemma update_rows_Forall f clicked prev (Q : ProcessedEmployerData -> Prop) :
  (forall x, Q (f x)) ->
  Forall (fun row => naicsCode row = clicked -> Q row)
    (update_rows f clicked prev).
Proof.
  intros Hf. unfold update_rows.
  apply Forall_fmap, Forall_forall. intros item _.
  unfold compose. cbv beta. case_bool_decide as Hc; [by intros _|].
  by destruct (subIndustries item).
Qed.

Lemma update_rows_twice f g clicked prev (Q : ProcessedEmployerData -> Prop) :
  (forall x, naicsCode (f x) = naicsCode x) ->
  (forall x, Q (g (f x))) ->
  Forall (fun row => naicsCode row = clicked -> Q row)
    (update_rows g clicked (update_rows f clicked prev)).
Proof.
  intros Hf Hg. unfold update_rows. rewrite <- list_fmap_compose.
  apply Forall_fmap, Forall_forall. intros item _.
  unfold compose. cbv beta.
  destruct (bool_decide (naicsCode item = clicked)) eqn:Hc.
  - apply bool_decide_eq_true in Hc.
    rewrite bool_decide_eq_true_2 by (by rewrite Hf). by intros _.
  - apply bool_decide_eq_false in Hc.
    destruct (subIndustries item) as [subs|] eqn:Hsubs.
    + cbn [naicsCode with_view subIndustries]. rewrite bool_decide_eq_false_2 by done.
      by intros.
    + rewrite bool_decide_eq_false_2 by done. rewrite Hsubs. by intros.
Qed.

(** X17.  Pressing the button of an industry that is in the set of
    expanded industries sends no request.  It takes the code out of the
    set and leaves every top-level row with that code with an empty list
    of sub-industries, marked as not expanded. *)
Theorem collapse_sends_nothing st clicked state county w :
  Str.is_empty apiKey = false ->
  clicked ∈ expandedIndustries st ->
  let after := onExpandIndustry server JSON_parse engine_message apiKey
                 st clicked state county w in
  after.2 = w
  /\ expandedIndustries after.1 = expandedIndustries st ∖ {[clicked]}
  /\ error after.1 = error st
  /\ Forall (fun row => naicsCode row = clicked ->
                        subIndustries row = Some [] /\ isExpanded row = Some false)
       (employerData after.1).
Proof.
  intros Hkey Hin. unfold onExpandIndustry. rewrite Hkey.
  rewrite bool_decide_eq_true_2 by done. cbn.
  split; [done|]. split; [done|]. split; [done|].
  by apply update_rows_Forall.
Qed.

(** X18.  Pressing the button of an industry that is not in the set of
    expanded industries asks [fetchSubIndustries] once, for the ZIP code of
    the search.  Since that never throws, the code joins the set, the error
    text stays as it is, and every top-level row with that code gets the
    list returned, with county totals added, and is marked as expanded and
    not loading. *)
Theorem expand_stores_sub_industries st clicked state county w :
  Str.is_empty apiKey = false ->
  clicked ∉ expandedIndustries st ->
  let after := onExpandIndustry server JSON_parse engine_message apiKey
                 st clicked state county w in
  exists fetched,
    fetchSubIndustries server JSON_parse apiKey state county clicked
      (currentZip st) w = (Returned fetched, after.2)
    /\ expandedIndustries after.1 = expandedIndustries st ∪ {[clicked]}
    /\ error after.1 = error st
    /\ Forall (fun row =>
                 naicsCode row = clicked ->
                 subIndustries row
                 = Some (enrich (employerData st) clicked fetched)
                 /\ isExpanded row = Some true
                 /\ isLoadingSubIndustries row = Some false)
         (employerData after.1).
Proof.
  intros Hkey Hnot. unfold onExpandIndustry. rewrite Hkey.
  rewrite bool_decide_eq_false_2 by done. unfold handleExpandIndustry.
  destruct (fetchSubIndustries_spec server JSON_parse apiKey state county clicked
              (currentZip st) w) as (children & w1 & results & w' & _ & -> & _).
  cbn. exists (rank results). split; [done|]. split; [done|]. split; [done|].
  by apply update_rows_twice.
Qed.

(** X19.  The totals that sub-industries are shown against: when a
    top-level row has the code pressed, each fetched item gets the three
    county totals of the first such row; when none has (the row pressed
    is itself a sub-industry), each gets none.  Nothing else of an item
    changes. *)
Theorem sub_industries_get_parent_totals rows clicked fetched :
  Forall2 (fun item sub =>
             industry sub = industry item /\ employees sub = employees item
             /\ establishments sub = establishments item
             /\ payroll sub = payroll item /\ naicsCode sub = naicsCode item
             /\ location sub = location item /\ geoId sub = geoId item
             /\ level sub = level item
             /\ subIndustries sub = subIndustries item
             /\ isExpanded sub = isExpanded item
             /\ isLoadingSubIndustries sub = isLoadingSubIndustries item)
    fetched (enrich rows clicked fetched)
  /\ match List.find (fun row => bool_decide (naicsCode row = clicked)) rows with
     | Some parent =>
         naicsCode parent = clicked
         /\ Forall (fun sub =>
                      countyTotalEmployees sub = countyTotalEmployees parent
                      /\ countyTotalEstablishments sub
                         = countyTotalEstablishments parent
                      /\ countyTotalPayroll sub = countyTotalPayroll parent)
              (enrich rows clicked fetched)
     | None =>
         Forall (fun row => naicsCode row <> clicked) rows
         /\ Forall (fun sub =>
                      countyTotalEmployees sub = None
                      /\ countyTotalEstablishments sub = None
                      /\ countyTotalPayroll sub = None)
              (enrich rows clicked fetched)
     end.
Proof.
  unfold enrich. split.
  { apply Forall2_fmap_r, Forall_Forall2_diag, Forall_forall.
    intros item _. unfold compose. cbv beta. by repeat split. }
  destruct (List.find _ rows) as [parent|] eqn:Hfind.
  - apply find_some in Hfind as [_ Hp]. apply bool_decide_eq_true in Hp.
    split; [done|]. apply Forall_fmap, Forall_forall. by intros sub _.
  - split.
    + apply Forall_forall. intros row Hrow Hc.
      apply list_elem_of_In in Hrow.
      pose proof (find_none _ _ Hfind row Hrow) as Hno. cbv beta in Hno.
      by rewrite bool_decide_eq_true_2 in Hno.
    + apply Forall_fmap, Forall_forall. by intros sub _.
Qed.

(** ** Searching *)

(** X20.  A search, when it ends, has set the ZIP code of the page and
    cleared the search flag.  Either it shows data and no error, or it
    shows no data and the one error text that a search can produce, which
    names the ZIP code. *)
Theorem search_shows_data_or_one_error st zip w :
  Str.is_empty apiKey = false ->
  let after := (handleSearch server JSON_parse engine_message apiKey st zip w).1 in
  currentZip after = zip
  /\ isSearching after = false
  /\ expandedIndustries after = expandedIndustries st
  /\ ((error after = ""
       /\ (fetchEmploymentDataForZip server JSON_parse engine_message apiKey
             zip w).1 = Returned (employerData after))
      \/ (employerData after = []
          /\ error after = ("Failed to fetch employment data: "
                            ++ "Could not find county for ZIP code " ++ zip))).
Proof.
  intros Hkey. unfold handleSearch. rewrite Hkey.
  pose proof (fetchEmploymentDataForZip_outcome zip w) as Hout.
  destruct (fetchEmploymentDataForZip _ _ _ _ zip w) as [[data|e] w']; cbn.
  - split; [done|]. split; [done|]. split; [done|]. by left.
  - destruct Hout as (-> & _). split; [done|]. split; [done|]. split; [done|].
    by right.
Qed.

(** X21.  A search does not empty the set of expanded industries.  After
    a new search, the first press on an industry that was expanded before
    the search sends no request and shows no sub-industries: it takes the
    code out of the set. *)
Theorem press_after_new_search_collapses st zip clicked state county w :
  Str.is_empty apiKey = false ->
  clicked ∈ expandedIndustries st ->
  let searched := handleSearch server JSON_parse engine_message apiKey st zip w in
  let pressed := onExpandIndustry server JSON_parse engine_message apiKey
                   searched.1 clicked state county searched.2 in
  pressed.2 = searched.2
  /\ (clicked ∉ expandedIndustries pressed.1)
  /\ Forall (fun row => naicsCode row = clicked -> subIndustries row = Some [])
       (employerData pressed.1).
Proof.
  intros Hkey Hin.
  assert (Hkept : expandedIndustries
                    (handleSearch server JSON_parse engine_message apiKey st zip w).1
                  = expandedIndustries st).
  { unfold handleSearch. rewrite Hkey.
    by destruct (fetchEmploymentDataForZip _ _ _ _ zip w) as [[data|e] w']. }
  cbv zeta.
  set (searched := handleSearch server JSON_parse engine_message apiKey st zip w)
    in Hkept |- *.
  unfold onExpandIndustry. rewrite Hkey.
  assert (Hin' : clicked ∈ expandedIndustries searched.1) by (by rewrite Hkept).
  rewrite (bool_decide_eq_true_2 _ Hin'). cbn.
  split; [done|].
  split; [apply not_elem_of_difference; right; by apply elem_of_singleton|].
  by apply update_rows_Forall.
Qed.

(** ** How deep the drill-down goes *)

(** X22.  In a reachable world the items that [fetchSubIndustries] returns
    for a parent code get a button to expand them exactly when the parent
    code has fewer than three characters: the sub-industries of a sector
    can be opened, their own sub-industries cannot. *)
Theorem drill_down_stops_below_sub_industries st co parent zip w :
  reachable server JSON_parse engine_message apiKey w ->
  exists l w',
    fetchSubIndustries server JSON_parse apiKey st co parent zip w
    = (Returned l, w')
    /\ Forall (fun item =>
                 canExpand item = bool_decide (String.length parent < 3)%nat) l.
Proof.
  intros Hw%reachable_cache_ok.
  destruct (fetchSubIndustries_spec server JSON_parse apiKey st co parent zip w)
    as (children & w1 & results & w' & Hget & Hrun & Hres & _).
  exists (rank results), w'. split; [done|].
  destruct (getChildCodes_spec server JSON_parse parent w)
    as (l' & w1' & Hget' & _ & Hok' & _).
  rewrite Hget in Hget'. injection Hget' as <- <-.
  destruct (Hok' Hw) as [Hdirect _]. rewrite Forall_forall in Hdirect.
  apply rank_Forall. eapply Forall_impl; [exact Hres|].
  intros item (c & Hc & _ & Hlevel).
  destruct (Hdirect c Hc) as (Hlen & _).
  unfold canExpand. rewrite Hlevel, Hlen.
  replace (String.length parent + 1)%nat with (S (String.length parent)) by lia.
  apply bool_decide_ext. lia.
Qed.

End MoreFacts.

(** ** The properties at work on the example *)

Lemma hud_lookup_witness :
  requests (countyFromZip_viaHUD Demo.server Demo.parse "10002" initial).2
  = [hud_url "10002"]
  /\ hud_zip "10002" = "10002".
Proof.
  pose proof (hud_lookup_asks_for_five_digits Demo.server Demo.parse "10002" initial)
    as (Hreq & _ & _ & Hid).
  split; [exact Hreq|]. apply Hid; reflexivity.
Defined.

Lemma hud_county_witness :
  exists c w',
    countyFromZip_viaHUD Demo.server Demo.parse "10002" initial = (Returned c, w')
    /\ String.length (state c) = 2%nat
    /\ String.length (county c) = 3%nat.
Proof.
  destruct (countyFromZip_viaHUD Demo.server Demo.parse "10002" initial)
    as [[c|e] w'] eqn:Hrun.
  - exists c, w'. split; [reflexivity|].
    destruct (hud_county_splits_geoid Demo.server Demo.parse "10002" initial c w' Hrun)
      as (Hs & Hc & _).
    split; [exact Hs | exact Hc].
  - vm_compute in Hrun. discriminate Hrun.
Defined.

Lemma search_requests_witness :
  (getCountyFromZip Demo.server Demo.parse "10002" initial).1
  = Returned (Some (mkCounty "36" "061" "New York County, NY"))
  /\ length
       (requests
          (fetchEmploymentDataForZip Demo.server Demo.parse Demo.message
             Demo.apiKey "10002" initial).2) = 26%nat.
Proof.
  assert (H : (getCountyFromZip Demo.server Demo.parse "10002" initial).1
              = Returned (Some (mkCounty "36" "061" "New York County, NY"))).
  { vm_compute. reflexivity. }
  split; [exact H|].
  exact (proj2 (search_sends_26_requests Demo.server Demo.parse Demo.message
                  Demo.apiKey "10002" initial _ H)).
Defined.

Lemma drill_down_requests_witness :
  exists w1 l,
    getChildCodes Demo.server Demo.parse "99" initial = (Returned [], w1)
    /\ (fetchSubIndustries Demo.server Demo.parse Demo.apiKey "25" "017" "99"
          "02459" initial).1 = Returned l
    /\ l = [].
Proof.
  destruct (drill_down_asks_once_per_child Demo.server Demo.parse Demo.apiKey
              "25" "017" "99" "02459" initial)
    as (children & w1 & l & Hget & Hrun & Hempty).
  assert (Hc : children = []).
  { pose proof Hget as Hv. vm_compute in Hv. by injection Hv as <- _. }
  subst children. exists w1, l. split; [exact Hget|].
  split; [by rewrite Hrun | apply Hempty; reflexivity].
Defined.

Lemma child_search_witness :
  exists l,
    (searchChildCodes Demo.server Demo.parse "62" initial).1 = Returned l
    /\ l <> [].
Proof.
  destruct (child_search_tries_terms_in_order Demo.server Demo.parse "62" initial)
    as (k & l & Hrun & Hk & Hl).
  exists l. rewrite Hrun. split; [reflexivity|]. apply Hl.
  destruct k as [|[|[|[|[|k]]]]]; try lia; vm_compute in Hrun; discriminate Hrun.
Defined.



Lemma form_witness :
  handleSubmit (onChange "02459-1234") = Some "02459"
  /\ isValidZip "02459" = true
  /\ hud_zip "02459" = "02459".
Proof.
  assert (H : handleSubmit (onChange "02459-1234") = Some "02459").
  { vm_compute. reflexivity. }
  split; [exact H|].
  destruct (form_submits_five_digits "02459-1234" "02459" H)
    as (_ & _ & _ & Hvalid & Hhud & _).
  split; [exact Hvalid | exact Hhud].
Defined.

Lemma collapse_witness :
  "62" ∈ expandedIndustries DemoPage.opened.1
  /\ (onExpandIndustry Demo.server Demo.parse Demo.message Demo.apiKey
        DemoPage.opened.1 "62" "25" "017" DemoPage.opened.2).2
     = DemoPage.opened.2.
Proof.
  assert (Hin : "62" ∈ expandedIndustries DemoPage.opened.1).
  { apply (bool_decide_unpack _). vm_compute. exact I. }
  split; [exact Hin|].
  pose proof (collapse_sends_nothing Demo.server Demo.parse Demo.message
                Demo.apiKey DemoPage.opened.1 "62" "25" "017" DemoPage.opened.2
                eq_refl Hin) as K.
  cbv zeta in K. destruct K as (K & _). exact K.
Defined.

Lemma expand_witness :
  ("62" ∉ expandedIndustries DemoPage.searched.1)
  /\ Forall (fun row => naicsCode row = "62" -> isExpanded row = Some true)
       (employerData DemoPage.opened.1).
Proof.
  assert (Hnot : "62" ∉ expandedIndustries DemoPage.searched.1).
  { apply (bool_decide_unpack _). vm_compute. exact I. }
  split; [exact Hnot|].
  pose proof (expand_stores_sub_industries Demo.server Demo.parse Demo.message
                Demo.apiKey DemoPage.searched.1 "62" "25" "017"
                DemoPage.searched.2 eq_refl Hnot) as K.
  cbv zeta in K. destruct K as (fetched & _ & _ & _ & K).
  eapply Forall_impl; [exact K|].
  intros row Hrow Hcode. exact (proj1 (proj2 (Hrow Hcode))).
Defined.

Lemma search_witness :
  currentZip DemoPage.searched.1 = "02459"
  /\ isSearching DemoPage.searched.1 = false.
Proof.
  pose proof (search_shows_data_or_one_error Demo.server Demo.parse Demo.message
                Demo.apiKey DemoPage.start "02459" initial eq_refl) as K.
  cbv zeta in K. destruct K as (Hzip & Hflag & _).
  split; [exact Hzip | exact Hflag].
Defined.

Lemma press_after_search_witness :
  "62" ∈ expandedIndustries DemoPage.opened.1
  /\ "62" ∉ expandedIndustries
       (onExpandIndustry Demo.server Demo.parse Demo.message Demo.apiKey
          (handleSearch Demo.server Demo.parse Demo.message Demo.apiKey
             DemoPage.opened.1 "10002" DemoPage.opened.2).1
          "62" "25" "017"
          (handleSearch Demo.server Demo.parse Demo.message Demo.apiKey
             DemoPage.opened.1 "10002" DemoPage.opened.2).2).1.
Proof.
  assert (Hin : "62" ∈ expandedIndustries DemoPage.opened.1).
  { apply (bool_decide_unpack _). vm_compute. exact I. }
  split; [exact Hin|].
  pose proof (press_after_new_search_collapses Demo.server Demo.parse Demo.message
                Demo.apiKey DemoPage.opened.1 "10002" "62" "25" "017"
                DemoPage.opened.2 eq_refl Hin) as K.
  cbv zeta in K. destruct K as (_ & K & _). exact K.
Defined.

Lemma drill_down_depth_witness :
  reachable Demo.server Demo.parse Demo.message Demo.apiKey initial
  /\ exists l w',
       fetchSubIndustries Demo.server Demo.parse Demo.apiKey "25" "017" "62"
         "02459" initial = (Returned l, w')
       /\ Forall (fun item => canExpand item = true) l.
Proof.
  split; [apply reachable_initial|].
  destruct (drill_down_stops_below_sub_industries Demo.server Demo.parse
              Demo.message Demo.apiKey "25" "017" "62" "02459" initial
              (reachable_initial _ _ _ _))
    as (l & w' & Hrun & Hall).
  exists l, w'. split; [exact Hrun|].
  eapply Forall_impl; [exact Hall|]. intros item Hitem. exact Hitem.
Defined.

Lemma cells_witness :
  parseEmployeeCount (Some (JNum 120)) = Returned 120
  /\ parsePayroll (Some (JNum 900)) = Returned 900000.
Proof.
  split.
  - apply (cells_that_are_not_strings 120). vm_compute. discriminate.
  - destruct (cells_that_are_not_strings 900) as (_ & _ & Hp & _);
      [vm_compute; discriminate|].
    apply Hp. vm_compute. discriminate.
Defined.
